(** * simple-github-webhook: the deploy path of [github-webhook.js]

    A shallow embedding of the webhook receiver: signature verification,
    the event filter, the per-key deploy lock, the deploy runner with its
    rolling output buffer, the status reporter and the request handler,
    together with the Node event loop that interleaves them. *)

From Stdlib Require Import String Ascii.
From stdpp Require Import gmap list.

Local Open Scope N_scope.

(** ** JavaScript strings

    A JavaScript string is a sequence of UTF-16 code units; [slice],
    [length] and [split] count code units.  A [Buffer] is a sequence of
    bytes, each an [N] below 256. *)

Abbreviation jsstring := (list N).
Abbreviation bytes := (list N).

(** ASCII literals: one code unit per character. *)
Fixpoint u (s : string) : jsstring :=
  match s with
  | EmptyString => []
  | String a s' => N_of_ascii a :: u s'
  end.

Arguments u : simpl never.

(** The non-ASCII characters of the source's messages. *)
Definition warning_sign : jsstring := [0x26A0; 0xFE0E].
Definition package_sign : jsstring := [0xD83D; 0xDCE6].
Definition arrows_sign : jsstring := [0xD83D; 0xDD04].
Definition siren_sign : jsstring := [0xD83D; 0xDEA8].
Definition rocket_sign : jsstring := [0xD83D; 0xDE80].
Definition check_sign : jsstring := [0x2705].

Definition nl : N := 10.
Definition slash : N := 47.

(** [s.split(sep)] for a one-character separator: never empty. *)
Fixpoint split (sep : N) (s : jsstring) : list jsstring :=
  match s with
  | [] => [[]]
  | c :: s' =>
      if c =? sep then [] :: split sep s'
      else match split sep s' with
           | seg :: segs => (c :: seg) :: segs
           | [] => [[c]]
           end
  end.

(** [a.join(sep)]. *)
Fixpoint join (sep : jsstring) (l : list jsstring) : jsstring :=
  match l with
  | [] => []
  | [x] => x
  | x :: l' => x ++ sep ++ join sep l'
  end.

(** [a.pop()] on a fresh array: its last element. *)
Definition pop (l : list jsstring) : jsstring := default [] (last l).

(** WhiteSpace and LineTerminator code units, as [String.prototype.trim]
    strips them. *)
Definition is_space (c : N) : bool :=
  (c =? 0x09) || (c =? 0x0A) || (c =? 0x0B) || (c =? 0x0C) || (c =? 0x0D)
  || (c =? 0x20) || (c =? 0xA0) || (c =? 0x1680)
  || ((0x2000 <=? c) && (c <=? 0x200A))
  || (c =? 0x2028) || (c =? 0x2029) || (c =? 0x202F) || (c =? 0x205F)
  || (c =? 0x3000) || (c =? 0xFEFF).

Fixpoint trim_start (s : jsstring) : jsstring :=
  match s with
  | c :: s' => if is_space c then trim_start s' else s
  | [] => []
  end.

Definition trim (s : jsstring) : jsstring :=
  reverse (trim_start (reverse (trim_start s))).

(** [s.slice(0, n)] and [a.slice(-n)]. *)
Definition slice_to {A} (n : N) (l : list A) : list A := take (N.to_nat n) l.
Definition slice_last {A} (n : nat) (l : list A) : list A :=
  drop (length l - n) l.

(** [String(z)] for an integer. *)
Fixpoint digits (fuel : nat) (n : N) (acc : jsstring) : jsstring :=
  match fuel with
  | O => acc
  | S fuel' =>
      let acc' := (48 + n mod 10) :: acc in
      if n <? 10 then acc' else digits fuel' (n / 10) acc'
  end.

Definition N_to_string (n : N) : jsstring := digits (S (N.to_nat (N.log2 n))) n [].

Definition Z_to_string (z : Z) : jsstring :=
  match z with
  | Zneg p => 45 :: N_to_string (Npos p)
  | _ => N_to_string (Z.to_N z)
  end.

(** A property read from a parsed JSON object, a header or an environment
    variable: absent, [null], or a value. *)
Inductive field (A : Type) : Type :=
  | Undefined
  | Null
  | Val (a : A).
Arguments Undefined {A}.
Arguments Null {A}.
Arguments Val {A} a.

(** A JSON value where the push payload has a string.  [JSON.parse] can
    put a number, a boolean or a plain object there: a value with no
    method [split] or [slice], of which the handler sees the truthiness
    and the conversion to a string.  (An array, which has a [slice], is
    not represented.) *)
Inductive value :=
  | Str (s : jsstring)
  | Other (is_truthy : bool) (shown : jsstring).

Definition nonempty (s : jsstring) : bool :=
  match s with [] => false | _ => true end.

(** ToBoolean and ToString, on strings and on the values of a payload. *)
Class Js (A : Type) := { to_boolean : A -> bool; to_string : A -> jsstring }.

#[global] Instance js_string : Js jsstring :=
  {| to_boolean := nonempty; to_string := fun s => s |}.

#[global] Instance js_value : Js value :=
  {| to_boolean := fun v => match v with Str s => nonempty s | Other t _ => t end;
     to_string := fun v => match v with Str s => s | Other _ shown => shown end |}.

(** Truthiness: [undefined], [null] and the empty string are falsy,
    objects are truthy. *)
Definition truthy {A} `{Js A} (f : field A) : bool :=
  match f with Val a => to_boolean a | _ => false end.

Definition truthy_bool (f : field bool) : bool :=
  match f with Val b => b | _ => false end.

Definition truthy_obj {A} (f : field A) : bool :=
  match f with Val _ => true | _ => false end.

(** [o.p] where [o] is an object of the payload; [o?.p] agrees with it
    and gives [undefined] where [o] is [undefined] or [null]. *)
Definition property {A B} (p : A -> field B) (o : field A) : field B :=
  match o with Val a => p a | _ => Undefined end.

(** Interpolation in a template literal. *)
Definition tmpl {A} `{Js A} (f : field A) : jsstring :=
  match f with
  | Undefined => u "undefined"
  | Null => u "null"
  | Val a => to_string a
  end.

(** ** Buffers

    [Buffer.from(s)] encodes a string as UTF-8; an unpaired surrogate
    becomes U+FFFD. *)
Definition is_high (c : N) : bool := (0xD800 <=? c) && (c <=? 0xDBFF).
Definition is_low (c : N) : bool := (0xDC00 <=? c) && (c <=? 0xDFFF).

Definition utf8_3 (c : N) : bytes :=
  [N.lor 0xE0 (N.shiftr c 12);
   N.lor 0x80 (N.land (N.shiftr c 6) 0x3F);
   N.lor 0x80 (N.land c 0x3F)].

Definition utf8_4 (hi lo : N) : bytes :=
  let cp := 0x10000 + N.shiftl (hi - 0xD800) 10 + (lo - 0xDC00) in
  [N.lor 0xF0 (N.shiftr cp 18);
   N.lor 0x80 (N.land (N.shiftr cp 12) 0x3F);
   N.lor 0x80 (N.land (N.shiftr cp 6) 0x3F);
   N.lor 0x80 (N.land cp 0x3F)].

Fixpoint Buffer_from (s : jsstring) : bytes :=
  match s with
  | [] => []
  | c :: s' =>
      if c <? 0x80 then c :: Buffer_from s'
      else if c <? 0x800 then
        N.lor 0xC0 (N.shiftr c 6) :: N.lor 0x80 (N.land c 0x3F) :: Buffer_from s'
      else if is_high c then
        match s' with
        | d :: s'' =>
            if is_low d then utf8_4 c d ++ Buffer_from s''
            else utf8_3 0xFFFD ++ Buffer_from s'
        | [] => utf8_3 0xFFFD
        end
      else if is_low c then utf8_3 0xFFFD ++ Buffer_from s'
      else utf8_3 c ++ Buffer_from s'
  end.

(** [crypto.timingSafeEqual(a, b)]: throws a RangeError ([None]) when the
    byte lengths differ, otherwise compares every byte. *)
Fixpoint bytes_eqb (a b : bytes) : bool :=
  match a, b with
  | [], [] => true
  | x :: a', y :: b' => (x =? y) && bytes_eqb a' b'
  | _, _ => false
  end.

Definition timingSafeEqual (a b : bytes) : option bool :=
  if (length a =? length b)%nat then Some (bytes_eqb a b) else None.

(** [digest('hex')]: two lowercase hexadecimal digits per byte. *)
Definition hex_digit (n : N) : N :=
  let d := n mod 16 in if d <? 10 then 48 + d else 87 + d.

Definition hex (b : bytes) : jsstring :=
  flat_map (fun x => [hex_digit (x / 16); hex_digit x]) b.

(** ** Configuration and runtime

    The environment variables read at start-up, and the library functions
    the handler calls. *)
Record Config := {
  SECRET : jsstring;          (* process.env.WEBHOOK_SECRET || '' *)
  TOKEN : field jsstring;     (* process.env.GITHUB_TOKEN *)
  LOG_DIR : field jsstring;   (* process.env.LOG_DIR *)
}.

(** An [Error] object. *)
Record Exn := { stack : jsstring; message : jsstring }.

(** The payload of a push event, [{ref, after, deleted, repository:
    {full_name, name}}], as [JSON.parse] returns it: GitHub sends strings
    for [ref], [after], [full_name] and [name], another sender may not.
    Of [deleted] the handler reads the truthiness only, and of
    [repository] its two properties: a truthy value that is not an
    object has neither. *)
Record Repository := {
  full_name : field value;
  name : field value;
}.

Record PushEvent := {
  ref : field value;
  after : field value;
  repository : field Repository;
  deleted : field bool;
}.

(** What [JSON.parse(raw.toString('utf8'))] gives: it throws, it returns
    [null], or it returns a value whose properties are read as a push
    event (a number, a string or an array has none of them). *)
Inductive Parsed :=
  | ParseThrows (e : Exn)
  | ParsedNull
  | ParsedEvent (event : PushEvent).

Record Runtime := {
  hmac_sha256 : bytes -> bytes -> bytes;   (* createHmac('sha256', key).update(msg).digest() *)
  JSON_parse : bytes -> Parsed;
  null_property : Exn;                     (* the TypeError of reading a property of null *)
  not_a_function : jsstring -> Exn;        (* the TypeError of calling what is not a function *)
  invalid_arg : Exn;                       (* the TypeError of path.join on a non-string *)
  path_join : list jsstring -> jsstring;   (* path.join *)
  stack_of : jsstring -> jsstring;         (* the stack a new Error(message) captures *)
}.

(** ** HTTP requests, as the server sees them *)
Inductive Body :=
  | BodyEnd (chunks : list bytes)   (* 'data' events, then 'end' *)
  | BodyError (err : Exn).          (* 'error' *)

Record Request := {
  method : jsstring;
  url_pathname : option jsstring;   (* new URL(req.url, ...).pathname; None when URL throws *)
  url_error : Exn;
  x_hub_signature_256 : field jsstring;
  body : Body;
}.

(** ** Observable effects *)
Inductive ApiBody :=
  | StatusBody (state description context : jsstring)
  | CommentBody (body : jsstring).

Inductive LogArg :=
  | LStr (s : jsstring)
  | LErr (e : Exn).

Inductive Effect :=
  | Respond (status : N) (text : jsstring)     (* res.writeHead(status, ...).end(text) *)
  | ServeLog (logPath : jsstring)              (* res.writeHead(200, ...); createReadStream(logPath).pipe(res) *)
  | ConsoleLog (args : list LogArg)
  | ConsoleError (args : list LogArg)
  | SetAdd (key : jsstring)                    (* runningDeploys.add(key) *)
  | SetDelete (key : jsstring)                 (* runningDeploys.delete(key) *)
  | HttpsRequest (method path authorization : jsstring) (data : ApiBody)
  | Spawn (cmd : jsstring) (args : list jsstring) (cwd : jsstring)
  | CreateWriteStream (path : jsstring)
  | StreamWrite (path data : jsstring)
  | StreamEnd (path : jsstring)
  | UnhandledRejection (e : Exn).

(** How a git child process ends: ['close'] with its exit code ([None]
    when killed by a signal) and the captured output, or ['error']. *)
Inductive GitOutcome :=
  | GitClose (code : option Z) (output : jsstring)
  | GitError (err : Exn).

(** ** Asynchronous programs

    A handler is a tree of synchronous steps and suspension points.  The
    constructors with a continuation that takes an argument read it from
    the state ([Has], [AccessSync], [GetLines]) or from the completion of
    the awaited operation ([HttpsCall], [RunGit], [Mkdir], [Stat]). *)
Inductive Prog : Type :=
  | Ret                                                   (* the function returns *)
  | Throw (e : Exn)                                       (* it throws, or its promise rejects *)
  | Emit (e : Effect) (k : Prog)
  | Has (key : jsstring) (k : bool -> Prog)               (* runningDeploys.has(key) *)
  | Add (key : jsstring) (k : Prog)
  | Delete (key : jsstring) (k : Prog)
  | AccessSync (path : jsstring) (k : bool -> Prog)       (* true when fs.accessSync returns *)
  | Detach (p : Prog) (k : Prog)                          (* an async call that is not awaited *)
  | HttpsCall (method path authorization : jsstring) (data : ApiBody)
      (k : option Exn -> Prog)                            (* the response ends, or the request errors *)
  | RunGit (args : list jsstring) (cwd : jsstring) (k : GitOutcome -> Prog)
  | Mkdir (path : jsstring) (k : option Exn -> Prog)      (* await fs.promises.mkdir *)
  | Stat (path : jsstring) (k : bool -> Prog)             (* await fs.promises.stat; true for a file *)
  | SpawnProc (cmd : jsstring) (args : list jsstring) (cwd : jsstring)
      (onData : jsstring -> Prog) (onClose : option Z -> Prog) (onError : Exn -> Prog)
      (k : Prog)
  | PushLine (line : jsstring) (k : Prog)                 (* lines.push(line) *)
  | ShiftLine (k : Prog)                                  (* lines.shift() *)
  | GetLines (k : list jsstring -> Prog).

(** [then_ p kr kt]: run [p]; where it returns continue with [kr], where
    it throws continue with [kt].  A detached call and the handlers of a
    child process settle on their own. *)
Fixpoint then_ (p : Prog) (kr : Prog) (kt : Exn -> Prog) : Prog :=
  match p with
  | Ret => kr
  | Throw e => kt e
  | Emit e k => Emit e (then_ k kr kt)
  | Has key k => Has key (fun b => then_ (k b) kr kt)
  | Add key k => Add key (then_ k kr kt)
  | Delete key k => Delete key (then_ k kr kt)
  | AccessSync path k => AccessSync path (fun b => then_ (k b) kr kt)
  | Detach p' k => Detach p' (then_ k kr kt)
  | HttpsCall m path a d k => HttpsCall m path a d (fun r => then_ (k r) kr kt)
  | RunGit args cwd k => RunGit args cwd (fun o => then_ (k o) kr kt)
  | Mkdir path k => Mkdir path (fun r => then_ (k r) kr kt)
  | Stat path k => Stat path (fun r => then_ (k r) kr kt)
  | SpawnProc cmd args cwd d c e k => SpawnProc cmd args cwd d c e (then_ k kr kt)
  | PushLine l k => PushLine l (then_ k kr kt)
  | ShiftLine k => ShiftLine (then_ k kr kt)
  | GetLines k => GetLines (fun ls => then_ (k ls) kr kt)
  end.

Definition seq (p q : Prog) : Prog := then_ p q Throw.
Definition try_catch (p : Prog) (h : Exn -> Prog) : Prog := then_ p Ret h.
Definition finally (p q : Prog) : Prog := then_ p q (fun e => seq q (Throw e)).

Declare Scope prog_scope.
Delimit Scope prog_scope with prog.
Bind Scope prog_scope with Prog.
Notation "p ;; q" := (seq p q) (at level 100, q at level 200, right associativity) : prog_scope.

Definition forEach {A} (l : list A) (f : A -> Prog) : Prog :=
  foldr (fun x p => seq (f x) p) Ret l.

Definition emit (e : Effect) : Prog := Emit e Ret.
Definition log (s : jsstring) : Prog := emit (ConsoleLog [LStr s]).

Definition fence (text : jsstring) : jsstring :=
  u "```" ++ [nl] ++ text ++ [nl] ++ u "```".

Section Webhook.
Context (cfg : Config) (rt : Runtime).
Local Open Scope prog_scope.

(** *** helpers *)

(** [verify(sigHeader, raw)] *)
Definition verify (sigHeader : field jsstring) (raw : bytes) : bool :=
  if negb (nonempty (SECRET cfg)) then true
  else if negb (truthy sigHeader) then false
  else
    let expected :=
      u "sha256=" ++ hex (hmac_sha256 rt (Buffer_from (SECRET cfg)) raw) in
    match timingSafeEqual (Buffer_from expected) (Buffer_from (tmpl sigHeader)) with
    | Some b => b
    | None => false   (* the RangeError is caught *)
    end.

(** [callGitHub(method, path, body)]: the promise resolves at once
    without a token, otherwise when the response ends or, with a log
    line, when the request fails. *)
Definition api_settled (r : option Exn) : Prog :=
  match r with
  | Some err => emit (ConsoleError [LStr (u "GitHub API error:"); LStr (message err)])
  | None => Ret
  end.

Definition callGitHub (method path : jsstring) (data : ApiBody) : Prog :=
  if negb (truthy (TOKEN cfg)) then Ret
  else HttpsCall method path (u "Bearer " ++ tmpl (TOKEN cfg)) data api_settled.

(** [setStatus(repo, sha, state, desc)] *)
Definition setStatus (repo sha : field value) (state desc : jsstring) : Prog :=
  if negb (truthy repo) || negb (truthy sha) then Ret
  else
    callGitHub (u "POST")
      (u "/repos/" ++ tmpl repo ++ u "/statuses/" ++ tmpl sha)
      (StatusBody state (slice_to 140 desc) (u "github-deploy")).

(** [addComment(repo, sha, body)] *)
Definition addComment (repo sha : field value) (text : jsstring) : Prog :=
  if negb (truthy repo) || negb (truthy sha) then Ret
  else
    callGitHub (u "POST")
      (u "/repos/" ++ tmpl repo ++ u "/commits/" ++ tmpl sha ++ u "/comments")
      (CommentBody (slice_to 65536 text)).

(** [runGit(args, cwd)]: resolved by a close with code 0, rejected by
    any other close and by an error. *)
Definition git_settled (o : GitOutcome) : Prog :=
  match o with
  | GitClose (Some 0%Z) output => Ret
  | GitClose _ output => Throw {| stack := stack_of rt output; message := output |}
  | GitError err => Throw err
  end.

Definition runGit (args : list jsstring) (cwd : jsstring) : Prog :=
  RunGit args cwd git_settled.

(** [reportErrorAndCleanup({repo, sha, errorMsg, commentBody, deployKey})] *)
Definition reportErrorAndCleanup (repo sha : field value) (errorMsg : jsstring)
    (commentBody deployKey : field jsstring) : Prog :=
  (if truthy deployKey then Delete (tmpl deployKey) Ret else Ret) ;;
  emit (ConsoleError [LStr errorMsg]) ;;
  setStatus repo sha (u "error") errorMsg ;;
  (if truthy commentBody then addComment repo sha (tmpl commentBody) else Ret).

(** [withDeployLock(deployKey, fn)]: the promise of [fn().finally(...)]
    is returned to a caller that does not await it. *)
Definition withDeployLock (deployKey : jsstring) (fn : Prog) : Prog :=
  Has deployKey (fun held =>
    if held then
      log (u "Deploy already running for " ++ deployKey ++ u ", skipping")
    else
      Add deployKey (Detach (finally fn (Delete deployKey Ret)) Ret)).

(** *** the deploy function *)

(** [`${code}`] for an exit code, [null] when a signal ended the process. *)
Definition code_string (code : option Z) : jsstring :=
  match code with
  | Some z => Z_to_string z
  | None => u "null"
  end.

Definition is_zero (code : option Z) : bool :=
  match code with Some 0%Z => true | _ => false end.

(** [`(err.message || err)`] in a string concatenation. *)
Definition message_or_error (err : Exn) : jsstring :=
  if nonempty (message err) then message err else u "Error".

(** [`(err.stack || err.message)`] *)
Definition stack_or_message (err : Exn) : jsstring :=
  if nonempty (stack err) then stack err else message err.

(** [saveLines(data)]: the body of its [forEach], then the function. *)
Definition save_line (logStream : option jsstring) (line : jsstring) : Prog :=
  let trimmed := trim line in
  if nonempty trimmed then
    PushLine trimmed Ret ;;
    log (u "[deploy] " ++ trimmed) ;;
    GetLines (fun lines =>
      if (50 <? length lines)%nat then ShiftLine Ret else Ret) ;;   (* Keep last 50 lines *)
    match logStream with
    | Some path => emit (StreamWrite path (trimmed ++ [nl]))
    | None => Ret
    end
  else Ret.

Definition saveLines (logStream : option jsstring) (data : jsstring) : Prog :=
  forEach (split nl data) (save_line logStream).

(** [proc.on('close', async code => ...)] *)
Definition onClose (repo : field value) (sha : jsstring)
    (logStream : option jsstring) (code : option Z) : Prog :=
  match logStream with
  | Some path => emit (StreamEnd path)
  | None => Ret
  end ;;
  let success := is_zero code in
  let status := if success then u "success" else u "failure" in
  let desc := if success then u "Deploy complete" else u "Deploy failed" in
  log (check_sign ++ u " Deploy " ++ (if success then u "succeeded" else u "failed")
       ++ u " (exit code: " ++ code_string code ++ u ")") ;;
  setStatus repo (Val (Str sha)) status desc ;;
  if negb success then
    GetLines (fun lines =>
      let errorOutput := join [nl] (slice_last 20 lines) in
      addComment repo (Val (Str sha))
        (siren_sign ++ u " Deploy failed (exit code: " ++ code_string code ++ u ")"
         ++ [nl; nl] ++ fence errorOutput))
  else Ret.

(** [proc.on('error', async err => ...)] *)
Definition onError (repo : field value) (sha deployKey : jsstring) (err : Exn) : Prog :=
  reportErrorAndCleanup repo (Val (Str sha)) (u "Deploy process failed to start")
    (Val (siren_sign ++ u " Deploy process failed to start:" ++ [nl; nl]
          ++ fence (message err)))
    (Val deployKey).

(** [deployFn], lines 420-528. *)
Definition deployFn (repo : field value) (sha : jsstring) (repoName : field value)
    (deployKey cwd : jsstring) : Prog :=
  AccessSync cwd (fun exists_ =>
    if negb exists_ then
      reportErrorAndCleanup repo (Val (Str sha)) (u "Repository directory not found")
        Null (Val deployKey)
    else
      setStatus repo (Val (Str sha)) (u "pending") (u "Deploy started") ;;
      then_
        (log (arrows_sign ++ u " git fetch origin " ++ sha) ;;
         runGit [u "fetch"; u "origin"; sha] cwd ;;
         log (arrows_sign ++ u " git checkout FETCH_HEAD") ;;
         runGit [u "checkout"; u "FETCH_HEAD"] cwd)
        (log (rocket_sign ++ u " Starting deploy: just github-deploy " ++ sha
              ++ u " (in " ++ cwd ++ u ")") ;;
         let start (logStream : option jsstring) :=
           SpawnProc (u "just") [u "github-deploy"; sha] cwd
             (saveLines logStream)
             (onClose repo sha logStream)
             (onError repo sha deployKey)
             Ret in
         if truthy (LOG_DIR cfg) then
           match repoName with
           | Val (Str repoName') =>
               let logDir := path_join rt [tmpl (LOG_DIR cfg); repoName'] in
               let logPath := path_join rt [logDir; sha ++ u ".txt"] in
               Mkdir logDir (fun r =>
                 match r with
                 | Some err => Throw err
                 | None => Emit (CreateWriteStream logPath) (start (Some logPath))
                 end)
           | _ => Throw (invalid_arg rt)
           end
         else start None)
        (fun err =>
           reportErrorAndCleanup repo (Val (Str sha)) (u "Git fetch/checkout failed")
             (Val (siren_sign ++ u " Git fetch/checkout failed:" ++ [nl; nl]
                   ++ fence (message_or_error err)))
             (Val deployKey))).

(** *** the request handler *)

(** Lines 397-531: the event filter and the call of the deploy.  A ref
    that is not a string has no [split] (line 406), a commit that is not
    a string no [slice] (line 408): the call throws a TypeError. *)
Definition handle_event (event : PushEvent) : Prog :=
  if negb (truthy (ref event)) || negb (truthy (after event))
     || negb (truthy_obj (repository event)) || truthy_bool (deleted event) then
    log (u "Ignoring non-push event, incomplete payload, or deletion event")
  else
    let repo := property full_name (repository event) in
    let repoName := property name (repository event) in
    match ref event with
    | Val (Str ref_) =>
        let branch := pop (split slash ref_) in
        match after event with
        | Val (Str sha) =>
            log (package_sign ++ u " Push to " ++ tmpl repo ++ u ":" ++ branch
                 ++ u " (" ++ slice_to 7 sha ++ u ")") ;;
            if negb (bool_decide (branch = u "main"))
               && negb (bool_decide (branch = u "master")) then
              log (u "Ignoring branch: " ++ branch)
            else
              let deployKey := tmpl repo ++ u ":" ++ branch in
              let cwd := u "repos/" ++ tmpl repoName in
              withDeployLock deployKey (deployFn repo sha repoName deployKey cwd)
        | _ => Throw (not_a_function rt (u "sha.slice"))
        end
    | _ => Throw (not_a_function rt (u "ref.split"))
    end.

(** The [catch] of the ['end'] handler, lines 533-552. *)
Definition recover (raw : bytes) : field value * field value :=
  let unknown := (Val (Str (u "unknown/unknown")), Val (Str (u "unknown"))) in
  match JSON_parse rt raw with
  | ParsedEvent event =>
      let full := property full_name (repository event) in   (* event.repository?.full_name *)
      (if truthy full then full else unknown.1,
       if truthy (after event) then after event else unknown.2)
  | ParsedNull => unknown      (* event.repository throws, the inner catch swallows it *)
  | ParseThrows _ => unknown
  end.

Definition on_catch (raw : bytes) (err : Exn) : Prog :=
  emit (ConsoleError [LStr (u "Webhook error:"); LErr err]) ;;
  let (repo, sha) := recover raw in
  reportErrorAndCleanup repo sha (u "Webhook internal error")
    (Val (siren_sign ++ u " Webhook internal error:" ++ [nl; nl]
          ++ fence (stack_or_message err)))
    Null.

(** [req.on('end', async () => ...)] *)
Definition on_end (sigHeader : field jsstring) (chunks : list bytes) : Prog :=
  let raw := concat chunks in
  try_catch
    (if negb (verify sigHeader raw) then
       emit (ConsoleError [LStr (warning_sign ++ u "  signature mismatch")]) ;;
       emit (Respond 401 (u "Unauthorized"))
     else
       emit (Respond 200 (u "ok")) ;;
       match JSON_parse rt raw with
       | ParseThrows err => Throw err
       | ParsedNull => Throw (null_property rt)
       | ParsedEvent event => handle_event event
       end)
    (on_catch raw).

(** [req.on('error', err => ...)] *)
Definition on_error (err : Exn) : Prog :=
  emit (ConsoleError [LStr (u "Request error:"); LStr (message err)]) ;;
  emit (Respond 400 (u "Bad Request")).

(** Lines 373-559. *)
Definition webhook (req : Request) : Prog :=
  if negb (bool_decide (method req = u "POST")) then
    emit (Respond 405 (u "Method Not Allowed"))
  else
    match body req with
    | BodyEnd chunks => on_end (x_hub_signature_256 req) chunks
    | BodyError err => on_error err
    end.

(** The server callback: the log files first (lines 349-371), then the
    webhook. *)
Definition server (req : Request) : Prog :=
  if bool_decide (method req = u "GET") && truthy (LOG_DIR cfg) then
    match url_pathname req with
    | None => Throw (url_error req)
    | Some pathname =>
        match filter (fun part => nonempty part = true) (split slash pathname) with
        | [repoName; gitHash] =>
            let logPath := path_join rt [tmpl (LOG_DIR cfg); repoName; gitHash ++ u ".txt"] in
            Stat logPath (fun is_file =>
              if is_file then emit (ServeLog logPath)
              else emit (Respond 404 (u "Log file not found")))
        | _ => webhook req
        end
    end
  else webhook req.

End Webhook.

(** ** The event loop

    The state of the Node process: the module-level set, the directories
    [fs.accessSync] finds, the operations in flight with what runs when
    they complete, and for each request the [lines] array of its deploy
    and the handlers of its child process. *)
Inductive Pending :=
  | PApi (k : option Exn -> Prog)
  | PGit (k : GitOutcome -> Prog)
  | PMkdir (k : option Exn -> Prog)
  | PStat (k : bool -> Prog).

Record Handlers := {
  on_data : jsstring -> Prog;
  on_close : option Z -> Prog;
  on_proc_error : Exn -> Prog;
}.

Record State := {
  runningDeploys : gset jsstring;
  dirs : gset jsstring;
  trace : list (nat * Effect);             (* request number, effect; oldest first *)
  tasks : list (nat * option Pending);     (* request number, what it awaits; None once resumed *)
  lines : list (list jsstring);            (* by request number *)
  procs : list (option Handlers);          (* by request number *)
}.

Definition record (rid : nat) (e : Effect) (s : State) : State :=
  {| runningDeploys := runningDeploys s; dirs := dirs s;
     trace := trace s ++ [(rid, e)]; tasks := tasks s;
     lines := lines s; procs := procs s |}.

Definition set_running (r : gset jsstring) (s : State) : State :=
  {| runningDeploys := r; dirs := dirs s; trace := trace s; tasks := tasks s;
     lines := lines s; procs := procs s |}.

Definition suspend (rid : nat) (w : Pending) (s : State) : State :=
  {| runningDeploys := runningDeploys s; dirs := dirs s; trace := trace s;
     tasks := tasks s ++ [(rid, Some w)];
     lines := lines s; procs := procs s |}.

Definition set_lines (rid : nat) (f : list jsstring -> list jsstring) (s : State) : State :=
  {| runningDeploys := runningDeploys s; dirs := dirs s; trace := trace s;
     tasks := tasks s;
     lines := alter f rid (lines s); procs := procs s |}.

Definition set_handlers (rid : nat) (h : Handlers) (s : State) : State :=
  {| runningDeploys := runningDeploys s; dirs := dirs s; trace := trace s;
     tasks := tasks s; lines := lines s;
     procs := <[rid := Some h]> (procs s) |}.

Definition get_lines (rid : nat) (s : State) : list jsstring :=
  default [] (lines s !! rid).

(** Run a program of request [rid] up to its suspension points. *)
Fixpoint exec (rid : nat) (p : Prog) (s : State) : State :=
  match p with
  | Ret => s
  | Throw e => record rid (UnhandledRejection e) s
  | Emit e k => exec rid k (record rid e s)
  | Has key k => exec rid (k (bool_decide (key ∈ runningDeploys s))) s
  | Add key k =>
      exec rid k (record rid (SetAdd key) (set_running ({[key]} ∪ runningDeploys s) s))
  | Delete key k =>
      exec rid k (record rid (SetDelete key) (set_running (runningDeploys s ∖ {[key]}) s))
  | AccessSync path k => exec rid (k (bool_decide (path ∈ dirs s))) s
  | Detach p' k => exec rid k (exec rid p' s)
  | HttpsCall m path a d k => suspend rid (PApi k) (record rid (HttpsRequest m path a d) s)
  | RunGit args cwd k => suspend rid (PGit k) (record rid (Spawn (u "git") args cwd) s)
  | Mkdir path k => suspend rid (PMkdir k) s
  | Stat path k => suspend rid (PStat k) s
  | SpawnProc cmd args cwd d c e k =>
      exec rid k
        (set_handlers rid {| on_data := d; on_close := c; on_proc_error := e |}
           (record rid (Spawn cmd args cwd) s))
  | PushLine l k => exec rid k (set_lines rid (fun ls => ls ++ [l]) s)
  | ShiftLine k => exec rid k (set_lines rid (drop 1) s)
  | GetLines k => exec rid (k (get_lines rid s)) s
  end.

(** What the event loop dispatches. *)
Inductive Answer :=
  | AnsApi (failure : option Exn)
  | AnsGit (o : GitOutcome)
  | AnsMkdir (failure : option Exn)
  | AnsStat (is_file : bool).

Inductive Event :=
  | Incoming (req : Request)                 (* a request, with its body read or failed *)
  | Complete (tid : nat) (a : Answer)        (* the operation of task [tid] completes *)
  | ProcData (rid : nat) (data : jsstring)   (* 'data' on stdout or stderr *)
  | ProcClose (rid : nat) (code : option Z)
  | ProcError (rid : nat) (err : Exn).

Definition resume (w : Pending) (a : Answer) : option Prog :=
  match w, a with
  | PApi k, AnsApi r => Some (k r)
  | PGit k, AnsGit o => Some (k o)
  | PMkdir k, AnsMkdir r => Some (k r)
  | PStat k, AnsStat b => Some (k b)
  | _, _ => None
  end.

Definition finish (tid rid : nat) (s : State) : State :=
  {| runningDeploys := runningDeploys s; dirs := dirs s; trace := trace s;
     tasks := <[tid := (rid, None)]> (tasks s);
     lines := lines s; procs := procs s |}.

Definition open_request (s : State) : State :=
  {| runningDeploys := runningDeploys s; dirs := dirs s; trace := trace s;
     tasks := tasks s; lines := lines s ++ [[]]; procs := procs s ++ [None] |}.

Section Loop.
Context (cfg : Config) (rt : Runtime).

Definition step (s : State) (ev : Event) : State :=
  match ev with
  | Incoming req => exec (length (procs s)) (server cfg rt req) (open_request s)
  | Complete tid a =>
      match tasks s !! tid with
      | Some (rid, Some w) =>
          match resume w a with
          | Some p => exec rid p (finish tid rid s)
          | None => s
          end
      | _ => s
      end
  | ProcData rid data =>
      match procs s !! rid with
      | Some (Some h) => exec rid (on_data h data) s
      | _ => s
      end
  | ProcClose rid code =>
      match procs s !! rid with
      | Some (Some h) => exec rid (on_close h code) s
      | _ => s
      end
  | ProcError rid err =>
      match procs s !! rid with
      | Some (Some h) => exec rid (on_proc_error h err) s
      | _ => s
      end
  end.

Definition run (s : State) (evs : list Event) : State := foldl step s evs.
End Loop.

Definition boot (existing : gset jsstring) : State :=
  {| runningDeploys := ∅; dirs := existing; trace := []; tasks := [];
     lines := []; procs := [] |}.

(** ** Reading a trace *)

(** The effects of one request, in order. *)
Definition effects_of (rid : nat) (tr : list (nat * Effect)) : list Effect :=
  (filter (fun x => x.1 = rid) tr).*2.

(** The requests received so far, by request number. *)
Definition requests (evs : list Event) : list Request :=
  omap (fun ev => match ev with Incoming req => Some req | _ => None end) evs.

Definition status_of (e : Effect) : option (jsstring * jsstring * jsstring) :=
  match e with
  | HttpsRequest _ path _ (StatusBody state description _) => Some (path, state, description)
  | _ => None
  end.

Definition comment_of (e : Effect) : option (jsstring * jsstring) :=
  match e with
  | HttpsRequest _ path _ (CommentBody text) => Some (path, text)
  | _ => None
  end.

Definition spawn_of (e : Effect) : option (jsstring * list jsstring * jsstring) :=
  match e with
  | Spawn cmd args cwd => Some (cmd, args, cwd)
  | _ => None
  end.

Definition response_of (e : Effect) : option N :=
  match e with
  | Respond status _ => Some status
  | ServeLog _ => Some 200
  | _ => None
  end.

Definition statuses (tr : list Effect) := omap status_of tr.
Definition comments (tr : list Effect) := omap comment_of tr.
Definition spawns (tr : list Effect) := omap spawn_of tr.
Definition responses (tr : list Effect) := omap response_of tr.

Definition is_api (e : Effect) : bool :=
  match e with HttpsRequest _ _ _ _ => true | _ => false end.

Definition is_status (state : jsstring) (e : Effect) : bool :=
  match e with
  | HttpsRequest _ _ _ (StatusBody state' _ _) => bool_decide (state' = state)
  | _ => false
  end.

Definition is_respond (e : Effect) : bool :=
  match e with Respond _ _ | ServeLog _ => true | _ => false end.

Definition is_spawn (e : Effect) : bool :=
  match e with Spawn _ _ _ => true | _ => false end.

Definition is_lock (e : Effect) : bool :=
  match e with SetAdd _ | SetDelete _ => true | _ => false end.

(** ** Programs that keep to a class of effects

    [always ok p]: on every path of [p], through every suspension and in
    every handler it registers, each effect satisfies [ok]. *)
Section Always.
Context (ok : Effect -> bool).

Inductive always : Prog -> Prop :=
  | always_Ret : always Ret
  | always_Throw e : ok (UnhandledRejection e) = true -> always (Throw e)
  | always_Emit e k : ok e = true -> always k -> always (Emit e k)
  | always_Has key k : (forall b, always (k b)) -> always (Has key k)
  | always_Add key k : ok (SetAdd key) = true -> always k -> always (Add key k)
  | always_Delete key k : ok (SetDelete key) = true -> always k -> always (Delete key k)
  | always_AccessSync path k : (forall b, always (k b)) -> always (AccessSync path k)
  | always_Detach p k : always p -> always k -> always (Detach p k)
  | always_HttpsCall m path a d k :
      ok (HttpsRequest m path a d) = true -> (forall r, always (k r)) ->
      always (HttpsCall m path a d k)
  | always_RunGit args cwd k :
      ok (Spawn (u "git") args cwd) = true -> (forall o, always (k o)) ->
      always (RunGit args cwd k)
  | always_Mkdir path k : (forall r, always (k r)) -> always (Mkdir path k)
  | always_Stat path k : (forall r, always (k r)) -> always (Stat path k)
  | always_SpawnProc cmd args cwd d c e k :
      ok (Spawn cmd args cwd) = true ->
      (forall x, always (d x)) -> (forall x, always (c x)) -> (forall x, always (e x)) ->
      always k -> always (SpawnProc cmd args cwd d c e k)
  | always_PushLine l k : always k -> always (PushLine l k)
  | always_ShiftLine k : always k -> always (ShiftLine k)
  | always_GetLines k : (forall ls, always (k ls)) -> always (GetLines k).

Definition always_pending (w : Pending) : Prop :=
  match w with
  | PApi k => forall r, always (k r)
  | PGit k => forall o, always (k o)
  | PMkdir k => forall r, always (k r)
  | PStat k => forall r, always (k r)
  end.

Definition always_handlers (h : Handlers) : Prop :=
  (forall x, always (on_data h x)) /\ (forall x, always (on_close h x))
  /\ (forall x, always (on_proc_error h x)).

(** [later p]: what [p] leaves behind at its first suspension points, and
    the handlers it registers before them, keep to [ok]; the steps before
    are free. *)
Inductive later : Prog -> Prop :=
  | later_Ret : later Ret
  | later_Throw e : later (Throw e)
  | later_Emit e k : later k -> later (Emit e k)
  | later_Has key k : (forall b, later (k b)) -> later (Has key k)
  | later_Add key k : later k -> later (Add key k)
  | later_Delete key k : later k -> later (Delete key k)
  | later_AccessSync path k : (forall b, later (k b)) -> later (AccessSync path k)
  | later_Detach p k : later p -> later k -> later (Detach p k)
  | later_HttpsCall m path a d k : (forall r, always (k r)) -> later (HttpsCall m path a d k)
  | later_RunGit args cwd k : (forall o, always (k o)) -> later (RunGit args cwd k)
  | later_Mkdir path k : (forall r, always (k r)) -> later (Mkdir path k)
  | later_Stat path k : (forall r, always (k r)) -> later (Stat path k)
  | later_SpawnProc cmd args cwd d c e k :
      (forall x, always (d x)) -> (forall x, always (c x)) -> (forall x, always (e x)) ->
      later k -> later (SpawnProc cmd args cwd d c e k)
  | later_PushLine l k : later k -> later (PushLine l k)
  | later_ShiftLine k : later k -> later (ShiftLine k)
  | later_GetLines k : (forall ls, later (k ls)) -> later (GetLines k).

(** Everything request [rid] has in flight keeps to [ok]. *)
Definition stored_ok (rid : nat) (s : State) : Prop :=
  (forall tid w, tasks s !! tid = Some (rid, Some w) -> always_pending w)
  /\ (forall h, procs s !! rid = Some (Some h) -> always_handlers h).
End Always.

(** Request numbers in the state are those handed out so far. *)
Definition wf (s : State) : Prop :=
  (forall tid rid w, tasks s !! tid = Some (rid, w) -> (rid < length (procs s))%nat)
  /\ (forall rid e, (rid, e) ∈ trace s -> (rid < length (procs s))%nat)
  /\ length (lines s) = length (procs s).

(** Programs that run to their end without suspending or throwing,
    whatever the calls they do not await do. *)
Inductive sync : Prog -> Prop :=
  | sync_Ret : sync Ret
  | sync_Emit e k : sync k -> sync (Emit e k)
  | sync_Has key k : (forall b, sync (k b)) -> sync (Has key k)
  | sync_Add key k : sync k -> sync (Add key k)
  | sync_Delete key k : sync k -> sync (Delete key k)
  | sync_AccessSync path k : (forall b, sync (k b)) -> sync (AccessSync path k)
  | sync_Detach p k : sync k -> sync (Detach p k)
  | sync_PushLine l k : sync k -> sync (PushLine l k)
  | sync_ShiftLine k : sync k -> sync (ShiftLine k)
  | sync_GetLines k : (forall ls, sync (k ls)) -> sync (GetLines k).

(** One append to the rolling buffer: [lines.push(line)], then
    [lines.shift()] past 50 entries. *)
Definition roll (buf : list jsstring) (line : jsstring) : list jsstring :=
  let b := buf ++ [line] in if (50 <? length b)%nat then drop 1 b else b.

(** The lines of a chunk sequence that [saveLines] keeps. *)
Definition kept_lines (raws : list jsstring) : list jsstring :=
  filter (fun l => nonempty l = true) (trim <$> raws).

(** The header [verify] compares with: ["sha256=" + hmac.digest('hex')]. *)
Definition expected_signature (cfg : Config) (rt : Runtime) (raw : bytes) : jsstring :=
  u "sha256=" ++ hex (hmac_sha256 rt (Buffer_from (SECRET cfg)) raw).

(** ** Classes of effects *)
Definition no_response (e : Effect) : bool := negb (is_respond e).
Definition no_pending (e : Effect) : bool := negb (is_status (u "pending") e).
Definition nothing (e : Effect) : bool := false.

(** [pending_first p]: on every path of [p], a [pending] status is sent
    before any other status of the same request, and at most once. *)
Inductive pending_first : Prog -> Prop :=
  | pf_always p : always no_pending p -> pending_first p
  | pf_Emit e k : status_of e = None -> pending_first k -> pending_first (Emit e k)
  | pf_Has key k : (forall b, pending_first (k b)) -> pending_first (Has key k)
  | pf_Add key k : pending_first k -> pending_first (Add key k)
  | pf_Delete key k : pending_first k -> pending_first (Delete key k)
  | pf_AccessSync path k : (forall b, pending_first (k b)) -> pending_first (AccessSync path k)
  | pf_Detach p k : pending_first p -> always no_pending k -> pending_first (Detach p k)
  | pf_HttpsCall m path a d k :
      (forall r, always no_pending (k r)) -> pending_first (HttpsCall m path a d k).

(** The traces such programs leave: no status, then possibly [pending],
    then no further [pending]. *)
Definition pending_first_trace (tr : list Effect) : Prop :=
  exists pre post, tr = pre ++ post /\ statuses pre = []
                   /\ Forall (fun e => no_pending e = true) (drop 1 post).

(** ** Names for what the handler computes from an event *)
Definition repo_of (event : PushEvent) : field value := property full_name (repository event).
Definition repoName_of (event : PushEvent) : field value := property name (repository event).
Definition sha_of (event : PushEvent) : jsstring := tmpl (after event).
Definition branch_of (event : PushEvent) : jsstring := pop (split slash (tmpl (ref event))).
Definition deployKey_of (event : PushEvent) : jsstring :=
  tmpl (repo_of event) ++ u ":" ++ branch_of event.
Definition cwd_of (event : PushEvent) : jsstring := u "repos/" ++ tmpl (repoName_of event).

(** The filter: an event is rejected when it lacks a ref, a commit or
    the repository, or is a deletion; a kept event whose ref and commit
    are strings is deployed when its branch is [main] or [master]. *)
Definition rejected (event : PushEvent) : bool :=
  negb (truthy (ref event)) || negb (truthy (after event))
  || negb (truthy_obj (repository event)) || truthy_bool (deleted event).

Definition is_string (f : field value) : bool :=
  match f with Val (Str _) => true | _ => false end.

Definition typed (event : PushEvent) : bool :=
  is_string (ref event) && is_string (after event).

Definition deployable (event : PushEvent) : bool :=
  negb (rejected event) && typed event
  && (bool_decide (branch_of event = u "main") || bool_decide (branch_of event = u "master")).


(** The request is a POST whose body arrives whole, passes [verify] and
    parses to [event]. *)
Definition delivers (cfg : Config) (rt : Runtime) (req : Request) (event : PushEvent) : Prop :=
  method req = u "POST"
  /\ exists chunks, body req = BodyEnd chunks
       /\ verify cfg rt (x_hub_signature_256 req) (concat chunks) = true
       /\ JSON_parse rt (concat chunks) = ParsedEvent event.

(** Status and comment calls are made when a token is configured and the
    payload names the repository. *)
Definition reporting (cfg : Config) (event : PushEvent) : bool :=
  truthy (TOKEN cfg) && truthy (repo_of event).

Definition push_message (event : PushEvent) : jsstring :=
  package_sign ++ u " Push to " ++ tmpl (repo_of event) ++ u ":" ++ branch_of event
  ++ u " (" ++ slice_to 7 (sha_of event) ++ u ")".

Definition status_path (event : PushEvent) : jsstring :=
  u "/repos/" ++ tmpl (repo_of event) ++ u "/statuses/" ++ sha_of event.

Definition comment_path (event : PushEvent) : jsstring :=
  u "/repos/" ++ tmpl (repo_of event) ++ u "/commits/" ++ sha_of event ++ u "/comments".

Definition status_call (cfg : Config) (event : PushEvent) (state desc : jsstring) : Effect :=
  HttpsRequest (u "POST") (status_path event) (u "Bearer " ++ tmpl (TOKEN cfg))
    (StatusBody state (slice_to 140 desc) (u "github-deploy")).

Definition comment_call (cfg : Config) (event : PushEvent) (text : jsstring) : Effect :=
  HttpsRequest (u "POST") (comment_path event) (u "Bearer " ++ tmpl (TOKEN cfg))
    (CommentBody (slice_to 65536 text)).

(** What a request does to the lock set: [true] for an [add]. *)
Definition lock_of (e : Effect) : option (bool * jsstring) :=
  match e with
  | SetAdd key => Some (true, key)
  | SetDelete key => Some (false, key)
  | _ => None
  end.

Definition locks (tr : list Effect) := omap lock_of tr.

(** Neither a call to GitHub nor a child process. *)
Definition quiet (e : Effect) : bool := negb (is_api e || is_spawn e).

(** The lock set is not touched. *)
Definition lock_never_held (tr : list Effect) : Prop :=
  Forall (fun e => is_lock e = false) tr.

(** The requests the log files answer (lines 353-370): a GET, with
    LOG_DIR set, whose URL parses to a path of two parts. *)
Definition is_log_request (cfg : Config) (req : Request) : bool :=
  bool_decide (method req = u "GET") && truthy (LOG_DIR cfg)
  && match url_pathname req with
     | Some pathname =>
         bool_decide (length (filter (fun part => nonempty part = true) (split slash pathname)) = 2%nat)
     | None => false
     end.

(** The requests on which [new URL] throws (line 350): a GET, with
    LOG_DIR set, whose URL does not parse. *)
Definition url_throws (cfg : Config) (req : Request) : bool :=
  bool_decide (method req = u "GET") && truthy (LOG_DIR cfg)
  && match url_pathname req with
     | Some _ => false
     | None => true
     end.

(** The status the webhook answers with. *)
Definition webhook_status (cfg : Config) (rt : Runtime) (req : Request) : N :=
  if negb (bool_decide (method req = u "POST")) then 405
  else match body req with
       | BodyError _ => 400
       | BodyEnd chunks =>
           if verify cfg rt (x_hub_signature_256 req) (concat chunks) then 200 else 401
       end.

(** What [callGitHub] logs when its request fails. *)
Definition api_error_log (r : option Exn) : list Effect :=
  match r with
  | Some err => [ConsoleError [LStr (u "GitHub API error:"); LStr (message err)]]
  | None => []
  end.

(** A git step fails unless the process closes with exit code 0. *)
Definition git_failed (o : GitOutcome) : bool :=
  match o with
  | GitClose (Some 0%Z) _ => false
  | _ => true
  end.

(** The error [runGit] rejects with. *)
Definition git_error (rt : Runtime) (o : GitOutcome) : Exn :=
  match o with
  | GitClose _ output => {| stack := stack_of rt output; message := output |}
  | GitError err => err
  end.

(** Several effects of one request in a row. *)
Definition records (rid : nat) (l : list Effect) (s : State) : State :=
  foldl (fun s e => record rid e s) s l.

(** The task created last has been resumed. *)
Definition retire (rid : nat) (s : State) : State :=
  {| runningDeploys := runningDeploys s; dirs := dirs s; trace := trace s;
     tasks := tasks s ++ [(rid, None)];
     lines := lines s; procs := procs s |}.

(** ** A deploy whose every step succeeds *)

(** The events that take a deploy from its request to the spawn of
    [just]: the [pending] call completes (if it was made), the fetch and
    the checkout close with code 0, the log directory is created (if one
    is configured).  [t0] is the number of the first task. *)
Definition launch_events (cfg : Config) (event : PushEvent) (t0 : nat)
    (r0 : option Exn) (out1 out2 : jsstring) : list Event :=
  let t1 := if reporting cfg event then S t0 else t0 in
  (if reporting cfg event then [Complete t0 (AnsApi r0)] else [])
  ++ [Complete t1 (AnsGit (GitClose (Some 0%Z) out1));
      Complete (S t1) (AnsGit (GitClose (Some 0%Z) out2))]
  ++ (if truthy (LOG_DIR cfg) then [Complete (S (S t1)) (AnsMkdir None)] else []).

(** The log file of a deploy. *)
Definition log_stream (cfg : Config) (rt : Runtime) (event : PushEvent) : option jsstring :=
  if truthy (LOG_DIR cfg) then
    Some (path_join rt [path_join rt [tmpl (LOG_DIR cfg); tmpl (repoName_of event)];
                        sha_of event ++ u ".txt"])
  else None.

Definition deploy_handlers (cfg : Config) (event : PushEvent) (logStream : option jsstring)
    : Handlers :=
  {| on_data := saveLines logStream;
     on_close := onClose cfg (repo_of event) (sha_of event) logStream;
     on_proc_error := onError cfg (repo_of event) (sha_of event) (deployKey_of event) |}.

(** The deploy process of request [rid] has been spawned. *)
Definition launched (cfg : Config) (event : PushEvent) (logStream : option jsstring)
    (rid : nat) (s : State) : Prop :=
  procs s !! rid = Some (Some (deploy_handlers cfg event logStream)).

Definition git_fetch (event : PushEvent) : jsstring * list jsstring * jsstring :=
  (u "git", [u "fetch"; u "origin"; sha_of event], cwd_of event).
Definition git_checkout (event : PushEvent) : jsstring * list jsstring * jsstring :=
  (u "git", [u "checkout"; u "FETCH_HEAD"], cwd_of event).
Definition just_deploy (event : PushEvent) : jsstring * list jsstring * jsstring :=
  (u "just", [u "github-deploy"; sha_of event], cwd_of event).

(** ** Sample data

    A configuration, payloads and requests to run the handler on, and a
    stand-in for the library: a keyed checksum where Node computes
    HMAC-SHA256, and a parser that knows the sample payloads by their
    bodies. *)
Definition push_main : PushEvent :=
  {| ref := Val (Str (u "refs/heads/main"));
     after := Val (Str (u "0a1b2c3d4e5f60718293"));
     repository := Val {| full_name := Val (Str (u "acme/site"));
                           name := Val (Str (u "site")) |};
     deleted := Val false |}.

Definition push_fork : PushEvent :=
  {| ref := Val (Str (u "refs/heads/master"));
     after := Val (Str (u "99887766554433221100"));
     repository := Val {| full_name := Val (Str (u "fork/site"));
                           name := Val (Str (u "site")) |};
     deleted := Undefined |}.

Definition push_feature : PushEvent :=
  {| ref := Val (Str (u "refs/heads/feature/login"));
     after := Val (Str (u "5566778899aabbccddee"));
     repository := Val {| full_name := Val (Str (u "acme/site"));
                           name := Val (Str (u "site")) |};
     deleted := Val false |}.

Definition push_deleted : PushEvent :=
  {| ref := Val (Str (u "refs/heads/main"));
     after := Val (Str (u "00000000000000000000"));
     repository := Val {| full_name := Val (Str (u "acme/site"));
                           name := Val (Str (u "site")) |};
     deleted := Val true |}.

(** A payload whose commit is the number 12345. *)
Definition push_numeric : PushEvent :=
  {| ref := Val (Str (u "refs/heads/main"));
     after := Val (Other true (u "12345"));
     repository := Val {| full_name := Val (Str (u "acme/site"));
                           name := Val (Str (u "site")) |};
     deleted := Val false |}.

(** The error of spawning a command that is not installed. *)
Definition spawn_enoent : Exn :=
  {| stack := u "Error: spawn just ENOENT"; message := u "spawn just ENOENT" |}.

Definition syntax_error : Exn :=
  {| stack := u "SyntaxError: Unexpected token o in JSON at position 1";
     message := u "Unexpected token o in JSON at position 1" |}.

Definition sample_parse (raw : bytes) : Parsed :=
  if bool_decide (raw = u "push acme/site main") then ParsedEvent push_main
  else if bool_decide (raw = u "push fork/site master") then ParsedEvent push_fork
  else if bool_decide (raw = u "push acme/site feature/login") then ParsedEvent push_feature
  else if bool_decide (raw = u "delete acme/site main") then ParsedEvent push_deleted
  else if bool_decide (raw = u "push acme/site 12345") then ParsedEvent push_numeric
  else if bool_decide (raw = u "null") then ParsedNull
  else ParseThrows syntax_error.

Definition sample_hmac (key msg : bytes) : bytes :=
  [N.of_nat (length key) mod 256; N.of_nat (length msg) mod 256;
   foldr N.lxor 0 (key ++ msg) mod 256].

Definition sample_runtime : Runtime :=
  {| hmac_sha256 := sample_hmac;
     JSON_parse := sample_parse;
     null_property :=
       {| stack := u "TypeError: Cannot read properties of null (reading 'ref')";
          message := u "Cannot read properties of null (reading 'ref')" |};
     not_a_function := fun f =>
       {| stack := u "TypeError: " ++ f ++ u " is not a function";
          message := f ++ u " is not a function" |};
     invalid_arg :=
       {| stack := u "TypeError [ERR_INVALID_ARG_TYPE]";
          message := u "The path argument must be of type string" |};
     path_join := join [slash];
     stack_of := fun m => u "Error: " ++ m |}.

(** No secret: every request verifies.  A token: statuses are reported. *)
Definition sample_config : Config :=
  {| SECRET := []; TOKEN := Val (u "ghp_sample"); LOG_DIR := Undefined |}.

Definition signed_config : Config :=
  {| SECRET := u "s3cret"; TOKEN := Undefined; LOG_DIR := Undefined |}.

Definition post (signature : field jsstring) (raw : bytes) : Request :=
  {| method := u "POST"; url_pathname := Some (u "/"); url_error := syntax_error;
     x_hub_signature_256 := signature; body := BodyEnd [raw] |}.

Definition aborted_post : Request :=
  {| method := u "POST"; url_pathname := Some (u "/"); url_error := syntax_error;
     x_hub_signature_256 := Undefined;
     body := BodyError {| stack := u "Error: aborted"; message := u "aborted" |} |}.

Definition site_checkout : gset jsstring := {[ u "repos/site" ]}.

Definition fatal : GitOutcome := GitClose (Some 128%Z) (u "fatal: not a git repository").

Definition sixty_lines : list jsstring :=
  (fun n => u "line " ++ N_to_string (N.of_nat n)) <$> List.seq 0 60.

Definition main_request : Request := post Undefined (u "push acme/site main").
Definition fork_request : Request := post Undefined (u "push fork/site master").

(** The sample push, deployed up to the spawn of [just]. *)
Definition launched_state : State :=
  run sample_config sample_runtime (boot site_checkout)
    (Incoming main_request :: launch_events sample_config push_main 0 None [] []).

(** ** Shapes of calls and processes *)

(** [s.startsWith(p)]. *)
Definition starts_with (p s : jsstring) : bool := bytes_eqb p (take (length p) s).

(** The commit states the handler reports. *)
Definition is_state (state : jsstring) : bool :=
  bool_decide (state = u "pending") || bool_decide (state = u "success")
  || bool_decide (state = u "failure") || bool_decide (state = u "error").

(** A call to GitHub is a POST under [/repos/] with the token as bearer;
    a status has one of the four states, a description of at most 140 code
    units and the context [github-deploy]; a comment has at most 65536
    code units. *)
Definition api_call_shape (cfg : Config) (e : Effect) : bool :=
  match e with
  | HttpsRequest m path a d =>
      bool_decide (m = u "POST") && starts_with (u "/repos/") path
      && bool_decide (a = u "Bearer " ++ tmpl (TOKEN cfg))
      && match d with
         | StatusBody state desc ctx =>
             is_state state && (N.of_nat (length desc) <=? 140)
             && bool_decide (ctx = u "github-deploy")
         | CommentBody text => N.of_nat (length text) <=? 65536
         end
  | _ => true
  end.

(** A child process is [git fetch origin <sha>], [git checkout FETCH_HEAD]
    or [just github-deploy <sha>], run in a directory under [repos/]. *)
Definition spawn_shape (e : Effect) : bool :=
  match e with
  | Spawn cmd args cwd =>
      starts_with (u "repos/") cwd
      && match args with
         | [a; b; _] =>
             bool_decide (cmd = u "git") && bool_decide (a = u "fetch")
             && bool_decide (b = u "origin")
         | [a; b] =>
             bool_decide (cmd = u "git") && bool_decide (a = u "checkout")
                && bool_decide (b = u "FETCH_HEAD")
             || bool_decide (cmd = u "just") && bool_decide (a = u "github-deploy")
         | _ => false
         end
  | _ => true
  end.

Definition no_api (e : Effect) : bool := negb (is_api e).


(** The promises a request leaves rejected with nobody to catch them. *)
Definition rejection_of (e : Effect) : option Exn :=
  match e with
  | UnhandledRejection err => Some err
  | _ => None
  end.

Definition rejections (tr : list Effect) := omap rejection_of tr.

(** Request [rid] has done nothing yet and waits for the [stat] of task
    [t], which [k] continues, and for nothing else. *)
Definition waiting_for_stat (rid t : nat) (k : bool -> Prog) (s : State) : Prop :=
  wf s
  /\ tasks s !! t = Some (rid, Some (PStat k))
  /\ (forall tid w, tasks s !! tid = Some (rid, Some w) -> tid = t)
  /\ procs s !! rid = Some None
  /\ effects_of rid (trace s) = [].

(** ** The output of the deploy process *)

(** What [saveLines] does with a line it keeps, besides appending it to
    [lines]: the console, then the log file. *)
Definition line_effects (logStream : option jsstring) (line : jsstring) : list Effect :=
  ConsoleLog [LStr (u "[deploy] " ++ line)]
  :: match logStream with
     | Some path => [StreamWrite path (line ++ [nl])]
     | None => []
     end.

(** Programs that leave the [lines] arrays alone and register [saveLines]
    as the only function that appends to them. *)
Inductive tidy : Prog -> Prop :=
  | tidy_Ret : tidy Ret
  | tidy_Throw e : tidy (Throw e)
  | tidy_Emit e k : tidy k -> tidy (Emit e k)
  | tidy_Has key k : (forall b, tidy (k b)) -> tidy (Has key k)
  | tidy_Add key k : tidy k -> tidy (Add key k)
  | tidy_Delete key k : tidy k -> tidy (Delete key k)
  | tidy_AccessSync path k : (forall b, tidy (k b)) -> tidy (AccessSync path k)
  | tidy_Detach p k : tidy p -> tidy k -> tidy (Detach p k)
  | tidy_HttpsCall m path a d k : (forall r, tidy (k r)) -> tidy (HttpsCall m path a d k)
  | tidy_RunGit args cwd k : (forall o, tidy (k o)) -> tidy (RunGit args cwd k)
  | tidy_Mkdir path k : (forall r, tidy (k r)) -> tidy (Mkdir path k)
  | tidy_Stat path k : (forall r, tidy (k r)) -> tidy (Stat path k)
  | tidy_SpawnProc cmd args cwd logStream c e k :
      (forall x, tidy (c x)) -> (forall x, tidy (e x)) -> tidy k ->
      tidy (SpawnProc cmd args cwd (saveLines logStream) c e k)
  | tidy_GetLines k : (forall ls, tidy (k ls)) -> tidy (GetLines k).

Definition tidy_pending (w : Pending) : Prop :=
  match w with
  | PApi k => forall r, tidy (k r)
  | PGit k => forall o, tidy (k o)
  | PMkdir k => forall r, tidy (k r)
  | PStat k => forall r, tidy (k r)
  end.

Definition tidy_handlers (h : Handlers) : Prop :=
  (exists logStream, on_data h = saveLines logStream)
  /\ (forall x, tidy (on_close h x)) /\ (forall x, tidy (on_proc_error h x)).

(** Every [lines] array holds at most 50 lines, and what is in flight
    keeps it so. *)
Definition buffers_bounded (s : State) : Prop :=
  Forall (fun buf : list jsstring => (length buf <= 50)%nat) (lines s).

Definition tidy_state (s : State) : Prop :=
  (forall tid rid w, tasks s !! tid = Some (rid, Some w) -> tidy_pending w)
  /\ (forall rid h, procs s !! rid = Some (Some h) -> tidy_handlers h).

(** ** The earlier file, [webhook.js]

    The first 226 lines of the source are the earlier version of the
    handler.  [verify], [callGitHub], [setStatus] and [addComment] are the
    same functions; the deploy has no git step and no log file, and the
    key is deleted by the [close] and [error] handlers of the process. *)
Module WebhookJs.
Section Handler.
Context (cfg : Config) (rt : Runtime).
Local Open Scope prog_scope.

(** [saveLines], lines 152-161: there is no log stream. *)
Definition saveLines (data : jsstring) : Prog :=
  forEach (split nl data) (save_line None).

(** [proc.on('close', async code => ...)], lines 166-184. *)
Definition onClose (repo : field value) (sha deployKey : jsstring) (code : option Z) : Prog :=
  Delete deployKey Ret ;;   (* cleanup *)
  let success := is_zero code in
  let status := if success then u "success" else u "failure" in
  let desc := if success then u "Deploy complete" else u "Deploy failed" in
  log (check_sign ++ u " Deploy " ++ (if success then u "succeeded" else u "failed")
       ++ u " (exit code: " ++ code_string code ++ u ")") ;;
  setStatus cfg repo (Val (Str sha)) status desc ;;
  if negb success then
    GetLines (fun lines =>
      let errorOutput := join [nl] (slice_last 20 lines) in
      addComment cfg repo (Val (Str sha))
        (siren_sign ++ u " Deploy failed (exit code: " ++ code_string code ++ u ")"
         ++ [nl; nl] ++ fence errorOutput))
  else Ret.

(** [proc.on('error', async err => ...)], lines 186-195. *)
Definition onError (repo : field value) (sha deployKey : jsstring) (err : Exn) : Prog :=
  Delete deployKey Ret ;;   (* cleanup *)
  emit (ConsoleError [LStr (u "Deploy process error:"); LStr (message err)]) ;;
  setStatus cfg repo (Val (Str sha)) (u "error") (u "Deploy process failed to start") ;;
  addComment cfg repo (Val (Str sha))
    (siren_sign ++ u " Deploy process failed to start:" ++ [nl; nl] ++ fence (message err)).

(** Lines 105-195: the filter, the lock, the directory check and the
    spawn of [just]. *)
Definition handle_event (event : PushEvent) : Prog :=
  if negb (truthy (ref event)) || negb (truthy (after event))
     || negb (truthy_obj (repository event)) || truthy_bool (deleted event) then
    log (u "Ignoring non-push event, incomplete payload, or deletion event")
  else
    let repo := property full_name (repository event) in
    let repoName := property name (repository event) in
    match ref event with
    | Val (Str ref_) =>
        let branch := pop (split slash ref_) in
        match after event with
        | Val (Str sha) =>
            log (package_sign ++ u " Push to " ++ tmpl repo ++ u ":" ++ branch
                 ++ u " (" ++ slice_to 7 sha ++ u ")") ;;
            if negb (bool_decide (branch = u "main"))
               && negb (bool_decide (branch = u "master")) then
              log (u "Ignoring branch: " ++ branch)
            else
              let deployKey := tmpl repo ++ u ":" ++ branch in
              Has deployKey (fun held =>
                if held then
                  log (u "Deploy already running for " ++ deployKey ++ u ", skipping")
                else
                  Add deployKey
                    (let cwd := u "repos/" ++ tmpl repoName in
                     AccessSync cwd (fun exists_ =>
                       if negb exists_ then
                         emit (ConsoleError
                                 [LStr (u "Repository directory not found: " ++ cwd)]) ;;
                         Delete deployKey Ret ;;
                         setStatus cfg repo (Val (Str sha)) (u "error")
                           (u "Repository directory not found")
                       else
                         setStatus cfg repo (Val (Str sha)) (u "pending")
                           (u "Deploy started") ;;
                         log (rocket_sign ++ u " Starting deploy: just github-deploy " ++ sha
                              ++ u " (in " ++ cwd ++ u ")") ;;
                         SpawnProc (u "just") [u "github-deploy"; sha] cwd
                           saveLines
                           (onClose repo sha deployKey)
                           (onError repo sha deployKey)
                           Ret)))
        | _ => Throw (not_a_function rt (u "sha.slice"))      (* line 116 *)
        end
    | _ => Throw (not_a_function rt (u "ref.split"))          (* line 114 *)
    end.

(** The [catch] of the ['end'] handler, lines 197-214. *)
Definition on_catch (raw : bytes) (err : Exn) : Prog :=
  emit (ConsoleError [LStr (u "Webhook error:"); LErr err]) ;;
  let (repo, sha) := recover rt raw in
  setStatus cfg repo sha (u "error") (u "Webhook internal error") ;;
  addComment cfg repo sha
    (siren_sign ++ u " Webhook internal error:" ++ [nl; nl] ++ fence (stack_or_message err)).

(** [req.on('end', async () => ...)], lines 86-215. *)
Definition on_end (sigHeader : field jsstring) (chunks : list bytes) : Prog :=
  let raw := concat chunks in
  try_catch
    (if negb (verify cfg rt sigHeader raw) then
       emit (ConsoleError [LStr (warning_sign ++ u "  signature mismatch")]) ;;
       emit (Respond 401 (u "Unauthorized"))
     else
       emit (Respond 200 (u "ok")) ;;
       match JSON_parse rt raw with
       | ParseThrows err => Throw err
       | ParsedNull => Throw (null_property rt)
       | ParsedEvent event => handle_event event
       end)
    (on_catch raw).

(** The server callback, lines 79-222. *)
Definition server (req : Request) : Prog :=
  if negb (bool_decide (method req = u "POST")) then
    emit (Respond 405 (u "Method Not Allowed"))
  else
    match body req with
    | BodyEnd chunks => on_end (x_hub_signature_256 req) chunks
    | BodyError err => on_error err
    end.

(** The event loop with this callback: operations in flight and
    processes are resumed as in [step]. *)
Definition step (s : State) (ev : Event) : State :=
  match ev with
  | Incoming req => exec (length (procs s)) (server req) (open_request s)
  | _ => step cfg rt s ev
  end.

Definition run (s : State) (evs : list Event) : State := foldl step s evs.

End Handler.
End WebhookJs.

(** ** More sample data *)

(** A configuration that keeps log files. *)
Definition logging_config : Config :=
  {| SECRET := []; TOKEN := Val (u "ghp_sample"); LOG_DIR := Val (u "logs") |}.

Definition get (pathname : option jsstring) : Request :=
  {| method := u "GET"; url_pathname := pathname; url_error := syntax_error;
     x_hub_signature_256 := Undefined; body := BodyEnd [] |}.

Definition log_request : Request := get (Some (u "/site/0a1b2c3d4e5f60718293")).

Definition put_request : Request :=
  {| method := u "PUT"; url_pathname := Some (u "/"); url_error := syntax_error;
     x_hub_signature_256 := Undefined; body := BodyEnd [] |}.

(** A tag named [main]. *)
Definition push_tag : PushEvent :=
  {| ref := Val (Str (u "refs/tags/main"));
     after := Val (Str (u "0a1b2c3d4e5f60718293"));
     repository := Val {| full_name := Val (Str (u "acme/site"));
                           name := Val (Str (u "site")) |};
     deleted := Val false |}.

(** The library, with a parser that knows the tag payload as well. *)
Definition tag_runtime : Runtime :=
  {| hmac_sha256 := sample_hmac;
     JSON_parse := fun raw =>
       if bool_decide (raw = u "push acme/site tag main") then ParsedEvent push_tag
       else sample_parse raw;
     null_property := null_property sample_runtime;
     not_a_function := not_a_function sample_runtime;
     invalid_arg := invalid_arg sample_runtime;
     path_join := join [slash];
     stack_of := fun m => u "Error: " ++ m |}.

(** The sample push deployed, with log files, up to the spawn of [just]. *)
Definition logged_deploy : State :=
  run logging_config sample_runtime (boot site_checkout)
    (Incoming main_request :: launch_events logging_config push_main 0 None [] []).

Definition disk_full : Exn :=
  {| stack := u "Error: ENOSPC: no space left on device, mkdir";
     message := u "ENOSPC: no space left on device, mkdir" |}.

Definition connection_reset : Exn :=
  {| stack := u "Error: read ECONNRESET"; message := u "read ECONNRESET" |}.

(** Two chunks of output, the second with a blank line and padding. *)
Definition build_output : jsstring :=
  u "building" ++ [nl] ++ u "  done  " ++ [nl] ++ [nl].

(** A push whose payload names the repository but not its full name. *)
Definition push_unnamed : PushEvent :=
  {| ref := Val (Str (u "refs/heads/main"));
     after := Val (Str (u "0a1b2c3d4e5f60718293"));
     repository := Val {| full_name := Undefined; name := Val (Str (u "site")) |};
     deleted := Val false |}.

Definition unnamed_runtime : Runtime :=
  {| hmac_sha256 := sample_hmac;
     JSON_parse := fun raw =>
       if bool_decide (raw = u "push site main") then ParsedEvent push_unnamed
       else ParseThrows syntax_error;
     null_property := null_property sample_runtime;
     not_a_function := not_a_function sample_runtime;
     invalid_arg := invalid_arg sample_runtime;
     path_join := join [slash];
     stack_of := fun m => u "Error: " ++ m |}.

(** * Properties *)

(** ** Strings and buffers *)
Example split_ref : split slash (u "refs/heads/main") = [u "refs"; u "heads"; u "main"].
Proof. reflexivity. Qed.
Example trim_ex : trim (u "  build failed  ") = u "build failed".
Proof. reflexivity. Qed.
Example Z_str : Z_to_string (-2) = u "-2" /\ Z_to_string 0 = u "0" /\ Z_to_string 137 = u "137".
Proof. repeat split; reflexivity. Qed.
Example buf : Buffer_from (siren_sign ++ u "a") = [0xF0; 0x9F; 0x9A; 0xA8; 97].
Proof. reflexivity. Qed.
Example hex_ex : hex [0; 255; 0x1a] = u "00ff1a".
Proof. reflexivity. Qed.

(** ** Signature verification *)
Lemma bytes_eqb_eq a b : bytes_eqb a b = true <-> a = b.
Proof.
  revert b; induction a as [|x a IH]; intros [|y b]; simpl; try (split; congruence).
  rewrite andb_true_iff, N.eqb_eq, IH. split; [intros []|intros [=]]; subst; auto.
Qed.

Lemma timingSafeEqual_true a b : timingSafeEqual a b = Some true <-> a = b.
Proof.
  unfold timingSafeEqual. split.
  - case Nat.eqb_spec; [|discriminate]. intros _ [= H]. by apply bytes_eqb_eq.
  - intros ->. rewrite Nat.eqb_refl. f_equal. by apply bytes_eqb_eq.
Qed.

Lemma ascii_bit7 y : y < 0x80 -> N.testbit y 7 = false.
Proof.
  intros H. destruct (N.eq_dec y 0) as [->|Hy]; [reflexivity|].
  apply N.bits_above_log2. apply N.log2_lt_pow2; [lia|]. exact H.
Qed.

Lemma lead_not_ascii a b y : N.testbit a 7 = true -> N.lor a b = y -> y < 0x80 -> False.
Proof.
  intros Ha <- Hy. apply ascii_bit7 in Hy. rewrite N.lor_spec, Ha in Hy. discriminate.
Qed.

Lemma Buffer_from_ascii s e :
  Forall (fun c => c < 0x80) e -> Buffer_from s = e -> s = e.
Proof.
  revert e. induction s as [|c s IH]; intros e He; simpl.
  - congruence.
  - destruct (N.ltb_spec c 0x80) as [Hc|Hc].
    + intros <-. inversion He; subst. f_equal. by apply IH.
    + assert (Hbad : forall a b rest, N.testbit a 7 = true -> N.lor a b :: rest = e -> False).
      { intros a b rest Ha <-. inversion He; subst. eapply lead_not_ascii; eauto. }
      destruct (c <? 0x800); [intros H; exfalso; eapply Hbad, H; reflexivity|].
      destruct (is_high c).
      * destruct s as [|d s']; [intros H; exfalso; eapply (Hbad 0xE0), H; reflexivity|].
        destruct (is_low d); intros H; exfalso; [eapply (Hbad 0xF0), H|eapply (Hbad 0xE0), H]; reflexivity.
      * destruct (is_low c); intros H; exfalso; eapply (Hbad 0xE0), H; reflexivity.
Qed.

Lemma hex_digit_ascii n : hex_digit n < 0x80.
Proof.
  unfold hex_digit. pose proof (N.mod_upper_bound n 16). 
  destruct (N.ltb_spec (n mod 16) 10); lia.
Qed.

Lemma hex_ascii b : Forall (fun c => c < 0x80) (hex b).
Proof.
  unfold hex. induction b as [|x b IH]; simpl; [constructor|].
  repeat (constructor; [apply hex_digit_ascii|]). exact IH.
Qed.

Lemma u_ascii (s : string) : Forall (fun c => c < 0x80) (u "sha256=").
Proof. repeat constructor. Qed.

Lemma Buffer_from_of_ascii e : Forall (fun c => c < 0x80) e -> Buffer_from e = e.
Proof.
  induction 1 as [|c e Hc _ IH]; simpl; [done|].
  apply N.ltb_lt in Hc. rewrite Hc. by f_equal.
Qed.

Section V.
Context (cfg : Config) (rt : Runtime).
Lemma expected_ascii raw : Forall (fun c => c < 0x80) (expected_signature cfg rt raw).
Proof. apply Forall_app. split; [repeat constructor|apply hex_ascii]. Qed.

Lemma verify_with_secret (h : jsstring) (raw : bytes) :
  SECRET cfg <> [] -> h <> [] ->
  verify cfg rt (Val h) raw = true <-> h = expected_signature cfg rt raw.
Proof.
  intros Hs Hh. pose proof (expected_ascii raw) as Hasc.
  unfold verify. fold (expected_signature cfg rt raw).
  destruct (SECRET cfg); [done|]. destruct h as [|c h]; [done|].
  cbv beta iota delta
      [nonempty negb truthy tmpl to_boolean to_string js_string js_value].
  rewrite (Buffer_from_of_ascii _ Hasc).
  destruct (timingSafeEqual _ _) as [[]|] eqn:Ht.
  - apply timingSafeEqual_true in Ht. symmetry in Ht.
    apply Buffer_from_ascii in Ht; done.
  - split; [done|]. intros E. rewrite E, (Buffer_from_of_ascii _ Hasc) in Ht.
    assert (timingSafeEqual (expected_signature cfg rt raw) (expected_signature cfg rt raw) = Some true)
      by by apply timingSafeEqual_true.
    congruence.
  - split; [done|]. intros E. rewrite E, (Buffer_from_of_ascii _ Hasc) in Ht.
    assert (timingSafeEqual (expected_signature cfg rt raw) (expected_signature cfg rt raw) = Some true)
      by by apply timingSafeEqual_true.
    congruence.
Qed.

(** C2.  [verify] returns [true] exactly when no secret is configured or
    the header is the string "sha256=" followed by the hex digest of the
    HMAC of the body under the secret.  With a secret configured, a missing
    or empty header gives [false]; a header whose buffer has another length
    makes [timingSafeEqual] throw, which [verify] catches and answers with
    [false]. *)
Theorem verify_iff (sigHeader : field jsstring) (raw : bytes) :
  (verify cfg rt sigHeader raw = true <->
     SECRET cfg = [] \/ sigHeader = Val (expected_signature cfg rt raw))
  /\ (SECRET cfg <> [] -> forall h, truthy h = false -> verify cfg rt h raw = false)
  /\ (SECRET cfg <> [] -> forall h,
        length (Buffer_from h) <> length (Buffer_from (expected_signature cfg rt raw)) ->
        timingSafeEqual (Buffer_from (expected_signature cfg rt raw)) (Buffer_from h) = None
        /\ verify cfg rt (Val h) raw = false).
Proof.
  assert (Hfalsy : SECRET cfg <> [] -> forall h, truthy h = false -> verify cfg rt h raw = false).
  { intros Hs h Hh. unfold verify. destruct (SECRET cfg); [done|]. simpl. by rewrite Hh. }
  split; [|split; [done|]].
  - destruct (decide (SECRET cfg = [])) as [Hs|Hs].
    { unfold verify. rewrite Hs. simpl. tauto. }
    destruct (truthy sigHeader) eqn:Hh.
    + destruct sigHeader as [| |h]; try done. 
      rewrite verify_with_secret; [|done|by destruct h].
      split; [intros ->; by right|intros [|[=]]; done].
    + rewrite (Hfalsy Hs _ Hh). split; [done|]. intros [ ? | -> ]; [done|].
      simpl in Hh. by destruct (expected_signature cfg rt raw).
  - intros Hs h Hlen.
    assert (timingSafeEqual (Buffer_from (expected_signature cfg rt raw)) (Buffer_from h) = None) as Ht.
    { unfold timingSafeEqual. case Nat.eqb_spec; [|done]. intros E. by rewrite E in Hlen. }
    split; [done|]. unfold verify. fold (expected_signature cfg rt raw).
    destruct (SECRET cfg); [done|]. cbv beta iota delta
      [nonempty negb truthy tmpl to_boolean to_string js_string js_value].
    destruct h; [done|]. by rewrite Ht.
Qed.
End V.

(** ** Programs that do not suspend *)
Lemma exec_then_sync p :
  sync p -> forall rid kr kt s, exec rid (then_ p kr kt) s = exec rid kr (exec rid p s).
Proof. induction 1; intros; simpl; auto. Qed.

Lemma sync_then p q kt : sync p -> sync q -> sync (then_ p q kt).
Proof. induction 1; intros; simpl; try constructor; auto. Qed.

(** ToBoolean and ToString on the values at hand. *)
Ltac values_in E :=
  cbn [truthy tmpl negb to_boolean to_string js_string js_value] in E.

Ltac ev :=
  cbn [exec then_ seq try_catch finally log emit forEach foldr
       record suspend set_running set_lines set_handlers finish open_request retire
       trace tasks lines procs dirs runningDeploys negb andb orb fst snd].

Lemma sync_save_line ls x : sync (save_line ls x).
Proof.
  unfold save_line. destruct (nonempty (trim x)); [|constructor].
  ev. repeat constructor.
  intros b. destruct (50 <? length b)%nat; ev; destruct ls; repeat constructor.
Qed.

Lemma get_lines_set rid f s :
  (rid < length (lines s))%nat -> get_lines rid (set_lines rid f s) = f (get_lines rid s).
Proof.
  intros H. unfold get_lines, set_lines. simpl. rewrite list_lookup_alter.
  destruct (lookup_lt_is_Some_2 _ _ H) as [x Hx]. rewrite Hx. by rewrite decide_True.
Qed.

Lemma get_lines_record rid rid' e s : get_lines rid (record rid' e s) = get_lines rid s.
Proof. reflexivity. Qed.

Lemma lines_set_length rid f s : length (lines (set_lines rid f s)) = length (lines s).
Proof. unfold set_lines. simpl. by rewrite length_alter. Qed.

Lemma exec_save_line rid ls x s :
  (rid < length (lines s))%nat ->
  let s' := exec rid (save_line ls x) s in
  get_lines rid s' =
    (if nonempty (trim x) then roll (get_lines rid s) (trim x) else get_lines rid s)
  /\ length (lines s') = length (lines s).
Proof.
  intros H. unfold save_line. destruct (nonempty (trim x)); [|done].
  cbn [exec then_ seq log emit].
  rewrite get_lines_record, get_lines_set by done. unfold roll. cbv zeta.
  destruct (50 <? length (get_lines rid s ++ [trim x]))%nat;
    destruct ls; cbn [exec then_ seq log emit];
    rewrite ?get_lines_record, ?get_lines_set;
    rewrite ?get_lines_record, ?get_lines_set;
    change (lines (record ?r ?e ?s)) with (lines s);
    rewrite ?lines_set_length; try done.
  all: change (lines (record ?r ?e ?s)) with (lines s); rewrite ?lines_set_length; done.
Qed.

(** ** The rolling buffer *)
Lemma roll_slice_last (kept : list jsstring) (x : jsstring) :
  roll (slice_last 50 kept) x = slice_last 50 (kept ++ [x]).
Proof.
  unfold roll, slice_last. cbv zeta.
  rewrite !length_app, length_drop. cbn [length].
  destruct (Nat.ltb_spec 50 (length kept - (length kept - 50) + 1)) as [H|H].
  - rewrite drop_app_le by (rewrite length_drop; lia).
    rewrite drop_drop. rewrite drop_app_le by lia. do 2 f_equal. lia.
  - replace (length kept - 50)%nat with 0%nat by lia.
    replace (length kept + 1 - 50)%nat with 0%nat by lia. done.
Qed.

Lemma foldl_roll (kept : list jsstring) : foldl roll [] kept = slice_last 50 kept.
Proof.
  induction kept as [|x kept IH] using rev_ind; [done|].
  by rewrite foldl_app, IH; cbn [foldl]; rewrite roll_slice_last.
Qed.

Lemma slice_last_length {A} n (l : list A) : length (slice_last n l) = (length l `min` n)%nat.
Proof. unfold slice_last. rewrite length_drop. lia. Qed.

Lemma exec_forEach_save_line rid ls raws : forall s,
  (rid < length (lines s))%nat ->
  let s' := exec rid (forEach raws (save_line ls)) s in
  get_lines rid s' = foldl roll (get_lines rid s) (kept_lines raws)
  /\ length (lines s') = length (lines s).
Proof.
  induction raws as [|x raws IH]; intros s H; [done|].
  cbv zeta. change (forEach (x :: raws) (save_line ls))
    with (then_ (save_line ls x) (forEach raws (save_line ls)) Throw).
  rewrite exec_then_sync by apply sync_save_line.
  destruct (exec_save_line rid ls x s H) as [Hx Hlen].
  destruct (IH (exec rid (save_line ls x) s)) as [IH1 IH2]; [by rewrite Hlen|].
  rewrite IH1, IH2, Hx, Hlen. split; [|done].
  unfold kept_lines. rewrite fmap_cons, filter_cons.
  destruct (nonempty (trim x)); [by rewrite decide_True|by rewrite decide_False].
Qed.

(** C8.  Whatever lines the child process prints, after each of them the
    [lines] array of the deploy holds at most 50 entries, and they are the
    most recent 50 of the non-empty trimmed lines appended so far, in
    arrival order: an overflow drops the oldest entry. *)
Theorem rolling_buffer_last_50 (rid : nat) (logStream : option jsstring)
    (s : State) (raws : list jsstring) (k : nat) :
  lines s !! rid = Some [] ->
  let s' := exec rid (forEach (take k raws) (save_line logStream)) s in
  let appended := kept_lines (take k raws) in
  (length (get_lines rid s') <= 50)%nat
  /\ get_lines rid s' = slice_last 50 appended
  /\ (50 < length appended -> length (get_lines rid s') = 50)%nat.
Proof.
  intros Hs s' appended.
  destruct (exec_forEach_save_line rid logStream (take k raws) s) as [H _].
  { by eapply lookup_lt_Some. }
  fold s' in H. unfold get_lines at 2 in H. rewrite Hs in H. cbn [default] in H.
  rewrite foldl_roll in H. fold appended in H. rewrite H, slice_last_length.
  repeat split; lia.
Qed.

(** ** The event loop keeps what [always] promises *)

Lemma effects_of_app rid tr tr' :
  effects_of rid (tr ++ tr') = effects_of rid tr ++ effects_of rid tr'.
Proof. unfold effects_of. by rewrite filter_app, fmap_app. Qed.

Lemma effects_of_same rid (l : list Effect) : effects_of rid (pair rid <$> l) = l.
Proof.
  unfold effects_of. induction l as [|e l IH]; [done|].
  rewrite fmap_cons, filter_cons, decide_True by done. by rewrite fmap_cons, IH.
Qed.

Lemma effects_of_other rid rid' (l : list Effect) :
  rid <> rid' -> effects_of rid (pair rid' <$> l) = [].
Proof.
  intros H. unfold effects_of. induction l as [|e l IH]; [done|].
  rewrite fmap_cons, filter_cons, decide_False; [done|]. simpl. congruence.
Qed.

Lemma effects_of_none rid tr :
  (forall r e, (r, e) ∈ tr -> r <> rid) -> effects_of rid tr = [].
Proof.
  unfold effects_of. induction tr as [|[r e] tr IH]; intros H; [done|].
  rewrite filter_cons, decide_False.
  - apply IH. intros r' e' Hin. apply (H r' e'). by right.
  - cbn. apply (H r e). by left.
Qed.

(** Effects are only appended, under the number of the running request. *)
Lemma exec_trace p : forall rid s,
  exists tr, trace (exec rid p s) = trace s ++ (pair rid <$> tr).
Proof.
  induction p; intros rid s; cbn [exec];
    try (by exists []; rewrite app_nil_r);
    try (by eauto).
  - eexists [_]. done.
  - destruct (IHp rid (record rid e s)) as [tr ->]. exists (e :: tr).
    cbn [record trace]. by rewrite <- app_assoc.
  - destruct (IHp rid (record rid (SetAdd key) (set_running ({[key]} ∪ runningDeploys s) s)))
      as [tr ->]. eexists (_ :: tr). cbn [record set_running trace]. by rewrite <- app_assoc.
  - destruct (IHp rid (record rid (SetDelete key) (set_running (runningDeploys s ∖ {[key]}) s)))
      as [tr ->]. eexists (_ :: tr). cbn [record set_running trace]. by rewrite <- app_assoc.
  - destruct (IHp1 rid s) as [tr1 H1]. destruct (IHp2 rid (exec rid p1 s)) as [tr2 ->].
    exists (tr1 ++ tr2). by rewrite H1, <- app_assoc, <- fmap_app.
  - eexists [_]. done.
  - eexists [_]. done.
  - match goal with |- context [exec rid p ?s'] => destruct (IHp rid s') as [tr ->] end.
    eexists (_ :: tr). cbn [set_handlers record trace]. by rewrite <- app_assoc.
  - match goal with |- context [exec rid p ?s'] => destruct (IHp rid s') as [tr ->] end.
    by exists tr.
  - match goal with |- context [exec rid p ?s'] => destruct (IHp rid s') as [tr ->] end.
    by exists tr.
Qed.

Section AlwaysFacts.
Context (ok : Effect -> bool).

Lemma always_later p : always ok p -> later ok p.
Proof. induction 1; constructor; auto. Qed.

Lemma always_then p kr kt :
  always ok p -> always ok kr -> (forall e, always ok (kt e)) ->
  always ok (then_ p kr kt).
Proof. induction 1; intros; cbn [then_]; try constructor; auto. Qed.

Lemma later_then p kr kt :
  later ok p -> always ok kr -> (forall e, always ok (kt e)) ->
  later ok (then_ p kr kt).
Proof.
  induction 1; intros; cbn [then_]; try constructor; auto using always_later, always_then.
Qed.

Lemma exec_always p :
  always ok p -> forall rid s,
  exists tr, trace (exec rid p s) = trace s ++ (pair rid <$> tr)
             /\ Forall (fun e => ok e = true) tr.
Proof.
  induction 1; intros rid s; cbn [exec].
  - exists []. by rewrite app_nil_r.
  - eexists [_]. split; [done|]. by constructor.
  - destruct (IHalways rid (record rid e s)) as (tr & -> & Htr). exists (e :: tr).
    cbn [record trace]. rewrite <- app_assoc. split; [done|]. by constructor.
  - eauto.
  - edestruct IHalways as (tr & -> & Htr). eexists (_ :: tr).
    cbn [record set_running trace]. rewrite <- app_assoc. split; [done|]. by constructor.
  - edestruct IHalways as (tr & -> & Htr). eexists (_ :: tr).
    cbn [record set_running trace]. rewrite <- app_assoc. split; [done|]. by constructor.
  - eauto.
  - destruct (IHalways1 rid s) as (tr1 & H1 & Htr1).
    destruct (IHalways2 rid (exec rid p s)) as (tr2 & -> & Htr2).
    exists (tr1 ++ tr2). rewrite H1, <- app_assoc, <- fmap_app. split; [done|].
    by apply Forall_app.
  - eexists [_]. split; [done|]. by constructor.
  - eexists [_]. split; [done|]. by constructor.
  - exists []. by rewrite app_nil_r.
  - exists []. by rewrite app_nil_r.
  - edestruct IHalways as (tr & -> & Htr). eexists (_ :: tr).
    cbn [set_handlers record trace]. rewrite <- app_assoc. split; [done|]. by constructor.
  - edestruct IHalways as (tr & -> & Htr). by exists tr.
  - edestruct IHalways as (tr & -> & Htr). by exists tr.
  - eauto.
Qed.

Lemma stored_record rid rid' e s : stored_ok ok rid s -> stored_ok ok rid (record rid' e s).
Proof. done. Qed.

Lemma stored_set_running rid r s : stored_ok ok rid s -> stored_ok ok rid (set_running r s).
Proof. done. Qed.

Lemma stored_set_lines rid rid' f s :
  stored_ok ok rid s -> stored_ok ok rid (set_lines rid' f s).
Proof. done. Qed.

Lemma stored_suspend rid rid' w s :
  (rid = rid' -> always_pending ok w) ->
  stored_ok ok rid s -> stored_ok ok rid (suspend rid' w s).
Proof.
  intros Hw [Ht Hp]. split; [|exact Hp].
  intros tid w'. cbn [suspend tasks]. intros Hl.
  apply lookup_app_Some in Hl as [Hl|[_ Hl]]; [eauto|].
  apply list_lookup_singleton_Some in Hl as [_ [= <- <-]]. auto.
Qed.

Lemma stored_set_handlers rid rid' h s :
  (rid = rid' -> always_handlers ok h) ->
  stored_ok ok rid s -> stored_ok ok rid (set_handlers rid' h s).
Proof.
  intros Hh [Ht Hp]. split; [exact Ht|].
  intros h'. cbn [set_handlers procs]. intros Hl.
  destruct (decide (rid = rid')) as [<-|Hne].
  - destruct (decide (rid < length (procs s))%nat) as [Hlt|Hge].
    + rewrite list_lookup_insert_eq in Hl by done. injection Hl as <-. auto.
    + rewrite list_insert_ge in Hl by lia. eauto.
  - rewrite list_lookup_insert_ne in Hl by done. eauto.
Qed.

(** What a program of [rid] leaves in flight. *)
Lemma exec_later p :
  later ok p -> forall rid s, stored_ok ok rid s -> stored_ok ok rid (exec rid p s).
Proof.
  induction 1; intros rid s Hs; cbn [exec];
    eauto 6 using stored_record, stored_set_running, stored_set_lines,
      stored_suspend, stored_set_handlers.
  apply IHlater, stored_set_handlers, stored_record; [|done].
  intros _. repeat split; done.
Qed.

(** A program of another request leaves it untouched. *)
Lemma exec_other_stored p : forall rid rid' s,
  rid <> rid' -> stored_ok ok rid s -> stored_ok ok rid (exec rid' p s).
Proof.
  induction p; intros rid rid' s Hne Hs; cbn [exec];
    eauto 6 using stored_record, stored_set_running, stored_set_lines.
  - apply stored_suspend, stored_record; done.
  - apply stored_suspend, stored_record; done.
  - apply stored_suspend; done.
  - apply stored_suspend; done.
  - apply IHp, stored_set_handlers, stored_record; done.
Qed.
End AlwaysFacts.

(** ** Request numbers *)

Lemma exec_wf p : forall rid s,
  (rid < length (procs s))%nat -> wf s ->
  wf (exec rid p s) /\ length (procs (exec rid p s)) = length (procs s).
Proof.
  assert (Hrec : forall rid e s, (rid < length (procs s))%nat -> wf s -> wf (record rid e s)).
  { intros rid e s Hlt (Ht & Htr & Hl). split; [exact Ht|]. split; [|exact Hl].
    intros rid' e'. cbn [record trace procs]. rewrite elem_of_app, list_elem_of_singleton.
    intros [?|[= -> ->]]; eauto. }
  assert (Hsus : forall rid w s, (rid < length (procs s))%nat -> wf s -> wf (suspend rid w s)).
  { intros rid w s Hlt (Ht & Htr & Hl). split; [|by split].
    intros tid rid' w'. cbn [suspend tasks procs]. intros Hlk.
    apply lookup_app_Some in Hlk as [Hlk|[_ Hlk]]; [eauto|].
    apply list_lookup_singleton_Some in Hlk as [_ [= <- <-]]. done. }
  assert (Hlin : forall rid f s, wf s -> wf (set_lines rid f s)).
  { intros rid f s (Ht & Htr & Hl). split; [exact Ht|]. split; [exact Htr|].
    cbn [set_lines lines procs]. by rewrite length_alter. }
  assert (Hhan : forall rid h s, wf s -> wf (set_handlers rid h s)).
  { intros rid h s (Ht & Htr & Hl). unfold wf. cbn [set_handlers tasks trace lines procs].
    rewrite length_insert. done. }
  assert (Hrun : forall rid e s, length (procs (record rid e s)) = length (procs s)) by done.
  induction p; intros rid s Hlt Hs; cbn [exec]; auto.
  - destruct (IHp rid (record rid e s)); auto.
  - destruct (IHp rid (record rid (SetAdd key) (set_running ({[key]} ∪ runningDeploys s) s)));
      auto.
  - destruct (IHp rid (record rid (SetDelete key) (set_running (runningDeploys s ∖ {[key]}) s)));
      auto.
  - destruct (IHp1 rid s Hlt Hs) as [H1 E1].
    destruct (IHp2 rid (exec rid p1 s)) as [H2 E2]; [lia|done|]. split; [done|lia].
  - match goal with |- context [exec rid p ?s'] => destruct (IHp rid s') as [Hw1 Ew1] end.
    + cbn [set_handlers procs]. by rewrite length_insert.
    + apply Hhan, Hrec; done.
    + split; [done|]. rewrite Ew1. cbn [set_handlers procs]. by rewrite length_insert.
  - destruct (IHp rid (set_lines rid (fun ls => ls ++ [line]) s)); auto.
  - destruct (IHp rid (set_lines rid (drop 1) s)); auto.
Qed.

Lemma wf_boot existing : wf (boot existing).
Proof.
  split; [|split]; [| |done].
  - intros tid rid w. cbn [boot tasks]. by rewrite lookup_nil.
  - intros rid e. cbn [boot trace]. by rewrite elem_of_nil.
Qed.

Lemma wf_open_request s : wf s -> wf (open_request s).
Proof.
  intros (Ht & Htr & Hl). unfold wf. cbn [open_request tasks trace lines procs].
  rewrite !length_app. cbn [length]. split; [|split; [|lia]].
  - intros tid rid w H. specialize (Ht _ _ _ H). lia.
  - intros rid e H. specialize (Htr _ _ H). lia.
Qed.

Lemma wf_finish tid rid s : (rid < length (procs s))%nat -> wf s -> wf (finish tid rid s).
Proof.
  intros Hlt (Ht & Htr & Hl). split; [|by split].
  intros tid' rid' w'. cbn [finish tasks procs]. intros Hlk.
  destruct (decide (tid = tid')) as [<-|Hne].
  - destruct (decide (tid < length (tasks s))%nat).
    + rewrite list_lookup_insert_eq in Hlk by done. by injection Hlk as <- <-.
    + rewrite list_insert_ge in Hlk by lia. eauto.
  - rewrite list_lookup_insert_ne in Hlk by done. eauto.
Qed.

Section LoopFacts.
Context (cfg : Config) (rt : Runtime).

Lemma step_wf s ev :
  wf s -> wf (step cfg rt s ev)
          /\ (length (procs s) <= length (procs (step cfg rt s ev)))%nat.
Proof.
  intros Hs. destruct ev as [req|tid a|rid data|rid code|rid err]; cbn [step].
  - destruct (exec_wf (server cfg rt req) (length (procs s)) (open_request s)) as [H E].
    + cbn [open_request procs]. rewrite length_app. cbn [length]. lia.
    + by apply wf_open_request.
    + split; [done|]. rewrite E. cbn [open_request procs]. rewrite length_app. lia.
  - destruct (tasks s !! tid) as [[rid [w|]]|] eqn:Hl; [|done|done].
    destruct (resume w a) as [p|]; [|done].
    assert (rid < length (procs s))%nat as Hlt by (destruct Hs as [Ht _]; eauto).
    destruct (exec_wf p rid (finish tid rid s)) as [H E]; [done|by apply wf_finish|].
    split; [done|]. rewrite E. done.
  - destruct (procs s !! rid) as [[h|]|] eqn:Hl; [|done|done].
    destruct (exec_wf (on_data h data) rid s) as [H E];
      [by eapply lookup_lt_Some|done|]. split; [done|lia].
  - destruct (procs s !! rid) as [[h|]|] eqn:Hl; [|done|done].
    destruct (exec_wf (on_close h code) rid s) as [H E];
      [by eapply lookup_lt_Some|done|]. split; [done|lia].
  - destruct (procs s !! rid) as [[h|]|] eqn:Hl; [|done|done].
    destruct (exec_wf (on_proc_error h err) rid s) as [H E];
      [by eapply lookup_lt_Some|done|]. split; [done|lia].
Qed.

Lemma run_wf evs : forall s, wf s -> wf (run cfg rt s evs).
Proof.
  induction evs as [|ev evs IH]; intros s Hs; [done|].
  cbn [run foldl]. apply IH. by apply step_wf.
Qed.

Lemma run_app s evs evs' : run cfg rt s (evs ++ evs') = run cfg rt (run cfg rt s evs) evs'.
Proof. apply foldl_app. Qed.

Lemma stored_finish ok rid tid rid' s :
  stored_ok ok rid s -> stored_ok ok rid (finish tid rid' s).
Proof.
  intros [Ht Hp]. split; [|exact Hp].
  intros tid' w. cbn [finish tasks]. intros Hl.
  destruct (decide (tid = tid')) as [<-|Hne].
  - destruct (decide (tid < length (tasks s))%nat).
    + rewrite list_lookup_insert_eq in Hl by done. done.
    + rewrite list_insert_ge in Hl by lia. eauto.
  - rewrite list_lookup_insert_ne in Hl by done. eauto.
Qed.

Lemma resume_always ok w a p :
  always_pending ok w -> resume w a = Some p -> always ok p.
Proof. destruct w, a; cbn; intros H [= <-]; auto. Qed.

(** After its first step a request only does what it left in flight. *)
Lemma step_after ok rid s ev :
  (rid < length (procs s))%nat -> stored_ok ok rid s ->
  exists tr, effects_of rid (trace (step cfg rt s ev)) = effects_of rid (trace s) ++ tr
             /\ Forall (fun e => ok e = true) tr
             /\ stored_ok ok rid (step cfg rt s ev).
Proof.
  intros Hlt Hs.
  assert (Hsame : forall p s0, always ok p -> stored_ok ok rid s0 ->
            exists tr, effects_of rid (trace (exec rid p s0)) = effects_of rid (trace s0) ++ tr
                       /\ Forall (fun e => ok e = true) tr
                       /\ stored_ok ok rid (exec rid p s0)).
  { intros p s0 Hp Hs0. destruct (exec_always ok p Hp rid s0) as (tr & -> & Htr).
    exists tr. rewrite effects_of_app, effects_of_same. split; [done|]. split; [done|].
    apply exec_later; [by apply always_later|done]. }
  assert (Hother : forall p rid' s0, rid <> rid' -> stored_ok ok rid s0 ->
            exists tr, effects_of rid (trace (exec rid' p s0)) = effects_of rid (trace s0) ++ tr
                       /\ Forall (fun e => ok e = true) tr
                       /\ stored_ok ok rid (exec rid' p s0)).
  { intros p rid' s0 Hne Hs0. destruct (exec_trace p rid' s0) as (tr & ->).
    exists []. rewrite effects_of_app, effects_of_other by done.
    split; [done|]. split; [done|]. by apply exec_other_stored. }
  assert (Hnone : exists tr, effects_of rid (trace s) = effects_of rid (trace s) ++ tr
                       /\ Forall (fun e => ok e = true) tr /\ stored_ok ok rid s).
  { exists []. by rewrite app_nil_r. }
  destruct ev as [req|tid a|rid' data|rid' code|rid' err]; cbn [step].
  - destruct (Hother (server cfg rt req) (length (procs s)) (open_request s))
      as (tr & E & Htr & Hst); [lia| |by exists tr].
    destruct Hs as [Ht Hp]. split; [exact Ht|].
    intros h. cbn [open_request procs]. rewrite lookup_app_l by done. apply Hp.
  - destruct (tasks s !! tid) as [[rid' [w|]]|] eqn:Hl; [|done|done].
    destruct (resume w a) as [p|] eqn:Hr; [|done].
    destruct (decide (rid = rid')) as [<-|Hne].
    + destruct (Hsame p (finish tid rid s)) as (tr & E & Htr & Hst);
        [|by apply stored_finish|by exists tr].
      eapply resume_always; [|done]. destruct Hs as [Ht _]. eauto.
    + destruct (Hother p rid' (finish tid rid' s)) as (tr & E & Htr & Hst);
        [done|by apply stored_finish|by exists tr].
  - destruct (procs s !! rid') as [[h|]|] eqn:Hl; [|done|done].
    destruct (decide (rid = rid')) as [<-|Hne]; [|by apply Hother].
    apply Hsame; [|done]. destruct Hs as [_ Hp]. by apply Hp.
  - destruct (procs s !! rid') as [[h|]|] eqn:Hl; [|done|done].
    destruct (decide (rid = rid')) as [<-|Hne]; [|by apply Hother].
    apply Hsame; [|done]. destruct Hs as [_ Hp]. by apply Hp.
  - destruct (procs s !! rid') as [[h|]|] eqn:Hl; [|done|done].
    destruct (decide (rid = rid')) as [<-|Hne]; [|by apply Hother].
    apply Hsame; [|done]. destruct Hs as [_ Hp]. by apply Hp.
Qed.

Lemma run_after ok rid evs : forall s,
  wf s -> (rid < length (procs s))%nat -> stored_ok ok rid s ->
  exists tr, effects_of rid (trace (run cfg rt s evs)) = effects_of rid (trace s) ++ tr
             /\ Forall (fun e => ok e = true) tr.
Proof.
  induction evs as [|ev evs IH]; intros s Hwf Hlt Hs.
  - exists []. by rewrite app_nil_r.
  - cbn [run foldl]. destruct (step_after ok rid s ev Hlt Hs) as (tr1 & E1 & H1 & Hs1).
    destruct (step_wf s ev Hwf) as [Hwf1 Hlen].
    destruct (IH (step cfg rt s ev)) as (tr2 & E2 & H2); [done|lia|done|].
    exists (tr1 ++ tr2). unfold run in E2. rewrite E2, E1, app_assoc. split; [done|].
    by apply Forall_app.
Qed.

Lemma stored_fresh ok s : wf s -> stored_ok ok (length (procs s)) (open_request s).
Proof.
  intros (Ht & _). split.
  - intros tid w. cbn [open_request tasks]. intros Hl. specialize (Ht _ _ _ Hl). lia.
  - intros h. cbn [open_request procs]. rewrite lookup_app_r by done.
    by rewrite Nat.sub_diag.
Qed.

Lemma effects_of_fresh s : wf s -> effects_of (length (procs s)) (trace s) = [].
Proof.
  intros (_ & Htr & _). apply effects_of_none. intros r e Hin.
  specialize (Htr _ _ Hin). lia.
Qed.

(** The life of one request: the effects of its first step, then only
    what it left in flight allows, whatever else the event loop
    dispatches. *)
Lemma request_lifetime_from ok s req evs first :
  wf s ->
  let rid := length (procs s) in
  trace (step cfg rt s (Incoming req)) = trace s ++ (pair rid <$> first) ->
  stored_ok ok rid (step cfg rt s (Incoming req)) ->
  exists rest,
    effects_of rid (trace (run cfg rt s (Incoming req :: evs))) = first ++ rest
    /\ Forall (fun e => ok e = true) rest.
Proof.
  intros Hwf rid Hfirst Hstored.
  pose proof (effects_of_fresh s Hwf) as Hnil. fold rid in Hnil.
  destruct (run_after ok rid evs (step cfg rt s (Incoming req))) as (rest & E & Hrest).
  - by apply step_wf.
  - change (rid < length (procs (exec rid (server cfg rt req) (open_request s))))%nat.
    destruct (exec_wf (server cfg rt req) rid (open_request s)) as [_ E].
    + cbn [open_request procs]. rewrite length_app. cbn [length]. unfold rid. lia.
    + by apply wf_open_request.
    + rewrite E. cbn [open_request procs]. rewrite length_app. cbn [length]. unfold rid. lia.
  - done.
  - exists rest. split; [|done]. cbn [run foldl]. unfold run in E. rewrite E, Hfirst.
    by rewrite effects_of_app, Hnil, effects_of_same.
Qed.

Lemma request_lifetime ok s req evs :
  wf s -> later ok (server cfg rt req) ->
  let rid := length (procs s) in
  exists first rest,
    trace (step cfg rt s (Incoming req)) = trace s ++ (pair rid <$> first)
    /\ effects_of rid (trace (run cfg rt s (Incoming req :: evs))) = first ++ rest
    /\ Forall (fun e => ok e = true) rest.
Proof.
  intros Hwf Hlater. cbv zeta. set (rid := length (procs s)).
  destruct (exec_trace (server cfg rt req) rid (open_request s)) as [first Hfirst].
  change (trace (open_request s)) with (trace s) in Hfirst.
  exists first.
  destruct (request_lifetime_from ok s req evs first Hwf Hfirst) as (rest & E & Hrest).
  { apply exec_later; [done|]. by apply stored_fresh. }
  by exists rest.
Qed.
End LoopFacts.

(** ** [pending] before any other status *)

Lemma pf_then p kr kt :
  pending_first p -> always no_pending kr -> (forall e, always no_pending (kt e)) ->
  pending_first (then_ p kr kt).
Proof.
  induction 1; intros Hr Ht; cbn [then_].
  - apply pf_always. by apply always_then.
  - apply pf_Emit; auto.
  - apply pf_Has; auto.
  - apply pf_Add; auto.
  - apply pf_Delete; auto.
  - apply pf_AccessSync; auto.
  - apply pf_Detach; [done|]. by apply always_then.
  - apply pf_HttpsCall. intros r. by apply always_then.
Qed.

Lemma pf_later p : pending_first p -> later no_pending p.
Proof. induction 1; try constructor; auto using always_later. Qed.

Lemma exec_pending_first p :
  pending_first p -> forall rid s,
  exists tr, trace (exec rid p s) = trace s ++ (pair rid <$> tr) /\ pending_first_trace tr.
Proof.
  assert (Hcons : forall e tr, status_of e = None ->
            pending_first_trace tr -> pending_first_trace (e :: tr)).
  { intros e tr He (pre & post & -> & Hpre & Hpost). exists (e :: pre), post.
    split; [done|]. split; [|done]. unfold statuses in *.
    change (omap status_of (e :: pre))
      with (match status_of e with
            | Some y => y :: omap status_of pre
            | None => omap status_of pre
            end).
    by rewrite He. }
  induction 1; intros rid s; cbn [exec].
  - destruct (exec_always _ _ H rid s) as (tr & -> & Htr). exists tr. split; [done|].
    exists [], tr. split; [done|]. split; [done|]. by apply Forall_drop.
  - destruct (IHpending_first rid (record rid e s)) as (tr & -> & Htr). exists (e :: tr).
    cbn [record trace]. rewrite <- app_assoc. split; [done|]. by apply Hcons.
  - auto.
  - edestruct IHpending_first as (tr & -> & Htr). eexists (_ :: tr).
    cbn [record set_running trace]. rewrite <- app_assoc. split; [done|]. by apply Hcons.
  - edestruct IHpending_first as (tr & -> & Htr). eexists (_ :: tr).
    cbn [record set_running trace]. rewrite <- app_assoc. split; [done|]. by apply Hcons.
  - auto.
  - destruct (IHpending_first rid s) as (tr1 & E1 & pre & post & -> & Hpre & Hpost).
    destruct (exec_always _ _ H0 rid (exec rid p s)) as (tr2 & -> & Htr2).
    exists ((pre ++ post) ++ tr2). rewrite E1, <- app_assoc, <- fmap_app. split; [done|].
    exists pre, (post ++ tr2). split; [by rewrite app_assoc|]. split; [done|].
    rewrite drop_app. apply Forall_app. split; [done|]. by apply Forall_drop.
  - eexists [_]. split; [done|]. eexists [], [_]. by repeat split.
Qed.

Lemma pending_first_trace_app tr rest :
  pending_first_trace tr -> Forall (fun e => no_pending e = true) rest ->
  pending_first_trace (tr ++ rest).
Proof.
  intros (pre & post & -> & Hpre & Hpost) Hrest. exists pre, (post ++ rest).
  split; [by rewrite app_assoc|]. split; [done|].
  rewrite drop_app. apply Forall_app. split; [done|]. by apply Forall_drop.
Qed.

Lemma statuses_nil_lookup pre i e :
  statuses pre = [] -> pre !! i = Some e -> status_of e = None.
Proof.
  unfold statuses. revert i. induction pre as [|x pre IH]; intros i; [done|].
  change (omap status_of (x :: pre))
    with (match status_of x with
          | Some y => y :: omap status_of pre
          | None => omap status_of pre
          end).
  destruct (status_of x) eqn:Hx; [done|]. intros Hpre.
  destruct i as [|i]; cbn; [by intros [= <-]|]. eauto.
Qed.

(** No status of the request comes before a [pending] one. *)
Lemma pending_first_trace_order tr i j e e' :
  pending_first_trace tr ->
  tr !! i = Some e -> status_of e <> None ->
  tr !! j = Some e' -> is_status (u "pending") e' = true ->
  (j <= i)%nat.
Proof.
  intros (pre & post & -> & Hpre & Hpost) Hi He Hj He'.
  assert (Hst : status_of e' <> None).
  { destruct e'; try done. destruct data; done. }
  apply lookup_app_Some in Hi as [Hi|[Hi1 Hi2]].
  { by rewrite (statuses_nil_lookup _ _ _ Hpre Hi) in He. }
  apply lookup_app_Some in Hj as [Hj|[Hj1 Hj2]].
  { by rewrite (statuses_nil_lookup _ _ _ Hpre Hj) in Hst. }
  destruct (j - length pre)%nat as [|j'] eqn:Ej; [lia|].
  exfalso. rewrite Forall_forall in Hpost.
  assert (e' ∈ drop 1 post) as Hin.
  { apply list_elem_of_lookup. exists j'. by rewrite lookup_drop. }
  specialize (Hpost _ Hin). unfold no_pending in Hpost. by rewrite He' in Hpost.
Qed.

(** ** Which effects the handlers can have *)

Section Combinators.
Context (ok : Effect -> bool).
Hypothesis ok_rejection : forall e, ok (UnhandledRejection e) = true.

Lemma always_seq p q : always ok p -> always ok q -> always ok (seq p q).
Proof. intros. apply always_then; [done|done|]. intros e. by constructor. Qed.

Lemma always_try_catch p h :
  always ok p -> (forall e, always ok (h e)) -> always ok (try_catch p h).
Proof. intros. apply always_then; [done|constructor|done]. Qed.

Lemma always_finally p q : always ok p -> always ok q -> always ok (finally p q).
Proof.
  intros. apply always_then; [done|done|]. intros e. apply always_seq; [done|].
  by constructor.
Qed.

Lemma always_forEach {A} (l : list A) f :
  (forall x, always ok (f x)) -> always ok (forEach l f).
Proof.
  intros H. induction l as [|x l IH]; [constructor|]. cbn [forEach foldr].
  by apply always_seq.
Qed.
End Combinators.

Ltac always_leaf :=
  try done;
  cbn;
  repeat match goal with
         | |- context [if ?b then _ else _] => destruct b
         end;
  done.

Ltac always_tac :=
  repeat match goal with
  | |- forall _, _ => intro
  | |- always _ (if ?b then _ else _) => destruct b
  | |- always _ (match ?x with _ => _ end) => destruct x
  | |- always _ (let _ := _ in _) => cbv zeta
  | |- always _ (then_ _ _ _) => apply always_then
  | |- always _ (seq _ _) => apply always_seq
  | |- always _ (try_catch _ _) => apply always_try_catch
  | |- always _ (finally _ _) => apply always_finally
  | |- always _ (forEach _ _) => apply always_forEach
  | |- always _ (emit _) => unfold emit
  | |- always _ (log _) => unfold log, emit
  | |- always _ _ => constructor
  | |- _ = true => always_leaf
  end.

Ltac unfold_handlers :=
  unfold server, webhook, on_end, on_error, on_catch, handle_event, withDeployLock,
    deployFn, onError, onClose, saveLines, save_line, runGit, git_settled,
    reportErrorAndCleanup, addComment, setStatus, callGitHub, api_settled.

Section Facts.
Context (cfg : Config) (rt : Runtime).

Lemma setStatus_pending_first repo sha state desc :
  pending_first (setStatus cfg repo sha state desc).
Proof.
  unfold setStatus, callGitHub.
  destruct (negb (truthy repo) || negb (truthy sha)); [apply pf_always; constructor|].
  destruct (negb (truthy (TOKEN cfg))); [apply pf_always; constructor|].
  apply pf_HttpsCall. unfold api_settled. always_tac.
Qed.

Lemma deployFn_pending_first repo sha repoName key cwd :
  pending_first (deployFn cfg rt repo sha repoName key cwd).
Proof.
  unfold deployFn. apply pf_AccessSync. intros [|]; cbn [negb].
  - unfold seq at 1. apply pf_then; [apply setStatus_pending_first| |always_tac].
    unfold_handlers. always_tac.
  - apply pf_always. unfold_handlers. always_tac.
Qed.

Lemma handle_event_pending_first event : pending_first (handle_event cfg rt event).
Proof.
  unfold handle_event.
  match goal with |- pending_first (if ?b then _ else _) => destruct b end;
    [apply pf_always; always_tac|].
  cbv zeta.
  destruct (ref event) as [| |[ref_|t shown]]; try solve [apply pf_always; always_tac].
  destruct (after event) as [| |[sha|t shown]]; try solve [apply pf_always; always_tac].
  unfold seq at 1, log at 1, emit at 1. cbn [then_].
  apply pf_Emit; [done|].
  match goal with |- pending_first (if ?b then _ else _) => destruct b end;
    [apply pf_always; always_tac|].
  unfold withDeployLock. apply pf_Has. intros [|]; [apply pf_always; always_tac|].
  apply pf_Add, pf_Detach; [|constructor].
  unfold finally. apply pf_then; [apply deployFn_pending_first|always_tac|always_tac].
Qed.

Lemma on_catch_no_pending raw err : always no_pending (on_catch cfg rt raw err).
Proof. unfold_handlers. always_tac. Qed.

Lemma on_end_pending_first sigHeader chunks :
  pending_first (on_end cfg rt sigHeader chunks).
Proof.
  unfold on_end. cbv zeta. unfold try_catch.
  apply pf_then; [|constructor|apply on_catch_no_pending].
  match goal with |- pending_first (if ?b then _ else _) => destruct b end;
    [apply pf_always; always_tac|].
  unfold seq at 1, emit at 1. cbn [then_]. apply pf_Emit; [done|].
  destruct (JSON_parse rt (concat chunks));
    [apply pf_always; always_tac|apply pf_always; always_tac|].
  apply handle_event_pending_first.
Qed.

Lemma webhook_pending_first req : pending_first (webhook cfg rt req).
Proof.
  unfold webhook.
  match goal with |- pending_first (if ?b then _ else _) => destruct b end;
    [apply pf_always; always_tac|].
  destruct (body req); [apply on_end_pending_first|].
  apply pf_always. unfold on_error. always_tac.
Qed.

Lemma server_pending_first req : pending_first (server cfg rt req).
Proof.
  unfold server.
  match goal with |- pending_first (if ?b then _ else _) => destruct b end;
    [|apply webhook_pending_first].
  destruct (url_pathname req) as [pathname|]; [|apply pf_always; always_tac].
  repeat match goal with
         | |- pending_first (match ?x with _ => _ end) => destruct x
         end;
    try apply webhook_pending_first.
  apply pf_always. always_tac.
Qed.
End Facts.

(** ** The first step of a request *)

Section FirstStep.
Context (cfg : Config) (rt : Runtime).

Lemma typed_strings event :
  typed event = true -> exists r sha, ref event = Val (Str r) /\ after event = Val (Str sha).
Proof.
  unfold typed, is_string. intros H. apply andb_true_iff in H as [H1 H2].
  destruct (ref event) as [| |[r|t shown]]; try discriminate H1.
  destruct (after event) as [| |[sha|t shown]]; try discriminate H2.
  by exists r, sha.
Qed.

Lemma deployable_typed event : deployable event = true -> typed event = true.
Proof.
  unfold deployable. intros H. apply andb_true_iff in H as [H _].
  by apply andb_true_iff in H as [_ H].
Qed.

Lemma deployable_handled event :
  deployable event = true -> rejected event = true \/ typed event = true.
Proof. intros H. right. by apply deployable_typed. Qed.

(** Where the filter rejects the event, or its ref and commit are
    strings, the handler neither suspends nor throws. *)
Lemma sync_handle_event event :
  rejected event = true \/ typed event = true -> sync (handle_event cfg rt event).
Proof.
  intros [H|H]; unfold handle_event.
  - unfold rejected in H. rewrite H. repeat constructor.
  - apply typed_strings in H as (r & sha & -> & ->). unfold withDeployLock.
    repeat first [ match goal with |- sync (if ?b then _ else _) => destruct b end
                 | progress ev
                 | constructor | intro ].
Qed.

Lemma step_delivers s req event :
  delivers cfg rt req event -> rejected event = true \/ typed event = true ->
  step cfg rt s (Incoming req)
  = exec (length (procs s)) (handle_event cfg rt event)
      (record (length (procs s)) (Respond 200 (u "ok")) (open_request s)).
Proof.
  intros (Hm & chunks & Hb & Hv & Hp) Hty.
  cbn [step]. unfold server, webhook. rewrite Hm, Hb.
  rewrite (bool_decide_eq_false_2 (u "POST" = u "GET")) by done.
  rewrite (bool_decide_eq_true_2 (u "POST" = u "POST")) by done.
  cbn [andb negb]. unfold on_end. cbv zeta. rewrite Hv, Hp. cbn [negb].
  unfold try_catch, seq at 1, emit at 1. cbn [then_ exec].
  by rewrite exec_then_sync by (by apply sync_handle_event).
Qed.




Lemma exec_other_branch rid s event :
  rejected event = false -> typed event = true -> deployable event = false ->
  exec rid (handle_event cfg rt event) s
  = record rid (ConsoleLog [LStr (u "Ignoring branch: " ++ branch_of event)])
      (record rid (ConsoleLog [LStr (push_message event)]) s).
Proof.
  intros H1 Hty H2. unfold handle_event. unfold deployable in H2. rewrite H1, Hty in H2.
  unfold rejected in H1. rewrite H1. cbv zeta.
  unfold push_message, branch_of, sha_of, repo_of in *.
  apply typed_strings in Hty as (r & sha & Hr & Ha). rewrite Hr, Ha in *.
  cbn [tmpl to_string js_value] in *. ev.
  cbn [negb andb] in H2. apply orb_false_elim in H2 as [-> ->].
  done.
Qed.

Lemma exec_deployable rid s event :
  deployable event = true ->
  exec rid (handle_event cfg rt event) s
  = exec rid
      (withDeployLock (deployKey_of event)
         (deployFn cfg rt (repo_of event) (sha_of event) (repoName_of event)
            (deployKey_of event) (cwd_of event)))
      (record rid (ConsoleLog [LStr (push_message event)]) s).
Proof.
  intros H. pose proof (deployable_typed event H) as Hty.
  unfold deployable in H. apply andb_true_iff in H as [H1 H2].
  apply andb_true_iff in H1 as [H1 _].
  apply negb_true_iff in H1. unfold handle_event. unfold rejected in H1. rewrite H1.
  cbv zeta.
  unfold push_message, deployKey_of, cwd_of, branch_of, sha_of, repo_of, repoName_of in *.
  apply typed_strings in Hty as (r & sha & Hr & Ha). rewrite Hr, Ha in *.
  cbn [tmpl to_string js_value] in *. ev.
  destruct (bool_decide (pop (split slash r) = u "main")),
    (bool_decide (pop (split slash r) = u "master")); done.
Qed.
End FirstStep.

(** ** The lock and the directory check *)
Lemma lock_given_back (key : jsstring) (R : gset jsstring) :
  key ∉ R -> ({[key]} ∪ R) ∖ {[key]} = R.
Proof.
  intros H. apply set_eq. intros x.
  rewrite elem_of_difference, elem_of_union, elem_of_singleton. split.
  - intros [[E|Hx] Hne]; [contradiction|exact Hx].
  - intros Hx. split; [by right|]. intros E. subst x. contradiction.
Qed.

Lemma lock_given_back_twice (key : jsstring) (R : gset jsstring) :
  key ∉ R -> ({[key]} ∪ R) ∖ {[key]} ∖ {[key]} = R.
Proof.
  intros H. rewrite (lock_given_back key R H). apply set_eq. intros x.
  rewrite elem_of_difference, elem_of_singleton. split; [by intros [Hx _]|].
  intros Hx. split; [exact Hx|]. intros E. subst x. contradiction.
Qed.

Lemma nonempty_app_r (a b : jsstring) : nonempty b = true -> nonempty (a ++ b) = true.
Proof. by destruct a, b. Qed.

Lemma nonempty_deployKey event : nonempty (deployKey_of event) = true.
Proof. unfold deployKey_of. by apply nonempty_app_r. Qed.

Lemma deployable_sha event : deployable event = true -> nonempty (sha_of event) = true.
Proof.
  intros H. destruct (typed_strings event (deployable_typed event H)) as (r & sha & _ & Ha).
  unfold deployable, rejected, sha_of in *. apply andb_true_iff in H as [H _].
  apply andb_true_iff in H as [H _].
  apply negb_true_iff, orb_false_iff in H as [H _]. apply orb_false_iff in H as [H _].
  apply orb_false_iff in H as [_ H]. apply negb_false_iff in H.
  by rewrite Ha in *.
Qed.

Lemma quiet_projections tr :
  Forall (fun e => quiet e = true) tr ->
  statuses tr = [] /\ comments tr = [] /\ spawns tr = [].
Proof.
  unfold statuses, comments, spawns. induction 1 as [|e tr He _ IH]; [done|].
  destruct IH as (IH1 & IH2 & IH3).
  destruct e; try done; cbn; rewrite ?IH1, ?IH2, ?IH3; done.
Qed.

Section Lock.
Context (cfg : Config) (rt : Runtime).

Lemma exec_lock_held rid s key fn :
  key ∈ runningDeploys s ->
  exec rid (withDeployLock key fn) s
  = record rid (ConsoleLog [LStr (u "Deploy already running for " ++ key ++ u ", skipping")]) s.
Proof. intros H. unfold withDeployLock. ev. by rewrite bool_decide_eq_true_2. Qed.

Lemma exec_lock_free rid s key fn :
  key ∉ runningDeploys s ->
  exec rid (withDeployLock key fn) s
  = exec rid (finally fn (Delete key Ret))
      (record rid (SetAdd key) (set_running ({[key]} ∪ runningDeploys s) s)).
Proof. intros H. unfold withDeployLock. ev. by rewrite bool_decide_eq_false_2. Qed.

(** What runs when the [error] status of a missing directory has been
    sent: the [finally] of the lock. *)
Lemma exec_deploy_missing rid s repo sha repoName key cwd :
  cwd ∉ dirs s -> nonempty key = true -> nonempty sha = true ->
  let s1 := record rid (ConsoleError [LStr (u "Repository directory not found")])
              (record rid (SetDelete key) (set_running (runningDeploys s ∖ {[key]}) s)) in
  exec rid (finally (deployFn cfg rt repo sha repoName key cwd) (Delete key Ret)) s
  = if truthy (TOKEN cfg) && truthy repo then
      suspend rid
        (PApi (fun r =>
           then_ (then_ (api_settled r) Ret Throw)
             (Delete key Ret) (fun e => Delete key (Throw e))))
        (record rid
           (HttpsRequest (u "POST") (u "/repos/" ++ tmpl repo ++ u "/statuses/" ++ sha)
              (u "Bearer " ++ tmpl (TOKEN cfg))
              (StatusBody (u "error") (slice_to 140 (u "Repository directory not found"))
                 (u "github-deploy")))
           s1)
    else
      record rid (SetDelete key) (set_running (runningDeploys s ∖ {[key]} ∖ {[key]}) s1).
Proof.
  intros Hc Hk Hs. unfold deployFn. ev.
  rewrite bool_decide_eq_false_2 by done. cbn [negb].
  unfold reportErrorAndCleanup, setStatus, callGitHub.
  cbn [truthy tmpl to_boolean to_string js_string js_value].
  rewrite Hk, Hs. cbn [negb orb].
  destruct (truthy repo); cbn [negb andb orb]; [|by rewrite andb_false_r].
  rewrite andb_true_r. destruct (truthy (TOKEN cfg)); done.
Qed.
End Lock.

(** ** A missing repository directory *)
Lemma run_boot_wf cfg rt existing evs : wf (run cfg rt (boot existing) evs).
Proof. apply run_wf, wf_boot. Qed.

Lemma statuses_app a b : statuses (a ++ b) = statuses a ++ statuses b.
Proof. apply omap_app. Qed.
Lemma comments_app a b : comments (a ++ b) = comments a ++ comments b.
Proof. apply omap_app. Qed.
Lemma spawns_app a b : spawns (a ++ b) = spawns a ++ spawns b.
Proof. apply omap_app. Qed.
Lemma locks_app a b : locks (a ++ b) = locks a ++ locks b.
Proof. apply omap_app. Qed.
Lemma responses_app a b : responses (a ++ b) = responses a ++ responses b.
Proof. apply omap_app. Qed.

Ltac norm_trace :=
  cbn [trace suspend record set_running set_lines set_handlers finish open_request];
  rewrite <- ?app_assoc; cbn [app fmap list_fmap].

(** C4, as the code has it.  A push that passes the filter and finds its
    lock free, for a repository whose directory [repos/<name>] does not
    exist: the handler answers 200, takes the lock before it checks the
    directory and gives it back in the same step, before anything is
    reported; it then sends one [error] status, "Repository directory not
    found", when a token is configured and the payload names the
    repository.  Whatever happens afterwards, the request adds no comment
    and spawns no process. *)
Theorem missing_directory_reports_error cfg rt existing evs1 req event evs2 :
  let s0 := run cfg rt (boot existing) evs1 in
  let rid := length (procs s0) in
  let key := deployKey_of event in
  let s1 := step cfg rt s0 (Incoming req) in
  let all := effects_of rid (trace (run cfg rt s0 (Incoming req :: evs2))) in
  delivers cfg rt req event -> deployable event = true ->
  key ∉ runningDeploys s0 -> cwd_of event ∉ dirs s0 ->
  trace s1 = trace s0 ++ (pair rid <$>
      [Respond 200 (u "ok"); ConsoleLog [LStr (push_message event)];
       SetAdd key; SetDelete key;
       ConsoleError [LStr (u "Repository directory not found")];
       if reporting cfg event
       then status_call cfg event (u "error") (u "Repository directory not found")
       else SetDelete key])
  /\ runningDeploys s1 = runningDeploys s0
  /\ statuses all =
       (if reporting cfg event
        then [(status_path event, u "error", u "Repository directory not found")]
        else [])
  /\ comments all = [] /\ spawns all = [].
Proof.
  intros s0 rid key s1 all Hd Hdep Hkey Hcwd.
  pose proof (run_boot_wf cfg rt existing evs1) as Hwf. fold s0 in Hwf.
  assert (Hs1 : s1 = exec rid (finally (deployFn cfg rt (repo_of event) (sha_of event)
                         (repoName_of event) key (cwd_of event)) (Delete key Ret))
                  (record rid (SetAdd key) (set_running ({[key]} ∪ runningDeploys s0)
                     (record rid (ConsoleLog [LStr (push_message event)])
                        (record rid (Respond 200 (u "ok")) (open_request s0)))))).
  { unfold s1. rewrite (step_delivers cfg rt s0 req event Hd (deployable_handled event Hdep)).
    rewrite exec_deployable by done. by rewrite exec_lock_free by done. }
  rewrite exec_deploy_missing in Hs1;
    [|done|apply nonempty_deployKey|by apply deployable_sha].
  cbv zeta in Hs1. fold (reporting cfg event) in Hs1.
  assert (Htrace : trace s1 = trace s0 ++ (pair rid <$>
      [Respond 200 (u "ok"); ConsoleLog [LStr (push_message event)];
       SetAdd key; SetDelete key;
       ConsoleError [LStr (u "Repository directory not found")];
       if reporting cfg event
       then status_call cfg event (u "error") (u "Repository directory not found")
       else SetDelete key])).
  { rewrite Hs1. destruct (reporting cfg event); norm_trace; reflexivity. }
  split; [exact Htrace|]. split.
  { rewrite Hs1. destruct (reporting cfg event);
      cbn [runningDeploys suspend record set_running open_request];
      first [by apply lock_given_back | by apply lock_given_back_twice]. }
  destruct (request_lifetime_from cfg rt quiet s0 req evs2 _ Hwf Htrace) as (rest & E & Hrest).
  { fold s1. rewrite Hs1. destruct (reporting cfg event).
    - apply stored_suspend; [intros _; cbn [always_pending]; unfold api_settled; always_tac|].
      repeat first [apply stored_record | apply stored_set_running]. by apply stored_fresh.
    - repeat first [apply stored_record | apply stored_set_running]. by apply stored_fresh. }
  fold rid all in E. rewrite E.
  destruct (quiet_projections rest Hrest) as (R1 & R2 & R3).
  rewrite statuses_app, comments_app, spawns_app, R1, R2, R3, !app_nil_r.
  destruct (reporting cfg event); done.
Qed.


Lemma nothing_nil rest : Forall (fun e => nothing e = true) rest -> rest = [].
Proof. destruct 1 as [|e rest He _]; [done|discriminate]. Qed.


(** ** The response of the webhook *)
Lemma no_response_responses tr :
  Forall (fun e => no_response e = true) tr -> responses tr = [].
Proof.
  unfold responses. induction 1 as [|e tr He _ IH]; [done|].
  destruct e; try done; cbn; by rewrite ?IH.
Qed.

Section Responses.
Context (cfg : Config) (rt : Runtime).

Lemma handle_event_no_response event : always no_response (handle_event cfg rt event).
Proof. unfold_handlers. always_tac. Qed.

Lemma on_catch_no_response raw err : always no_response (on_catch cfg rt raw err).
Proof. unfold_handlers. always_tac. Qed.

Lemma server_is_webhook req :
  is_log_request cfg req = false -> url_throws cfg req = false ->
  server cfg rt req = webhook cfg rt req.
Proof.
  unfold is_log_request, url_throws, server.
  destruct (bool_decide (method req = u "GET") && truthy (LOG_DIR cfg)); [|done].
  cbn [andb]. destruct (url_pathname req) as [pathname|]; [|done].
  destruct (filter _ _) as [|a [|b [|c l]]]; try done.
Qed.

Lemma server_url_throws req :
  url_throws cfg req = true -> server cfg rt req = Throw (url_error req).
Proof.
  unfold url_throws, server.
  destruct (bool_decide (method req = u "GET") && truthy (LOG_DIR cfg)); [|done].
  cbn [andb]. by destruct (url_pathname req) as [pathname|].
Qed.

(** The first step of the webhook answers once, and leaves nothing in
    flight that answers. *)
Lemma webhook_answers_once req rid s :
  stored_ok no_response rid s ->
  exists pre text post,
    trace (exec rid (webhook cfg rt req) s)
    = trace s ++ (pair rid <$> pre ++ [Respond (webhook_status cfg rt req) text] ++ post)
    /\ responses pre = [] /\ responses post = []
    /\ stored_ok no_response rid (exec rid (webhook cfg rt req) s).
Proof.
  intros Hs. unfold webhook, webhook_status.
  destruct (negb (bool_decide (method req = u "POST"))).
  { exists [], (u "Method Not Allowed"), []. unfold emit. ev. norm_trace.
    split; [done|]. split; [done|]. split; [done|]. by apply stored_record. }
  destruct (body req) as [chunks|err].
  2:{ eexists [_], (u "Bad Request"), []. unfold on_error. ev. norm_trace.
      split; [done|]. split; [done|]. split; [done|]. by repeat apply stored_record. }
  unfold on_end. cbv zeta.
  destruct (verify cfg rt (x_hub_signature_256 req) (concat chunks)); cbn [negb].
  2:{ eexists [_], (u "Unauthorized"), []. ev. norm_trace.
      split; [done|]. split; [done|]. split; [done|]. by repeat apply stored_record. }
  unfold try_catch, seq, emit. cbn [then_ exec].
  match goal with |- context [exec rid ?p (record rid ?e s)] =>
    assert (always no_response p) as Hp
  end.
  { apply always_then; [|constructor|apply on_catch_no_response].
    destruct (JSON_parse rt (concat chunks)); try (by constructor).
    apply handle_event_no_response. }
  match goal with |- context [exec rid ?p (record rid ?e s)] =>
    destruct (exec_always no_response p Hp rid (record rid e s)) as (post & E & Hpost)
  end.
  exists [], (u "ok"), post. rewrite E. cbn [record trace]. rewrite <- app_assoc.
  cbn [app fmap list_fmap].
  split; [done|]. split; [done|]. split; [by apply no_response_responses|].
  apply exec_later; [by apply always_later|]. by apply stored_record.
Qed.
End Responses.

(** C6, as the code has it.  Take a request that is not a GET for a log
    file.  If it is a GET, with LOG_DIR set, whose URL does not parse, the
    callback throws before it looks at the method and no response is ever
    sent.  Every other request gets exactly one response, whatever happens
    afterwards: 405 when the method is not POST, 400 when reading the body
    fails, 401 when the signature does not verify, and 200 otherwise. *)
Theorem webhook_response_status cfg rt existing evs1 req evs2 :
  let s0 := run cfg rt (boot existing) evs1 in
  let rid := length (procs s0) in
  let all := effects_of rid (trace (run cfg rt s0 (Incoming req :: evs2))) in
  is_log_request cfg req = false ->
  (url_throws cfg req = true ->
   all = [UnhandledRejection (url_error req)] /\ responses all = [])
  /\ (url_throws cfg req = false ->
      responses all = [webhook_status cfg rt req]
      /\ (webhook_status cfg rt req = 405 /\ method req <> u "POST"
          \/ webhook_status cfg rt req = 400 /\ (exists err, body req = BodyError err)
          \/ webhook_status cfg rt req = 401
             /\ (exists chunks, body req = BodyEnd chunks
                   /\ verify cfg rt (x_hub_signature_256 req) (concat chunks) = false)
          \/ webhook_status cfg rt req = 200
             /\ (exists chunks, body req = BodyEnd chunks
                   /\ verify cfg rt (x_hub_signature_256 req) (concat chunks) = true))).
Proof.
  intros s0 rid all Hlog.
  pose proof (run_boot_wf cfg rt existing evs1) as Hwf. fold s0 in Hwf.
  split.
  { intros Hurl.
    assert (step cfg rt s0 (Incoming req)
            = record rid (UnhandledRejection (url_error req)) (open_request s0)) as Hstep.
    { cbn [step]. by rewrite server_url_throws. }
    destruct (request_lifetime_from cfg rt nothing s0 req evs2
                [UnhandledRejection (url_error req)] Hwf)
      as (rest & Eall & Hrest); [by rewrite Hstep| |].
    { rewrite Hstep. apply stored_record. by apply stored_fresh. }
    fold rid all in Eall. rewrite Eall, (nothing_nil _ Hrest). done. }
  intros Hurl. split.
  - destruct (webhook_answers_once cfg rt req rid (open_request s0))
      as (pre & text & post & E & Hpre & Hpost & Hst); [by apply stored_fresh|].
    assert (step cfg rt s0 (Incoming req) = exec rid (webhook cfg rt req) (open_request s0))
      as Hstep by (cbn [step]; by rewrite server_is_webhook).
    destruct (request_lifetime_from cfg rt no_response s0 req evs2
                (pre ++ [Respond (webhook_status cfg rt req) text] ++ post) Hwf)
      as (rest & Eall & Hrest); [by rewrite Hstep|by rewrite Hstep|].
    fold rid all in Eall. rewrite Eall, !responses_app, Hpre, Hpost.
    by rewrite (no_response_responses _ Hrest).
  - unfold webhook_status. case_bool_decide as Hm; cbn [negb].
    + destruct (body req) as [chunks|err]; [|eauto 10].
      destruct (verify cfg rt (x_hub_signature_256 req) (concat chunks)) eqn:Hv; eauto 10.
    + eauto.
Qed.

(** ** A payload that does not parse *)
Lemma lookup_snoc {A} (l : list A) x : (l ++ [x]) !! length l = Some x.
Proof. by apply list_lookup_middle. Qed.

Lemma insert_snoc {A} (l : list A) x y : <[length l := y]> (l ++ [x]) = l ++ [y].
Proof.
  rewrite insert_app_r_alt by done. rewrite Nat.sub_diag. done.
Qed.



(** ** A failing git step *)
Lemma lookup_snoc_at {A} (l : list A) x n : n = length l -> (l ++ [x]) !! n = Some x.
Proof. intros ->. apply lookup_snoc. Qed.

Lemma insert_snoc_at {A} (l : list A) x y n :
  n = length l -> <[n := y]> (l ++ [x]) = l ++ [y].
Proof. intros ->. apply insert_snoc. Qed.

Ltac len := rewrite ?length_app; cbn [length]; lia.

Lemma trace_records rid l s : trace (records rid l s) = trace s ++ (pair rid <$> l).
Proof.
  revert s. induction l as [|e l IH]; intros s; [by rewrite app_nil_r|].
  cbn [records foldl]. fold (records rid l (record rid e s)). rewrite IH.
  cbn [record trace fmap list_fmap]. by rewrite <- app_assoc.
Qed.

Lemma records_fields rid l s :
  runningDeploys (records rid l s) = runningDeploys s
  /\ dirs (records rid l s) = dirs s /\ tasks (records rid l s) = tasks s
  /\ lines (records rid l s) = lines s /\ procs (records rid l s) = procs s.
Proof.
  revert s. induction l as [|e l IH]; intros s; [done|].
  cbn [records foldl]. fold (records rid l (record rid e s)).
  destruct (IH (record rid e s)) as (-> & -> & -> & -> & ->). done.
Qed.

Lemma tasks_records rid l s : tasks (records rid l s) = tasks s.
Proof. apply records_fields. Qed.

Lemma runningDeploys_records rid l s : runningDeploys (records rid l s) = runningDeploys s.
Proof. apply records_fields. Qed.

Lemma sync_api_settled r : sync (api_settled r).
Proof. destruct r; repeat constructor. Qed.

Lemma exec_api_settled rid r s : exec rid (api_settled r) s = records rid (api_error_log r) s.
Proof. by destruct r. Qed.

Lemma exec_then2_sync p :
  sync p -> forall rid k1 t1 k2 t2 s,
  exec rid (then_ (then_ p k1 t1) k2 t2) s = exec rid (then_ k1 k2 t2) (exec rid p s).
Proof. induction 1; intros; cbn [then_ exec]; auto. Qed.

Lemma exec_then3_sync p :
  sync p -> forall rid k1 t1 k2 t2 k3 t3 s,
  exec rid (then_ (then_ (then_ p k1 t1) k2 t2) k3 t3) s
  = exec rid (then_ (then_ k1 k2 t2) k3 t3) (exec rid p s).
Proof. induction 1; intros; cbn [then_ exec]; auto. Qed.

Lemma exec_then4_sync p :
  sync p -> forall rid k1 t1 k2 t2 k3 t3 k4 t4 s,
  exec rid (then_ (then_ (then_ (then_ p k1 t1) k2 t2) k3 t3) k4 t4) s
  = exec rid (then_ (then_ (then_ k1 k2 t2) k3 t3) k4 t4) (exec rid p s).
Proof. induction 1; intros; cbn [then_ exec]; auto. Qed.

Ltac evr := ev; repeat (rewrite runningDeploys_records; ev).

Ltac api_done :=
  first [ rewrite exec_then4_sync by apply sync_api_settled
        | rewrite exec_then3_sync by apply sync_api_settled
        | rewrite exec_then2_sync by apply sync_api_settled
        | rewrite exec_then_sync by apply sync_api_settled ];
  rewrite exec_api_settled; evr.

Lemma effects_of_single rid e : effects_of rid [(rid, e)] = [e].
Proof. apply (effects_of_same rid [e]). Qed.

Lemma statuses_api_error_log r : statuses (api_error_log r) = [].
Proof. by destruct r. Qed.
Lemma comments_api_error_log r : comments (api_error_log r) = [].
Proof. by destruct r. Qed.
Lemma spawns_api_error_log r : spawns (api_error_log r) = [].
Proof. by destruct r. Qed.
Lemma locks_api_error_log r : locks (api_error_log r) = [].
Proof. by destruct r. Qed.

Ltac trace_of :=
  repeat first
    [ progress cbn [trace suspend record set_running set_lines set_handlers retire open_request]
    | rewrite trace_records ];
  rewrite <- ?app_assoc.

Ltac effects :=
  rewrite ?effects_of_app, ?effects_of_single, ?effects_of_same.

Lemma git_settled_failed rt o : git_failed o = true -> git_settled rt o = Throw (git_error rt o).
Proof. destruct o as [[[]|]|]; done. Qed.

Lemma git_settled_ok rt o : git_failed o = false -> git_settled rt o = Ret.
Proof. destruct o as [[[]|]|]; done. Qed.

Ltac ev ::=
  cbn [exec then_ seq try_catch finally log emit forEach foldr
       record suspend set_running set_lines set_handlers finish open_request retire
       trace tasks lines procs dirs runningDeploys negb andb orb fst snd].

Section Completion.
Context (cfg : Config) (rt : Runtime).

(** The operation awaited last completes. *)
Lemma step_complete_last rid w s tid a p :
  tid = length (tasks s) -> resume w a = Some p ->
  step cfg rt (suspend rid w s) (Complete tid a) = exec rid p (retire rid s).
Proof.
  intros -> Hr. cbn [step suspend tasks]. rewrite lookup_snoc, Hr. f_equal.
  unfold finish, retire. cbn [suspend tasks runningDeploys dirs trace lines procs].
  by rewrite insert_snoc.
Qed.
End Completion.

Ltac complete_step :=
  erewrite step_complete_last;
    [|repeat first [rewrite tasks_records | progress ev]; len|reflexivity].

Ltac ev_in E :=
  cbn [exec then_ seq try_catch finally log emit forEach foldr
       record suspend set_running set_lines set_handlers finish open_request retire
       trace tasks lines procs dirs runningDeploys negb andb orb fst snd] in E.

Ltac evr_in E := ev_in E; repeat (rewrite runningDeploys_records in E; ev_in E).

Ltac complete_in E :=
  erewrite step_complete_last in E;
    [|repeat first [rewrite tasks_records | progress ev]; len|reflexivity].

Ltac api_done_in E :=
  first [ rewrite exec_then4_sync in E by apply sync_api_settled
        | rewrite exec_then3_sync in E by apply sync_api_settled
        | rewrite exec_then2_sync in E by apply sync_api_settled
        | rewrite exec_then_sync in E by apply sync_api_settled ];
  rewrite exec_api_settled in E; evr_in E.

Lemma slice_short {A} (n : N) (l : list A) :
  (length l <= N.to_nat n)%nat -> slice_to n l = l.
Proof. intros H. unfold slice_to. by apply take_ge. Qed.

Ltac projections :=
  rewrite ?statuses_app, ?comments_app, ?spawns_app, ?locks_app,
    ?statuses_api_error_log, ?comments_api_error_log, ?spawns_api_error_log,
    ?locks_api_error_log.

(** C3, as the code has it.  When the fetch or the checkout of a deploy
    fails, the request has by then reported [pending]: the statuses it
    sends are [pending] and then a single [error], "Git fetch/checkout
    failed", followed by one comment with the text of the failure; only git
    has been spawned and the lock is released.  In every run, whatever the
    event loop interleaves, no status of a request comes before its
    [pending] status. *)
Theorem git_failure_reports_pending_then_error cfg rt existing evs1 req evs2 :
  let s0 := run cfg rt (boot existing) evs1 in
  let rid := length (procs s0) in
  let t0 := length (tasks s0) in
  (forall event fetch checkout r0 r1 r2,
    let key := deployKey_of event in
    let isolated :=
      run cfg rt s0
        (if git_failed fetch then
           [Incoming req; Complete t0 (AnsApi r0); Complete (t0 + 1) (AnsGit fetch);
            Complete (t0 + 2) (AnsApi r1); Complete (t0 + 3) (AnsApi r2)]
         else
           [Incoming req; Complete t0 (AnsApi r0); Complete (t0 + 1) (AnsGit fetch);
            Complete (t0 + 2) (AnsGit checkout);
            Complete (t0 + 3) (AnsApi r1); Complete (t0 + 4) (AnsApi r2)]) in
    let failure := git_error rt (if git_failed fetch then fetch else checkout) in
    let fetched := (u "git", [u "fetch"; u "origin"; sha_of event], cwd_of event) in
    let checked_out := (u "git", [u "checkout"; u "FETCH_HEAD"], cwd_of event) in
    delivers cfg rt req event -> deployable event = true ->
    key ∉ runningDeploys s0 -> cwd_of event ∈ dirs s0 ->
    reporting cfg event = true ->
    git_failed fetch = true \/ git_failed checkout = true ->
    statuses (effects_of rid (trace isolated))
    = [(status_path event, u "pending", u "Deploy started");
       (status_path event, u "error", u "Git fetch/checkout failed")]
    /\ comments (effects_of rid (trace isolated))
      = [(comment_path event,
          slice_to 65536 (siren_sign ++ u " Git fetch/checkout failed:" ++ [nl; nl]
                          ++ fence (message_or_error failure)))]
    /\ spawns (effects_of rid (trace isolated))
      = (if git_failed fetch then [fetched] else [fetched; checked_out])
    /\ runningDeploys isolated = runningDeploys s0)
  /\ (forall i j e e',
       let all := effects_of rid (trace (run cfg rt s0 (Incoming req :: evs2))) in
       all !! i = Some e -> status_of e <> None ->
       all !! j = Some e' -> is_status (u "pending") e' = true ->
       (j <= i)%nat).
Proof.
  intros s0 rid t0. subst rid t0.
  pose proof (run_boot_wf cfg rt existing evs1) as Hwf. fold s0 in Hwf.
  split.
  - intros event fetch checkout r0 r1 r2 key isolated failure fetched checked_out
      Hd Hdep Hkey Hcwd Hrep Hfail.
    apply andb_true_iff in Hrep as [Htok Hrepo].
    pose proof (deployable_sha event Hdep) as Hsha.
    pose proof (effects_of_fresh s0 Hwf) as Hfresh.
    assert (Hset : ({[key]} ∪ runningDeploys s0) ∖ {[key]} ∖ {[key]} = runningDeploys s0)
      by (by apply lock_given_back_twice).
    unfold failure, fetched, checked_out, status_path, comment_path.
    remember isolated as fin eqn:E. unfold isolated in E. clear isolated.
    destruct (git_failed fetch) eqn:Hf.
    + cbn [run foldl] in E.
      rewrite (step_delivers cfg rt s0 req event Hd (deployable_handled event Hdep)) in E.
      rewrite exec_deployable in E by done. rewrite exec_lock_free in E by done.
      unfold deployFn in E. ev_in E. rewrite bool_decide_eq_true_2 in E by done.
      unfold setStatus at 1, callGitHub at 1 in E. values_in E.
      rewrite Hsha, Htok, Hrepo in E. ev_in E.
      complete_in E. api_done_in E.
      unfold runGit at 1 in E. ev_in E.
      complete_in E.
      rewrite git_settled_failed in E by done. ev_in E.
      unfold reportErrorAndCleanup, setStatus, addComment, callGitHub in E.
      values_in E. rewrite Hsha, Htok, Hrepo, nonempty_deployKey in E.
      change (nonempty (siren_sign ++ ?x)) with true in E. evr_in E.
      complete_in E. api_done_in E.
      complete_in E. api_done_in E.
      rewrite E. clear E.
      split; [|split; [|split]]; [trace_of; effects; rewrite Hfresh; projections; reflexivity..|].
      evr. exact Hset.
    + destruct Hfail as [?|Hc]; [done|]. cbn [run foldl] in E.
      rewrite (step_delivers cfg rt s0 req event Hd (deployable_handled event Hdep)) in E.
      rewrite exec_deployable in E by done. rewrite exec_lock_free in E by done.
      unfold deployFn in E. ev_in E. rewrite bool_decide_eq_true_2 in E by done.
      unfold setStatus at 1, callGitHub at 1 in E. values_in E.
      rewrite Hsha, Htok, Hrepo in E. ev_in E.
      complete_in E. api_done_in E.
      unfold runGit at 1 in E. ev_in E.
      complete_in E.
      rewrite git_settled_ok in E by done. ev_in E.
      unfold runGit at 1 in E. ev_in E.
      complete_in E.
      rewrite git_settled_failed in E by done. ev_in E.
      unfold reportErrorAndCleanup, setStatus, addComment, callGitHub in E.
      values_in E. rewrite Hsha, Htok, Hrepo, nonempty_deployKey in E.
      change (nonempty (siren_sign ++ ?x)) with true in E. evr_in E.
      complete_in E. api_done_in E.
      complete_in E. api_done_in E.
      rewrite E. clear E.
      split; [|split; [|split]]; [trace_of; effects; rewrite Hfresh; projections; reflexivity..|].
      evr. exact Hset.
  - intros i j e e' all.
    destruct (request_lifetime cfg rt no_pending s0 req evs2 Hwf)
      as (first & rest & Hfirst & Hall & Hrest).
    { apply pf_later, server_pending_first. }
    destruct (exec_pending_first _ (server_pending_first cfg rt req)
                (length (procs s0)) (open_request s0))
      as (first' & Hfirst' & Hpf).
    assert (first' = first) as ->.
    { cbn [step] in Hfirst. rewrite Hfirst' in Hfirst.
      cbn [open_request trace] in Hfirst. apply app_inv_head in Hfirst.
      revert Hfirst. clear. revert first. induction first' as [|x l IH]; intros [|y l'] H;
        try done. injection H as -> H. f_equal. by apply IH. }
    unfold all. rewrite Hall.
    apply pending_first_trace_order. by apply pending_first_trace_app.
Qed.

(** ** From the request to the spawn of [just] *)

Lemma lookup_fresh_handlers (l : list (option Handlers)) h :
  <[length l := Some h]> (l ++ [None]) !! length l = Some (Some h).
Proof. apply list_lookup_insert_eq. rewrite length_app. cbn. lia. Qed.

Lemma lookup_fresh_lines (l : list (list jsstring)) : (l ++ [[]]) !! length l = Some [].
Proof. apply lookup_snoc. Qed.

Lemma procs_records rid l s : procs (records rid l s) = procs s.
Proof. apply records_fields. Qed.
Lemma lines_records rid l s : lines (records rid l s) = lines s.
Proof. apply records_fields. Qed.
Lemma dirs_records rid l s : dirs (records rid l s) = dirs s.
Proof. apply records_fields. Qed.

Ltac fields_of :=
  repeat first
    [ progress cbn [trace tasks lines procs dirs runningDeploys
                    suspend record set_running set_lines set_handlers retire open_request]
    | rewrite procs_records | rewrite lines_records | rewrite dirs_records
    | rewrite runningDeploys_records | rewrite tasks_records ].

Lemma no_pending_suffix s0 suffix tid w :
  wf s0 -> Forall (fun t : nat * option Pending => t.2 = None) suffix ->
  (tasks s0 ++ suffix) !! tid = Some (length (procs s0), Some w) -> False.
Proof.
  intros (Ht & _) Hsuf Hl. apply lookup_app_Some in Hl as [Hl|[_ Hl]].
  - specialize (Ht _ _ _ Hl). lia.
  - rewrite Forall_forall in Hsuf. apply list_elem_of_lookup_2 in Hl.
    by specialize (Hsuf _ Hl).
Qed.

Lemma runningDeploys_record rid e s : runningDeploys (record rid e s) = runningDeploys s.
Proof. reflexivity. Qed.

Lemma runningDeploys_retire rid s : runningDeploys (retire rid s) = runningDeploys s.
Proof. reflexivity. Qed.

Lemma runningDeploys_set_running X s : runningDeploys (set_running X s) = X.
Proof. reflexivity. Qed.

Lemma runningDeploys_set_handlers rid h s :
  runningDeploys (set_handlers rid h s) = runningDeploys s.
Proof. reflexivity. Qed.

Lemma runningDeploys_open_request s : runningDeploys (open_request s) = runningDeploys s.
Proof. reflexivity. Qed.

Ltac running :=
  repeat first [ rewrite runningDeploys_records
               | rewrite runningDeploys_retire
               | rewrite runningDeploys_record
               | rewrite runningDeploys_set_handlers
               | rewrite runningDeploys_set_running
               | rewrite runningDeploys_open_request ].

(** Evaluation of the program only: the fields of the state stay folded. *)
Ltac run_in E :=
  cbn [exec then_ seq try_catch finally log emit forEach foldr negb andb orb fst snd] in E.

Ltac api_run_in E :=
  first [ rewrite exec_then4_sync in E by apply sync_api_settled
        | rewrite exec_then3_sync in E by apply sync_api_settled
        | rewrite exec_then2_sync in E by apply sync_api_settled
        | rewrite exec_then_sync in E by apply sync_api_settled ];
  rewrite exec_api_settled in E; run_in E.

Section Launch.
Context (cfg : Config) (rt : Runtime).

Lemma deploy_launches existing evs1 req event r0 out1 out2 :
  let s0 := run cfg rt (boot existing) evs1 in
  let rid := length (procs s0) in
  let key := deployKey_of event in
  let s := run cfg rt s0 (Incoming req :: launch_events cfg event (length (tasks s0)) r0 out1 out2) in
  delivers cfg rt req event -> deployable event = true ->
  key ∉ runningDeploys s0 -> cwd_of event ∈ dirs s0 ->
  (truthy (LOG_DIR cfg) = true -> exists n, repoName_of event = Val (Str n)) ->
  launched cfg event (log_stream cfg rt event) rid s
  /\ lines s !! rid = Some []
  /\ runningDeploys s = runningDeploys s0
  /\ statuses (effects_of rid (trace s))
     = (if reporting cfg event
        then [(status_path event, u "pending", u "Deploy started")] else [])
  /\ comments (effects_of rid (trace s)) = []
  /\ spawns (effects_of rid (trace s)) = [git_fetch event; git_checkout event; just_deploy event]
  /\ locks (effects_of rid (trace s)) = [(true, key); (false, key)]
  /\ (forall tid w, tasks s !! tid = Some (rid, Some w) -> False).
Proof.
  intros s0 rid key s Hd Hdep Hkey Hcwd Hname. subst rid.
  pose proof (run_boot_wf cfg rt existing evs1) as Hwf. fold s0 in Hwf.
  pose proof (deployable_sha event Hdep) as Hsha.
  pose proof (effects_of_fresh s0 Hwf) as Hfresh.
  assert (Hset : ({[key]} ∪ runningDeploys s0) ∖ {[key]} = runningDeploys s0)
    by (by apply lock_given_back).
  assert (Hlen : length (lines s0) = length (procs s0)) by apply Hwf.
  unfold status_path, git_fetch, git_checkout, just_deploy, launched, deploy_handlers.
  remember s as fin eqn:E. unfold s, launch_events, log_stream in *. clear s. clearbody s0.
  unfold reporting in *.
  destruct (truthy (TOKEN cfg)) eqn:Htok, (truthy (repo_of event)) eqn:Hrepo,
    (truthy (LOG_DIR cfg)) eqn:Hlog;
    cbn [andb app run foldl] in E;
    rewrite (step_delivers cfg rt s0 req event Hd (deployable_handled event Hdep)) in E;
    rewrite exec_deployable in E by done; rewrite exec_lock_free in E by done;
    unfold deployFn in E; run_in E; rewrite bool_decide_eq_true_2 in E by done;
    unfold setStatus at 1, callGitHub at 1 in E; values_in E;
    rewrite ?Hsha, ?Htok, ?Hrepo, ?Hlog in E; run_in E.
  all: try (complete_in E; api_run_in E).
  all: unfold runGit at 1 in E; run_in E; complete_in E; cbn [git_settled] in E; run_in E.
  all: unfold runGit at 1 in E; run_in E; complete_in E; cbn [git_settled] in E; run_in E.
  all: try (destruct Hname as [n Hn]; [done|]; rewrite Hn in E; run_in E;
            complete_in E; run_in E).
  all: rewrite E; clear E.
  all: try rewrite Hn.
  all: split; [fields_of; by rewrite lookup_fresh_handlers|].
  all: split; [fields_of; rewrite <- Hlen; by apply lookup_fresh_lines|].
  all: split; [running; exact Hset|].
  all: split; [trace_of; effects; rewrite Hfresh; projections; reflexivity|].
  all: split; [trace_of; effects; rewrite Hfresh; projections; reflexivity|].
  all: split; [trace_of; effects; rewrite Hfresh; projections; reflexivity|].
  all: split; [trace_of; effects; rewrite Hfresh; projections; reflexivity|].
  all: intros tid w Hl.
  all: (cbn [tasks suspend record set_running set_lines set_handlers retire open_request] in Hl).
  all: (rewrite ?tasks_records in Hl).
  all: (cbn [tasks suspend record set_running set_lines set_handlers retire open_request] in Hl).
  all: rewrite <- ?app_assoc in Hl.
  all: eapply no_pending_suffix; [exact Hwf| |exact Hl].
  all: cbn [app]; repeat (apply Forall_cons_2; [reflexivity|]); apply Forall_nil_2.
Qed.
End Launch.

(** ** The end of the deploy process *)

Lemma get_lines_retire rid rid' s : get_lines rid (retire rid' s) = get_lines rid s.
Proof. reflexivity. Qed.

Lemma get_lines_records rid rid' l s : get_lines rid (records rid' l s) = get_lines rid s.
Proof. unfold get_lines. by rewrite lines_records. Qed.

Lemma get_lines_suspend rid rid' w s : get_lines rid (suspend rid' w s) = get_lines rid s.
Proof. reflexivity. Qed.

Lemma get_lines_set_running rid X s : get_lines rid (set_running X s) = get_lines rid s.
Proof. reflexivity. Qed.

Ltac lines_in E :=
  repeat first [ rewrite get_lines_records in E | rewrite get_lines_retire in E
               | rewrite get_lines_record in E | rewrite get_lines_suspend in E
               | rewrite get_lines_set_running in E ].

Lemma step_unknown_task cfg rt s tid a : tasks s !! tid = None -> step cfg rt s (Complete tid a) = s.
Proof. intros H. cbn [step]. by rewrite H. Qed.

Section Outcome.
Context (cfg : Config) (rt : Runtime).

Lemma step_close event logStream rid s code :
  launched cfg event logStream rid s ->
  step cfg rt s (ProcClose rid code)
  = exec rid (onClose cfg (repo_of event) (sha_of event) logStream code) s.
Proof. intros H. cbn [step]. by rewrite H. Qed.

Lemma step_proc_error event logStream rid s err :
  launched cfg event logStream rid s ->
  step cfg rt s (ProcError rid err)
  = exec rid (onError cfg (repo_of event) (sha_of event) (deployKey_of event) err) s.
Proof. intros H. cbn [step]. by rewrite H. Qed.

Lemma is_zero_true code : is_zero code = true -> code = Some 0%Z.
Proof. by destruct code as [[| |]|]. Qed.

Lemma is_zero_false code : code <> Some 0%Z -> is_zero code = false.
Proof. by destruct code as [[| |]|]. Qed.

(** C7, as the code has it.  The deploy process of request [rid] has been
    launched for an event whose status calls are made.  When the process
    closes with exit code 0 the request reports the status [success],
    "Deploy complete", and adds no comment.  When it closes with any other
    code (or on a signal) the request reports [failure], "Deploy failed",
    and then adds one comment: the exit code and, fenced as a code block,
    the last 20 lines of the rolling buffer.  When the process fails to
    start, the [error] handler gives the lock back, reports [error],
    "Deploy process failed to start", and adds one comment with the message
    of the launch error, fenced.  That status is not the last one: the
    [close] event that follows the [error] of a failed launch runs the
    same [close] handler, which reports [failure] after [error] and adds a
    second comment.  No further process is spawned. *)
Theorem deploy_outcome_is_reported event logStream rid s code err r1 r2 r3 r4 :
  let t := length (tasks s) in
  let answers := [Complete t (AnsApi r1); Complete (S t) (AnsApi r2)] in
  let closed := run cfg rt s (ProcClose rid code :: answers) in
  let failed := run cfg rt s (ProcError rid err :: answers) in
  let failed_closed :=
    run cfg rt failed
      [ProcClose rid code; Complete (S (S t)) (AnsApi r3); Complete (S (S (S t))) (AnsApi r4)] in
  let before := effects_of rid (trace s) in
  let failure_comment :=
    (comment_path event,
     slice_to 65536
       (siren_sign ++ u " Deploy failed (exit code: " ++ code_string code ++ u ")"
        ++ [nl; nl] ++ u "```" ++ [nl] ++ join [nl] (slice_last 20 (get_lines rid s))
        ++ [nl] ++ u "```")) in
  let launch_comment :=
    (comment_path event,
     slice_to 65536
       (siren_sign ++ u " Deploy process failed to start:" ++ [nl; nl]
        ++ u "```" ++ [nl] ++ message err ++ [nl] ++ u "```")) in
  launched cfg event logStream rid s ->
  reporting cfg event = true -> nonempty (sha_of event) = true ->
  (code = Some 0%Z ->
   statuses (effects_of rid (trace closed))
   = statuses before ++ [(status_path event, u "success", u "Deploy complete")]
   /\ comments (effects_of rid (trace closed)) = comments before)
  /\ (code <> Some 0%Z ->
      statuses (effects_of rid (trace closed))
      = statuses before ++ [(status_path event, u "failure", u "Deploy failed")]
      /\ comments (effects_of rid (trace closed)) = comments before ++ [failure_comment])
  /\ spawns (effects_of rid (trace closed)) = spawns before
  /\ statuses (effects_of rid (trace failed))
     = statuses before
       ++ [(status_path event, u "error", u "Deploy process failed to start")]
  /\ comments (effects_of rid (trace failed)) = comments before ++ [launch_comment]
  /\ spawns (effects_of rid (trace failed)) = spawns before
  /\ runningDeploys failed = runningDeploys s ∖ {[deployKey_of event]}
  /\ (code <> Some 0%Z ->
      statuses (effects_of rid (trace failed_closed))
      = statuses before
        ++ [(status_path event, u "error", u "Deploy process failed to start");
            (status_path event, u "failure", u "Deploy failed")]
      /\ comments (effects_of rid (trace failed_closed))
         = comments before ++ [launch_comment; failure_comment]
      /\ spawns (effects_of rid (trace failed_closed)) = spawns before).
Proof.
  intros t answers closed failed failed_closed before failure_comment launch_comment
    Hl Hrep Hsha.
  subst t answers before failure_comment launch_comment.
  fold (fence (join [nl] (slice_last 20 (get_lines rid s)))). fold (fence (message err)).
  apply andb_true_iff in Hrep as [Htok Hrepo].
  unfold status_path, comment_path.
  assert (Hclosed : exists fin, fin = closed) by eauto.
  assert (Hfailed : exists fin, fin = failed) by eauto.
  assert (Hboth : exists fin, fin = failed_closed) by eauto.
  destruct Hclosed as [c Ec], Hfailed as [f Ef], Hboth as [fc Efc].
  rewrite <- Ec, <- Efc, <- Ef. unfold failed_closed in Efc. rewrite <- Ef in Efc.
  unfold closed in Ec. unfold failed in Ef. clear closed failed failed_closed.
  cbn [run foldl] in Ec, Ef, Efc.
  rewrite (step_close event logStream rid s code Hl) in Ec.
  rewrite (step_proc_error event logStream rid s err Hl) in Ef.
  (* the launch error *)
  unfold onError, reportErrorAndCleanup in Ef.
  values_in Ef.
  assert (Hkey : nonempty (deployKey_of event) = true) by apply nonempty_deployKey.
  assert (Hbody : forall x : jsstring, nonempty (siren_sign ++ x) = true) by (intros; reflexivity).
  rewrite Hkey, Hbody in Ef. run_in Ef.
  unfold setStatus at 1, callGitHub at 1 in Ef;
    values_in Ef.
  rewrite ?Hsha, ?Htok, ?Hrepo in Ef. run_in Ef.
  complete_in Ef. api_run_in Ef.
  unfold addComment at 1, callGitHub at 1 in Ef;
    values_in Ef.
  rewrite ?Hsha, ?Htok, ?Hrepo in Ef. run_in Ef.
  complete_in Ef. rewrite exec_api_settled in Ef.
  (* the close after the launch error *)
  assert (Hlf : launched cfg event logStream rid f).
  { rewrite Ef. unfold launched. fields_of. exact Hl. }
  rewrite (step_close event logStream rid f code Hlf) in Efc. clear Hlf.
  rewrite Ef in Efc.
  (* the close *)
  unfold onClose in Ec, Efc.
  destruct (is_zero code) eqn:Hz, logStream as [path|]; run_in Ec; run_in Efc.
  all: unfold setStatus at 1, callGitHub at 1 in Ec;
       values_in Ec;
       rewrite ?Hsha, ?Htok, ?Hrepo in Ec; run_in Ec.
  all: complete_in Ec; api_run_in Ec.
  1,2: rewrite step_unknown_task in Ec
         by (rewrite tasks_records; cbn [tasks retire record]; apply lookup_ge_None_2; len).
  3,4: unfold addComment at 1, callGitHub at 1 in Ec;
       values_in Ec;
       rewrite ?Hsha, ?Htok, ?Hrepo in Ec; run_in Ec; lines_in Ec;
       complete_in Ec; rewrite exec_api_settled in Ec.
  3,4: unfold setStatus at 1, callGitHub at 1 in Efc;
       values_in Efc;
       rewrite ?Hsha, ?Htok, ?Hrepo in Efc; run_in Efc;
       complete_in Efc; api_run_in Efc;
       unfold addComment at 1, callGitHub at 1 in Efc;
       values_in Efc;
       rewrite ?Hsha, ?Htok, ?Hrepo in Efc; run_in Efc; lines_in Efc;
       complete_in Efc; rewrite exec_api_settled in Efc.
  1,2: clear Efc; apply is_zero_true in Hz.
  all: rewrite Ec, Ef; clear Ec Ef.
  1,2: split; [intros _; split; trace_of; effects; projections; rewrite ?app_nil_r;
                 reflexivity|].
  1,2: split; [intros Hne; contradiction|].
  3,4: split; [intros ->; discriminate Hz|].
  3,4: split; [intros _; split; trace_of; effects; projections; rewrite ?app_nil_r;
                 reflexivity|].
  all: do 4 (split; [trace_of; effects; projections; rewrite ?app_nil_r; reflexivity|]).
  all: split; [running; reflexivity|].
  1,2: intros Hne; contradiction.
  all: intros _; rewrite Efc; clear Efc.
  all: repeat split; trace_of; effects; projections; rewrite ?app_nil_r; reflexivity.
Qed.
End Outcome.

(** ** Directories, keys and the lock across requests *)

Lemma exec_dirs p : forall rid s, dirs (exec rid p s) = dirs s.
Proof.
  induction p; intros rid s; cbn [exec]; try done.
  all: try (by rewrite IHp).
  by rewrite IHp2, IHp1.
Qed.

Lemma runningDeploys_suspend rid w s : runningDeploys (suspend rid w s) = runningDeploys s.
Proof. reflexivity. Qed.

Lemma main_master_keys (f1 f2 : jsstring) : f1 ++ u ":" ++ u "main" <> f2 ++ u ":" ++ u "master".
Proof.
  intros H. apply (f_equal reverse) in H. rewrite !reverse_app in H.
  change (reverse (u "main")) with ([110; 105; 97; 109] : jsstring) in H.
  change (reverse (u "master")) with ([114; 101; 116; 115; 97; 109] : jsstring) in H.
  discriminate H.
Qed.

Lemma deployable_branch event :
  deployable event = true -> branch_of event = u "main" \/ branch_of event = u "master".
Proof.
  unfold deployable. intros H. apply andb_true_iff in H as [_ H].
  apply orb_true_iff in H as [H|H]; apply bool_decide_eq_true_1 in H; auto.
Qed.

Lemma deployKey_distinct e1 e2 f1 f2 :
  deployable e1 = true -> deployable e2 = true ->
  repo_of e1 = Val (Str f1) -> repo_of e2 = Val (Str f2) -> f1 <> f2 ->
  deployKey_of e1 <> deployKey_of e2.
Proof.
  intros H1 H2 E1 E2 Hne. unfold deployKey_of. rewrite E1, E2.
  cbn [tmpl to_string js_value].
  destruct (deployable_branch e1 H1) as [->| ->], (deployable_branch e2 H2) as [->| ->];
    intros H.
  - by apply app_inv_tail in H.
  - by apply main_master_keys in H.
  - symmetry in H. by apply main_master_keys in H.
  - by apply app_inv_tail in H.
Qed.

Section Across.
Context (cfg : Config) (rt : Runtime).

Lemma step_dirs s ev : dirs (step cfg rt s ev) = dirs s.
Proof.
  destruct ev as [req|tid a|rid data|rid code|rid err]; cbn [step].
  - by rewrite exec_dirs.
  - destruct (tasks s !! tid) as [[rid [w|]]|]; try done.
    destruct (resume w a); [|done]. by rewrite exec_dirs.
  - destruct (procs s !! rid) as [[h|]|]; try done. by rewrite exec_dirs.
  - destruct (procs s !! rid) as [[h|]|]; try done. by rewrite exec_dirs.
  - destruct (procs s !! rid) as [[h|]|]; try done. by rewrite exec_dirs.
Qed.

Lemma run_dirs evs : forall s, dirs (run cfg rt s evs) = dirs s.
Proof.
  induction evs as [|ev evs IH]; intros s; [done|].
  cbn [run foldl]. fold (run cfg rt (step cfg rt s ev) evs). by rewrite IH, step_dirs.
Qed.

(** The first step of a deploy stops at its first [await], with the
    lock held. *)
Lemma step_holds_lock s req event :
  delivers cfg rt req event -> deployable event = true ->
  deployKey_of event ∉ runningDeploys s -> cwd_of event ∈ dirs s ->
  runningDeploys (step cfg rt s (Incoming req)) = {[deployKey_of event]} ∪ runningDeploys s.
Proof.
  intros Hd Hdep Hkey Hcwd.
  pose proof (deployable_sha event Hdep) as Hsha.
  remember (step cfg rt s (Incoming req)) as fin eqn:E.
  rewrite (step_delivers cfg rt s req event Hd (deployable_handled event Hdep)) in E.
  rewrite exec_deployable in E by done. rewrite exec_lock_free in E by done.
  unfold deployFn in E. run_in E. rewrite bool_decide_eq_true_2 in E by done.
  unfold setStatus at 1, callGitHub at 1 in E. values_in E.
  rewrite Hsha in E.
  destruct (truthy (TOKEN cfg)), (truthy (repo_of event)); run_in E.
  2-4: unfold runGit at 1 in E; run_in E.
  all: rewrite E; running; rewrite ?runningDeploys_suspend; running; reflexivity.
Qed.
End Across.

Lemma spawns_elem tr cmd args cwd : (cmd, args, cwd) ∈ spawns tr -> Spawn cmd args cwd ∈ tr.
Proof.
  unfold spawns. rewrite list_elem_of_omap. intros (e & He & Hs).
  destruct e; try discriminate. by injection Hs as -> -> ->.
Qed.

Lemma effects_of_elem rid e tr : e ∈ effects_of rid tr -> (rid, e) ∈ tr.
Proof.
  unfold effects_of. rewrite list_elem_of_fmap. intros ([r e'] & -> & H).
  apply list_elem_of_filter in H as [Hr H]. cbn in Hr. by subst r.
Qed.

Section TwoRequests.
Context (cfg : Config) (rt : Runtime).

Lemma step_trace s ev : exists tr, trace (step cfg rt s ev) = trace s ++ tr.
Proof.
  destruct ev as [req|tid a|rid data|rid code|rid err]; cbn [step].
  - destruct (exec_trace (server cfg rt req) (length (procs s)) (open_request s)) as [tr ->].
    by eexists.
  - destruct (tasks s !! tid) as [[rid [w|]]|]; try (by exists []; rewrite app_nil_r).
    destruct (resume w a) as [p|]; [|by exists []; rewrite app_nil_r].
    destruct (exec_trace p rid (finish tid rid s)) as [tr ->]. by eexists.
  - destruct (procs s !! rid) as [[h|]|]; try (by exists []; rewrite app_nil_r).
    destruct (exec_trace (on_data h data) rid s) as [tr ->]. by eexists.
  - destruct (procs s !! rid) as [[h|]|]; try (by exists []; rewrite app_nil_r).
    destruct (exec_trace (on_close h code) rid s) as [tr ->]. by eexists.
  - destruct (procs s !! rid) as [[h|]|]; try (by exists []; rewrite app_nil_r).
    destruct (exec_trace (on_proc_error h err) rid s) as [tr ->]. by eexists.
Qed.

Lemma run_trace evs : forall s, exists tr, trace (run cfg rt s evs) = trace s ++ tr.
Proof.
  induction evs as [|ev evs IH]; intros s; [by exists []; rewrite app_nil_r|].
  cbn [run foldl]. fold (run cfg rt (step cfg rt s ev) evs).
  destruct (IH (step cfg rt s ev)) as [tr2 ->]. destruct (step_trace s ev) as [tr1 ->].
  exists (tr1 ++ tr2). by rewrite app_assoc.
Qed.

(** Two deploys one after the other, the process of the first still
    running when the second is requested. *)
Lemma two_launches existing evs r1 r2 e1 e2 a1 a2 b1 b2 c1 c2 :
  let s0 := run cfg rt (boot existing) evs in
  let s1 := run cfg rt s0 (Incoming r1 :: launch_events cfg e1 (length (tasks s0)) a1 b1 c1) in
  let s2 := run cfg rt s1 (Incoming r2 :: launch_events cfg e2 (length (tasks s1)) a2 b2 c2) in
  let rid1 := length (procs s0) in
  let rid2 := length (procs s1) in
  delivers cfg rt r1 e1 -> delivers cfg rt r2 e2 ->
  deployable e1 = true -> deployable e2 = true ->
  deployKey_of e1 ∉ runningDeploys s0 -> deployKey_of e2 ∉ runningDeploys s0 ->
  cwd_of e1 ∈ dirs s0 -> cwd_of e2 ∈ dirs s0 ->
  (truthy (LOG_DIR cfg) = true -> exists n, repoName_of e1 = Val (Str n)) ->
  (truthy (LOG_DIR cfg) = true -> exists n, repoName_of e2 = Val (Str n)) ->
  launched cfg e1 (log_stream cfg rt e1) rid1 s1
  /\ runningDeploys s1 = runningDeploys s0
  /\ locks (effects_of rid1 (trace s1)) = [(true, deployKey_of e1); (false, deployKey_of e1)]
  /\ spawns (effects_of rid1 (trace s1)) = [git_fetch e1; git_checkout e1; just_deploy e1]
  /\ (rid1 < rid2)%nat
  /\ (rid1, Spawn (u "just") [u "github-deploy"; sha_of e1] (cwd_of e1)) ∈ trace s2
  /\ launched cfg e2 (log_stream cfg rt e2) rid2 s2
  /\ locks (effects_of rid2 (trace s2)) = [(true, deployKey_of e2); (false, deployKey_of e2)]
  /\ spawns (effects_of rid2 (trace s2)) = [git_fetch e2; git_checkout e2; just_deploy e2].
Proof.
  intros s0 s1 s2 rid1 rid2 Hd1 Hd2 Hdep1 Hdep2 Hk1 Hk2 Hc1 Hc2 Hn1 Hn2.
  destruct (deploy_launches cfg rt existing evs r1 e1 a1 b1 c1 Hd1 Hdep1 Hk1 Hc1 Hn1)
    as (Hl1 & _ & Hr1 & _ & _ & Hsp1 & Hlk1 & _).
  fold s0 rid1 s1 in Hl1, Hr1, Hsp1, Hlk1.
  assert (Es1 : s1 = run cfg rt (boot existing)
                       (evs ++ Incoming r1 :: launch_events cfg e1 (length (tasks s0)) a1 b1 c1))
    by (by rewrite run_app).
  assert (Hk2' : deployKey_of e2 ∉ runningDeploys s1) by (by rewrite Hr1).
  assert (Hc2' : cwd_of e2 ∈ dirs s1) by (unfold s1; by rewrite run_dirs).
  rewrite Es1 in Hk2', Hc2'.
  destruct (deploy_launches cfg rt existing _ r2 e2 a2 b2 c2 Hd2 Hdep2 Hk2' Hc2' Hn2)
    as (Hl2 & _ & _ & _ & _ & Hsp2 & Hlk2 & _).
  rewrite <- Es1 in Hl2, Hsp2, Hlk2. fold rid2 s2 in Hl2, Hsp2, Hlk2.
  assert (Hin1 : (rid1, Spawn (u "just") [u "github-deploy"; sha_of e1] (cwd_of e1)) ∈ trace s1).
  { apply effects_of_elem, spawns_elem. rewrite Hsp1. unfold just_deploy.
    rewrite !elem_of_cons. auto. }
  assert (Hwf1 : wf s1) by (rewrite Es1; apply run_boot_wf).
  repeat (split; [assumption|]).
  split; [exact (proj1 (proj2 Hwf1) _ _ Hin1)|].
  split; [|by repeat split].
  destruct (run_trace (Incoming r2 :: launch_events cfg e2 (length (tasks s1)) a2 b2 c2) s1)
    as [tr Htr].
  fold s2 in Htr. rewrite Htr. apply elem_of_app. by left.
Qed.
End TwoRequests.

Section SharedDirectory.
Context (cfg : Config) (rt : Runtime).

(** C10.  Two pushes to deployable branches of repositories with the same
    short name [n] and different full names [f1] and [f2].  The key locked
    for each is its full name, a colon and the branch, and the two keys
    differ; the processes of each are spawned in [repos/n].  When the second
    request arrives while the first still holds its lock, both keys are in
    the set at once.  When it arrives after the first has spawned [just],
    the second spawns [just] in the same directory, without any process
    having closed. *)
Theorem same_directory_under_distinct_locks
    existing evs r1 r2 e1 e2 f1 f2 n a1 a2 b1 b2 c1 c2 :
  let s0 := run cfg rt (boot existing) evs in
  let s1 := run cfg rt s0 (Incoming r1 :: launch_events cfg e1 (length (tasks s0)) a1 b1 c1) in
  let s2 := run cfg rt s1 (Incoming r2 :: launch_events cfg e2 (length (tasks s1)) a2 b2 c2) in
  let rid1 := length (procs s0) in
  let rid2 := length (procs s1) in
  let both := run cfg rt s0 [Incoming r1; Incoming r2] in
  delivers cfg rt r1 e1 -> delivers cfg rt r2 e2 ->
  deployable e1 = true -> deployable e2 = true ->
  repo_of e1 = Val (Str f1) -> repo_of e2 = Val (Str f2) -> f1 <> f2 ->
  repoName_of e1 = Val (Str n) -> repoName_of e2 = Val (Str n) ->
  deployKey_of e1 ∉ runningDeploys s0 -> deployKey_of e2 ∉ runningDeploys s0 ->
  u "repos/" ++ n ∈ dirs s0 ->
  f1 ++ u ":" ++ branch_of e1 <> f2 ++ u ":" ++ branch_of e2
  /\ f1 ++ u ":" ++ branch_of e1 ∈ runningDeploys both
  /\ f2 ++ u ":" ++ branch_of e2 ∈ runningDeploys both
  /\ locks (effects_of rid1 (trace s1))
     = [(true, f1 ++ u ":" ++ branch_of e1); (false, f1 ++ u ":" ++ branch_of e1)]
  /\ locks (effects_of rid2 (trace s2))
     = [(true, f2 ++ u ":" ++ branch_of e2); (false, f2 ++ u ":" ++ branch_of e2)]
  /\ spawns (effects_of rid1 (trace s1))
     = [(u "git", [u "fetch"; u "origin"; sha_of e1], u "repos/" ++ n);
        (u "git", [u "checkout"; u "FETCH_HEAD"], u "repos/" ++ n);
        (u "just", [u "github-deploy"; sha_of e1], u "repos/" ++ n)]
  /\ spawns (effects_of rid2 (trace s2))
     = [(u "git", [u "fetch"; u "origin"; sha_of e2], u "repos/" ++ n);
        (u "git", [u "checkout"; u "FETCH_HEAD"], u "repos/" ++ n);
        (u "just", [u "github-deploy"; sha_of e2], u "repos/" ++ n)]
  /\ (rid1 < rid2)%nat
  /\ (rid1, Spawn (u "just") [u "github-deploy"; sha_of e1] (u "repos/" ++ n)) ∈ trace s2
  /\ (rid2, Spawn (u "just") [u "github-deploy"; sha_of e2] (u "repos/" ++ n)) ∈ trace s2.
Proof.
  intros s0 s1 s2 rid1 rid2 both Hd1 Hd2 Hdep1 Hdep2 Hf1 Hf2 Hne Hn1 Hn2 Hk1 Hk2 Hcwd.
  assert (Ek1 : deployKey_of e1 = f1 ++ u ":" ++ branch_of e1)
    by (unfold deployKey_of; by rewrite Hf1).
  assert (Ek2 : deployKey_of e2 = f2 ++ u ":" ++ branch_of e2)
    by (unfold deployKey_of; by rewrite Hf2).
  assert (Ec1 : cwd_of e1 = u "repos/" ++ n) by (unfold cwd_of; by rewrite Hn1).
  assert (Ec2 : cwd_of e2 = u "repos/" ++ n) by (unfold cwd_of; by rewrite Hn2).
  pose proof (deployKey_distinct e1 e2 f1 f2 Hdep1 Hdep2 Hf1 Hf2 Hne) as Hdist.
  assert (Hc1 : cwd_of e1 ∈ dirs s0) by (by rewrite Ec1).
  assert (Hc2 : cwd_of e2 ∈ dirs s0) by (by rewrite Ec2).
  destruct (two_launches cfg rt existing evs r1 r2 e1 e2 a1 a2 b1 b2 c1 c2
              Hd1 Hd2 Hdep1 Hdep2 Hk1 Hk2 Hc1 Hc2 ltac:(eauto) ltac:(eauto))
    as (_ & _ & Hlk1 & Hsp1 & Hlt & Hin1 & _ & Hlk2 & Hsp2).
  fold s0 s1 s2 rid1 rid2 in Hlk1, Hsp1, Hlt, Hin1, Hlk2, Hsp2.
  assert (Hin2 : (rid2, Spawn (u "just") [u "github-deploy"; sha_of e2] (cwd_of e2)) ∈ trace s2).
  { apply effects_of_elem, spawns_elem. rewrite Hsp2. unfold just_deploy.
    rewrite !elem_of_cons. auto. }
  unfold git_fetch, git_checkout, just_deploy in Hsp1, Hsp2.
  rewrite Ek1 in *. rewrite Ek2 in *. rewrite Ec1 in *. rewrite Ec2 in *.
  split; [exact Hdist|].
  assert (Hboth : runningDeploys both
                  = {[f2 ++ u ":" ++ branch_of e2]}
                    ∪ ({[f1 ++ u ":" ++ branch_of e1]} ∪ runningDeploys s0)).
  { unfold both. cbn [run foldl].
    pose proof (step_holds_lock cfg rt s0 r1 e1 Hd1 Hdep1) as H1.
    rewrite Ek1, Ec1 in H1. specialize (H1 Hk1 Hcwd).
    pose proof (step_holds_lock cfg rt (step cfg rt s0 (Incoming r1)) r2 e2 Hd2 Hdep2) as H2.
    rewrite Ek2, Ec2, step_dirs, H1 in H2. apply H2; [|exact Hcwd].
    rewrite elem_of_union, elem_of_singleton. intros [E|E]; [by symmetry in E|done]. }
  rewrite Hboth.
  split; [rewrite !elem_of_union, !elem_of_singleton; auto|].
  split; [rewrite !elem_of_union, !elem_of_singleton; auto|].
  by repeat split.
Qed.

(** C1, as the code has it.  The lock is given back when the deploy
    function returns, that is as soon as [just] has been spawned, and not
    when the process ends: a first push adds its key and deletes it without
    any close or error of the process having been dispatched; its process
    is still registered and the key is free.  A second push with the same
    key, delivered then, takes the lock again and spawns a second [just] in
    the same directory while the first is running. *)
Theorem lock_released_at_spawn existing evs req event a1 a2 b1 b2 c1 c2 :
  let s0 := run cfg rt (boot existing) evs in
  let s1 := run cfg rt s0 (Incoming req :: launch_events cfg event (length (tasks s0)) a1 b1 c1) in
  let s2 := run cfg rt s1 (Incoming req :: launch_events cfg event (length (tasks s1)) a2 b2 c2) in
  let rid1 := length (procs s0) in
  let rid2 := length (procs s1) in
  let key := deployKey_of event in
  delivers cfg rt req event -> deployable event = true ->
  key ∉ runningDeploys s0 -> cwd_of event ∈ dirs s0 ->
  (truthy (LOG_DIR cfg) = true -> exists n, repoName_of event = Val (Str n)) ->
  launched cfg event (log_stream cfg rt event) rid1 s1
  /\ (key ∉ runningDeploys s1)
  /\ locks (effects_of rid1 (trace s1)) = [(true, key); (false, key)]
  /\ (rid1 < rid2)%nat
  /\ (rid1, Spawn (u "just") [u "github-deploy"; sha_of event] (cwd_of event)) ∈ trace s2
  /\ locks (effects_of rid2 (trace s2)) = [(true, key); (false, key)]
  /\ spawns (effects_of rid2 (trace s2))
     = [git_fetch event; git_checkout event; just_deploy event].
Proof.
  intros s0 s1 s2 rid1 rid2 key Hd Hdep Hk Hc Hn.
  destruct (two_launches cfg rt existing evs req req event event a1 a2 b1 b2 c1 c2
              Hd Hd Hdep Hdep Hk Hk Hc Hc Hn Hn)
    as (Hl1 & Hr1 & Hlk1 & _ & Hlt & Hin1 & _ & Hlk2 & Hsp2).
  fold s0 s1 s2 rid1 rid2 key in Hl1, Hr1, Hlk1, Hlt, Hin1, Hlk2, Hsp2.
  split; [exact Hl1|]. split; [rewrite Hr1; exact Hk|]. by repeat split.
Qed.
End SharedDirectory.

(** ** The theorems on the sample data *)

Lemma main_request_delivers : delivers sample_config sample_runtime main_request push_main.
Proof. split; [reflexivity|]. exists [u "push acme/site main"]. repeat split; reflexivity. Qed.

Lemma fork_request_delivers : delivers sample_config sample_runtime fork_request push_fork.
Proof. split; [reflexivity|]. exists [u "push fork/site master"]. repeat split; reflexivity. Qed.

Lemma no_key_at_boot existing (key : jsstring) :
  key ∉ runningDeploys (run sample_config sample_runtime (boot existing) []).
Proof. apply not_elem_of_empty. Qed.

Lemma site_exists :
  u "repos/site" ∈ dirs (run sample_config sample_runtime (boot site_checkout) []).
Proof. vm_compute. reflexivity. Qed.

Lemma verify_witness :
  expected_signature signed_config sample_runtime (u "push acme/site main") = u "sha256=06137b"
  /\ verify signed_config sample_runtime (Val (u "sha256=06137b")) (u "push acme/site main") = true
  /\ verify signed_config sample_runtime (Val (u "sha256=06137c")) (u "push acme/site main") = false
  /\ verify signed_config sample_runtime (Val (u "sha256=0613")) (u "push acme/site main") = false.
Proof.
  pose proof (verify_iff signed_config sample_runtime) as H.
  split; [reflexivity|]. split; [|split].
  - apply (H (Val (u "sha256=06137b")) (u "push acme/site main")). right. reflexivity.
  - destruct (verify signed_config sample_runtime (Val (u "sha256=06137c"))
                (u "push acme/site main")) eqn:E; [|reflexivity].
    apply (H (Val (u "sha256=06137c")) (u "push acme/site main")) in E.
    destruct E as [E|E]; discriminate E.
  - apply (H Undefined (u "push acme/site main")); [discriminate|].
    vm_compute. discriminate.
Defined.

Lemma rolling_buffer_witness :
  lines (open_request (boot ∅)) !! 0%nat = Some []
  /\ get_lines 0 (exec 0 (forEach (take 57 sixty_lines) (save_line None)) (open_request (boot ∅)))
     = slice_last 50 (kept_lines (take 57 sixty_lines)).
Proof.
  split; [reflexivity|].
  apply (rolling_buffer_last_50 0 None (open_request (boot ∅)) sixty_lines 57). reflexivity.
Defined.

Lemma missing_directory_witness :
  deployable push_main = true
  /\ statuses (effects_of 0 (trace (run sample_config sample_runtime (boot ∅)
                 [Incoming main_request; Complete 0 (AnsApi None)])))
     = [(u "/repos/acme/site/statuses/0a1b2c3d4e5f60718293", u "error",
         u "Repository directory not found")].
Proof.
  split; [reflexivity|].
  apply (missing_directory_reports_error sample_config sample_runtime ∅ [] main_request
           push_main [Complete 0 (AnsApi None)]).
  - exact main_request_delivers.
  - reflexivity.
  - apply no_key_at_boot.
  - apply not_elem_of_empty.
Defined.

Lemma missing_directory_takes_lock :
  locks (effects_of 0 (trace (step sample_config sample_runtime (boot ∅) (Incoming main_request))))
  = [(true, u "acme/site:main"); (false, u "acme/site:main")].
Proof. vm_compute. reflexivity. Qed.


Lemma webhook_response_witness :
  is_log_request sample_config aborted_post = false
  /\ url_throws sample_config aborted_post = false
  /\ responses (effects_of 0 (trace (run sample_config sample_runtime (boot ∅)
                  [Incoming aborted_post])))
     = [400].
Proof.
  split; [reflexivity|]. split; [reflexivity|].
  apply (webhook_response_status sample_config sample_runtime ∅ [] aborted_post []);
    reflexivity.
Defined.

Lemma aborted_request_gets_400 :
  Respond 400 (u "Bad Request")
  ∈ effects_of 0 (trace (step sample_config sample_runtime (boot ∅) (Incoming aborted_post))).
Proof. vm_compute. apply list_elem_of_further, list_elem_of_here. Qed.



Lemma git_failure_witness :
  reporting sample_config push_main = true /\ git_failed fatal = true
  /\ comments (effects_of 0 (trace (run sample_config sample_runtime (boot site_checkout)
                 [Incoming main_request; Complete 0 (AnsApi None); Complete 1 (AnsGit fatal);
                  Complete 2 (AnsApi None); Complete 3 (AnsApi None)])))
     = [(u "/repos/acme/site/commits/0a1b2c3d4e5f60718293/comments",
         slice_to 65536 (siren_sign ++ u " Git fetch/checkout failed:" ++ [nl; nl]
                         ++ fence (u "fatal: not a git repository")))].
Proof.
  split; [reflexivity|]. split; [reflexivity|].
  apply (proj1 (git_failure_reports_pending_then_error sample_config sample_runtime
                  site_checkout [] main_request [])
           push_main fatal fatal None None None).
  - exact main_request_delivers.
  - reflexivity.
  - apply no_key_at_boot.
  - exact site_exists.
  - reflexivity.
  - left. reflexivity.
Defined.

Lemma git_failure_reports_pending :
  statuses (effects_of 0 (trace (run sample_config sample_runtime (boot site_checkout)
              [Incoming main_request; Complete 0 (AnsApi None); Complete 1 (AnsGit fatal);
               Complete 2 (AnsApi None); Complete 3 (AnsApi None)])))
  = [(u "/repos/acme/site/statuses/0a1b2c3d4e5f60718293", u "pending", u "Deploy started");
     (u "/repos/acme/site/statuses/0a1b2c3d4e5f60718293", u "error",
      u "Git fetch/checkout failed")].
Proof. vm_compute. reflexivity. Qed.

Lemma deploy_outcome_witness :
  launched sample_config push_main None 0 launched_state
  /\ statuses (effects_of 0 (trace
       (run sample_config sample_runtime
          (run sample_config sample_runtime launched_state
             [ProcError 0 spawn_enoent; Complete 3 (AnsApi None); Complete 4 (AnsApi None)])
          [ProcClose 0 (Some (-2)%Z); Complete 5 (AnsApi None); Complete 6 (AnsApi None)])))
     = statuses (effects_of 0 (trace launched_state))
       ++ [(u "/repos/acme/site/statuses/0a1b2c3d4e5f60718293", u "error",
            u "Deploy process failed to start");
           (u "/repos/acme/site/statuses/0a1b2c3d4e5f60718293", u "failure",
            u "Deploy failed")]
  /\ comments (effects_of 0 (trace
       (run sample_config sample_runtime
          (run sample_config sample_runtime launched_state
             [ProcError 0 spawn_enoent; Complete 3 (AnsApi None); Complete 4 (AnsApi None)])
          [ProcClose 0 (Some (-2)%Z); Complete 5 (AnsApi None); Complete 6 (AnsApi None)])))
     = comments (effects_of 0 (trace launched_state))
       ++ [(u "/repos/acme/site/commits/0a1b2c3d4e5f60718293/comments",
            slice_to 65536
              (siren_sign ++ u " Deploy process failed to start:" ++ [nl; nl]
               ++ u "```" ++ [nl] ++ u "spawn just ENOENT" ++ [nl] ++ u "```"));
           (u "/repos/acme/site/commits/0a1b2c3d4e5f60718293/comments",
            slice_to 65536
              (siren_sign ++ u " Deploy failed (exit code: -2)" ++ [nl; nl]
               ++ u "```" ++ [nl] ++ [nl] ++ u "```"))].
Proof.
  assert (Hl : launched sample_config push_main None 0 launched_state) by reflexivity.
  split; [exact Hl|].
  destruct (deploy_outcome_is_reported sample_config sample_runtime push_main None 0
              launched_state (Some (-2)%Z) spawn_enoent None None None None Hl)
    as (_ & _ & _ & _ & _ & _ & _ & H).
  - reflexivity.
  - reflexivity.
  - destruct H as (H1 & H2 & _); [discriminate|]. split; [exact H1|exact H2].
Defined.

Lemma same_directory_witness :
  u "acme/site" <> u "fork/site"
  /\ u "acme/site:main" ∈ runningDeploys (run sample_config sample_runtime (boot site_checkout)
                                           [Incoming main_request; Incoming fork_request])
  /\ u "fork/site:master" ∈ runningDeploys (run sample_config sample_runtime (boot site_checkout)
                                             [Incoming main_request; Incoming fork_request]).
Proof.
  assert (Hne : u "acme/site" <> u "fork/site") by discriminate.
  split; [exact Hne|].
  pose proof (same_directory_under_distinct_locks sample_config sample_runtime site_checkout []
                main_request fork_request push_main push_fork (u "acme/site") (u "fork/site")
                (u "site") None None [] [] [] []
                main_request_delivers fork_request_delivers eq_refl eq_refl eq_refl eq_refl
                Hne eq_refl eq_refl (no_key_at_boot _ _) (no_key_at_boot _ _) site_exists)
    as (_ & H1 & H2 & _).
  split; [exact H1|exact H2].
Defined.

Lemma lock_released_witness :
  deployable push_main = true
  /\ locks (effects_of 0 (trace launched_state))
     = [(true, u "acme/site:main"); (false, u "acme/site:main")]
  /\ spawns (effects_of 1 (trace (run sample_config sample_runtime launched_state
                (Incoming main_request :: launch_events sample_config push_main 3 None [] []))))
     = [(u "git", [u "fetch"; u "origin"; u "0a1b2c3d4e5f60718293"], u "repos/site");
        (u "git", [u "checkout"; u "FETCH_HEAD"], u "repos/site");
        (u "just", [u "github-deploy"; u "0a1b2c3d4e5f60718293"], u "repos/site")].
Proof.
  split; [reflexivity|].
  pose proof (lock_released_at_spawn sample_config sample_runtime site_checkout []
                main_request push_main None None [] [] [] []
                main_request_delivers eq_refl (no_key_at_boot _ _) site_exists)
    as H.
  destruct H as (_ & _ & H1 & _ & _ & _ & H2); [discriminate|].
  split; [exact H1|exact H2].
Defined.

(** ** What no run ever does *)

Section Everywhere.
Context (cfg : Config) (rt : Runtime) (ok : Effect -> bool).
Hypothesis server_ok : forall req, always ok (server cfg rt req).

Lemma exec_everywhere p rid s :
  always ok p -> (forall r, stored_ok ok r s) ->
  Forall (fun x : nat * Effect => ok x.2 = true) (trace s) ->
  (forall r, stored_ok ok r (exec rid p s))
  /\ Forall (fun x : nat * Effect => ok x.2 = true) (trace (exec rid p s)).
Proof.
  intros Hp Hs Htr. split.
  - intros r. destruct (decide (r = rid)) as [->|Hne].
    + apply exec_later; [by apply always_later|apply Hs].
    + apply exec_other_stored; [done|apply Hs].
  - destruct (exec_always ok p Hp rid s) as (tr & -> & Hok).
    apply Forall_app. split; [done|]. apply Forall_fmap.
    eapply Forall_impl; [exact Hok|]. by intros e He.
Qed.

Lemma step_everywhere s ev :
  (forall r, stored_ok ok r s) ->
  Forall (fun x : nat * Effect => ok x.2 = true) (trace s) ->
  (forall r, stored_ok ok r (step cfg rt s ev))
  /\ Forall (fun x : nat * Effect => ok x.2 = true) (trace (step cfg rt s ev)).
Proof.
  intros Hs Htr. destruct ev as [req|tid a|rid data|rid code|rid err]; cbn [step].
  - apply exec_everywhere; [apply server_ok| |done].
    intros r. destruct (Hs r) as [Ht Hp]. split; [exact Ht|].
    intros h. cbn [open_request procs]. intros Hl.
    apply lookup_app_Some in Hl as [Hl|[_ Hl]]; [by apply Hp|].
    apply list_lookup_singleton_Some in Hl as [_ Hl]. discriminate Hl.
  - destruct (tasks s !! tid) as [[rid [w|]]|] eqn:Hl; [|done|done].
    destruct (resume w a) as [p|] eqn:Hr; [|done].
    apply exec_everywhere; [| |done].
    + eapply resume_always; [|exact Hr]. destruct (Hs rid) as [Ht _]. by eapply Ht.
    + intros r. by apply stored_finish.
  - destruct (procs s !! rid) as [[h|]|] eqn:Hl; [|done|done].
    apply exec_everywhere; [|done|done]. destruct (Hs rid) as [_ Hp]. by apply Hp.
  - destruct (procs s !! rid) as [[h|]|] eqn:Hl; [|done|done].
    apply exec_everywhere; [|done|done]. destruct (Hs rid) as [_ Hp]. by apply Hp.
  - destruct (procs s !! rid) as [[h|]|] eqn:Hl; [|done|done].
    apply exec_everywhere; [|done|done]. destruct (Hs rid) as [_ Hp]. by apply Hp.
Qed.

Lemma run_everywhere existing evs :
  Forall (fun x : nat * Effect => ok x.2 = true) (trace (run cfg rt (boot existing) evs)).
Proof.
  assert (H : forall s, (forall r, stored_ok ok r s) ->
            Forall (fun x : nat * Effect => ok x.2 = true) (trace s) ->
            Forall (fun x : nat * Effect => ok x.2 = true) (trace (run cfg rt s evs))).
  { induction evs as [|ev evs IH]; intros s Hs Htr; [done|].
    cbn [run foldl]. destruct (step_everywhere s ev Hs Htr) as [Hs' Htr'].
    by apply IH. }
  apply H; [|constructor].
  intros r. split.
  - intros tid w. cbn [boot tasks]. by rewrite lookup_nil.
  - intros h. cbn [boot procs]. by rewrite lookup_nil.
Qed.
End Everywhere.

Ltac always_using tac :=
  repeat first
    [ tac
    | match goal with
      | |- forall _, _ => intro
      | |- always _ (if ?b then _ else _) => destruct b
      | |- always _ (match ?x with _ => _ end) => destruct x
      | |- always _ (let _ := _ in _) => cbv zeta
      | |- always _ (then_ _ _ _) => apply always_then
      | |- always _ (seq _ _) => apply always_seq
      | |- always _ (try_catch _ _) => apply always_try_catch
      | |- always _ (finally _ _) => apply always_finally
      | |- always _ (forEach _ _) => apply always_forEach
      | |- always _ (emit _) => unfold emit
      | |- always _ (log _) => unfold log, emit
      | |- always _ _ => constructor
      | |- _ = true => always_leaf
      end ].

Ltac unfold_server :=
  unfold server, webhook, on_end, on_error, on_catch, handle_event, withDeployLock,
    deployFn, onError, onClose, saveLines, save_line, reportErrorAndCleanup.

Lemma slice_to_bound {A} (n : N) (l : list A) : (N.of_nat (length (slice_to n l)) <=? n) = true.
Proof. apply N.leb_le. unfold slice_to. rewrite length_take. lia. Qed.

Lemma starts_with_app (p s : jsstring) : starts_with p (p ++ s) = true.
Proof.
  unfold starts_with. rewrite take_app_length. by apply bytes_eqb_eq.
Qed.

Section Shapes.
Context (cfg : Config) (rt : Runtime).

Lemma api_settled_any ok r :
  (forall args, ok (ConsoleError args) = true) -> always ok (api_settled r).
Proof. intros H. destruct r; unfold api_settled; always_using fail. Qed.

(** *** without a token *)
Lemma callGitHub_no_token m path d :
  truthy (TOKEN cfg) = false -> callGitHub cfg m path d = Ret.
Proof. intros H. unfold callGitHub. by rewrite H. Qed.

Lemma setStatus_no_token repo sha state desc :
  truthy (TOKEN cfg) = false -> always no_api (setStatus cfg repo sha state desc).
Proof.
  intros H. unfold setStatus. rewrite callGitHub_no_token by done.
  destruct (_ || _); constructor.
Qed.

Lemma addComment_no_token repo sha text :
  truthy (TOKEN cfg) = false -> always no_api (addComment cfg repo sha text).
Proof.
  intros H. unfold addComment. rewrite callGitHub_no_token by done.
  destruct (_ || _); constructor.
Qed.

Lemma server_no_token req :
  truthy (TOKEN cfg) = false -> always no_api (server cfg rt req).
Proof.
  intros H. unfold_server. unfold runGit, git_settled.
  always_using ltac:(first [ apply setStatus_no_token; exact H
                           | apply addComment_no_token; exact H ]).
Qed.

(** *** the calls *)
Lemma callGitHub_shape path d :
  api_call_shape cfg (HttpsRequest (u "POST") path (u "Bearer " ++ tmpl (TOKEN cfg)) d) = true ->
  always (api_call_shape cfg) (callGitHub cfg (u "POST") path d).
Proof.
  intros H. unfold callGitHub. destruct (negb _); constructor; [exact H|].
  intros r. by apply api_settled_any.
Qed.

Lemma setStatus_shape repo sha state desc :
  is_state state = true -> always (api_call_shape cfg) (setStatus cfg repo sha state desc).
Proof.
  intros H. unfold setStatus. destruct (_ || _); [constructor|].
  apply callGitHub_shape. unfold api_call_shape.
  rewrite bool_decide_eq_true_2 by done. rewrite starts_with_app.
  rewrite bool_decide_eq_true_2 by done. rewrite H, slice_to_bound.
  by rewrite bool_decide_eq_true_2.
Qed.

Lemma addComment_shape repo sha text :
  always (api_call_shape cfg) (addComment cfg repo sha text).
Proof.
  unfold addComment. destruct (_ || _); [constructor|].
  apply callGitHub_shape. unfold api_call_shape.
  rewrite bool_decide_eq_true_2 by done. rewrite starts_with_app.
  rewrite bool_decide_eq_true_2 by done. by rewrite slice_to_bound.
Qed.

Lemma server_api_shape req : always (api_call_shape cfg) (server cfg rt req).
Proof.
  unfold_server. unfold runGit, git_settled.
  always_using ltac:(first [ apply setStatus_shape; always_leaf
                           | apply addComment_shape ]).
Qed.

(** *** the processes *)
Lemma setStatus_spawns repo sha state desc :
  always spawn_shape (setStatus cfg repo sha state desc).
Proof. unfold setStatus, callGitHub, api_settled. always_using fail. Qed.

Lemma addComment_spawns repo sha text : always spawn_shape (addComment cfg repo sha text).
Proof. unfold addComment, callGitHub, api_settled. always_using fail. Qed.

Lemma runGit_shape args cwd :
  spawn_shape (Spawn (u "git") args cwd) = true -> always spawn_shape (runGit rt args cwd).
Proof.
  intros H. unfold runGit. constructor; [exact H|]. intros o. unfold git_settled.
  always_using fail.
Qed.

Lemma server_spawn_shape req : always spawn_shape (server cfg rt req).
Proof.
  unfold_server.
  always_using ltac:(first [ apply setStatus_spawns | apply addComment_spawns
                           | apply runGit_shape; unfold spawn_shape; rewrite starts_with_app;
                             reflexivity
                           | match goal with
                             | |- spawn_shape (Spawn _ _ _) = true =>
                                 unfold spawn_shape; rewrite starts_with_app; reflexivity
                             end ]).
Qed.
End Shapes.

(** ** Requests that end in their first step *)

Lemma stored_records ok rid rid' l s :
  stored_ok ok rid s -> stored_ok ok rid (records rid' l s).
Proof.
  revert s. induction l as [|e l IH]; intros s Hs; [done|].
  cbn [records foldl]. fold (records rid' l (record rid' e s)). by apply IH, stored_record.
Qed.

Section Returns.
Context (cfg : Config) (rt : Runtime).

(** A request whose handler returns without leaving anything in flight
    does nothing more, whatever the event loop dispatches afterwards. *)
Lemma request_returns s req first evs :
  wf s ->
  step cfg rt s (Incoming req) = records (length (procs s)) first (open_request s) ->
  effects_of (length (procs s)) (trace (run cfg rt s (Incoming req :: evs))) = first.
Proof.
  intros Hwf E.
  destruct (request_lifetime_from cfg rt nothing s req evs first Hwf) as (rest & Hall & Hrest).
  - rewrite E, trace_records. reflexivity.
  - rewrite E. apply stored_records. by apply stored_fresh.
  - apply nothing_nil in Hrest. subst rest. by rewrite app_nil_r in Hall.
Qed.
End Returns.

Section Refusals.
Context (cfg : Config) (rt : Runtime).

(** The webhook is reached by every POST. *)
Lemma server_post req : method req = u "POST" -> server cfg rt req = webhook cfg rt req.
Proof. intros H. unfold server. rewrite H. reflexivity. Qed.

(** X4. A refused request produces its refusal and nothing else, whatever
    happens afterwards: a request that is neither a POST nor a log request,
    and on whose URL the log path does not throw, gets 405; a POST whose
    stream fails gets the logged error and 400; a POST whose signature does
    not verify gets the logged mismatch and 401. *)
Theorem refused_requests_do_nothing_else existing evs1 req evs2 :
  let s0 := run cfg rt (boot existing) evs1 in
  let rid := length (procs s0) in
  let all := effects_of rid (trace (run cfg rt s0 (Incoming req :: evs2))) in
  (method req <> u "POST" -> is_log_request cfg req = false -> url_throws cfg req = false ->
   all = [Respond 405 (u "Method Not Allowed")])
  /\ (forall err, method req = u "POST" -> body req = BodyError err ->
      all = [ConsoleError [LStr (u "Request error:"); LStr (message err)];
             Respond 400 (u "Bad Request")])
  /\ (forall chunks, method req = u "POST" -> body req = BodyEnd chunks ->
      verify cfg rt (x_hub_signature_256 req) (concat chunks) = false ->
      all = [ConsoleError [LStr (warning_sign ++ u "  signature mismatch")];
             Respond 401 (u "Unauthorized")]).
Proof.
  intros s0 rid all.
  pose proof (run_boot_wf cfg rt existing evs1) as Hwf. fold s0 in Hwf.
  pose proof (effects_of_fresh s0 Hwf) as Hfresh. fold rid in Hfresh.
  assert (H405 : method req <> u "POST" -> is_log_request cfg req = false ->
            url_throws cfg req = false ->
            step cfg rt s0 (Incoming req)
            = records rid [Respond 405 (u "Method Not Allowed")] (open_request s0)).
  { intros Hm Hlog Hurl. cbn [step]. rewrite (server_is_webhook cfg rt req Hlog Hurl).
    unfold webhook. by rewrite bool_decide_eq_false_2. }
  assert (H400 : forall err, method req = u "POST" -> body req = BodyError err ->
            step cfg rt s0 (Incoming req)
            = records rid [ConsoleError [LStr (u "Request error:"); LStr (message err)];
                           Respond 400 (u "Bad Request")] (open_request s0)).
  { intros err Hm Hb. cbn [step]. rewrite (server_post req Hm). unfold webhook.
    rewrite Hm, Hb. by rewrite bool_decide_eq_true_2. }
  assert (H401 : forall chunks, method req = u "POST" -> body req = BodyEnd chunks ->
            verify cfg rt (x_hub_signature_256 req) (concat chunks) = false ->
            step cfg rt s0 (Incoming req)
            = records rid [ConsoleError [LStr (warning_sign ++ u "  signature mismatch")];
                           Respond 401 (u "Unauthorized")] (open_request s0)).
  { intros chunks Hm Hb Hv. cbn [step]. rewrite (server_post req Hm). unfold webhook.
    rewrite Hm, Hb. rewrite bool_decide_eq_true_2 by done. cbn [negb]. unfold on_end.
    cbv zeta. rewrite Hv. reflexivity. }
  split; [intros Hm Hlog Hurl; by apply request_returns, H405|].
  split; [intros err Hm Hb; by apply request_returns, H400|].
  intros chunks Hm Hb Hv. by apply request_returns, (H401 chunks).
Qed.

(** X5. A verified push to a deployable branch whose deploy key is already
    held is answered 200, logged as skipped and dropped: no status, no
    process, and the set of running deploys is left as it was. *)
Theorem held_lock_skips_deploy existing evs1 req event evs2 :
  let s0 := run cfg rt (boot existing) evs1 in
  let rid := length (procs s0) in
  let key := deployKey_of event in
  delivers cfg rt req event -> deployable event = true ->
  key ∈ runningDeploys s0 ->
  effects_of rid (trace (run cfg rt s0 (Incoming req :: evs2)))
  = [Respond 200 (u "ok"); ConsoleLog [LStr (push_message event)];
     ConsoleLog [LStr (u "Deploy already running for " ++ key ++ u ", skipping")]]
  /\ runningDeploys (step cfg rt s0 (Incoming req)) = runningDeploys s0.
Proof.
  intros s0 rid key Hd Hdep Hkey.
  pose proof (run_boot_wf cfg rt existing evs1) as Hwf. fold s0 in Hwf.
  assert (E : step cfg rt s0 (Incoming req)
              = records rid [Respond 200 (u "ok"); ConsoleLog [LStr (push_message event)];
                  ConsoleLog [LStr (u "Deploy already running for " ++ key ++ u ", skipping")]]
                  (open_request s0)).
  { rewrite (step_delivers cfg rt s0 req event Hd (deployable_handled event Hdep)).
    rewrite exec_deployable by done. rewrite exec_lock_held by done. reflexivity. }
  split; [by apply request_returns|]. rewrite E. by rewrite runningDeploys_records.
Qed.
End Refusals.

(** ** Calls and processes in every run *)

Section Never.
Context (cfg : Config) (rt : Runtime).

(** X1. Without a TOKEN no request to the GitHub API is ever made: in the
    trace of every run, from any set of directories and under any events,
    no effect is an API call. *)
Theorem without_token_no_api_call existing evs :
  truthy (TOKEN cfg) = false ->
  Forall (fun x : nat * Effect => is_api x.2 = false) (trace (run cfg rt (boot existing) evs)).
Proof.
  intros H.
  pose proof (run_everywhere cfg rt no_api (fun req => server_no_token cfg rt req H) existing evs)
    as Hall.
  eapply Forall_impl; [exact Hall|]. intros [r e]. unfold no_api. cbn.
  by destruct (is_api e).
Qed.

(** X2. Every GitHub API call of every run is a POST to a path under
    [/repos/], authorised with [Bearer TOKEN]; a status carries one of the
    four states, the context [github-deploy] and a description of at most
    140 characters, a comment a body of at most 65536 characters. *)
Theorem api_calls_are_bounded_posts existing evs :
  Forall (fun x : nat * Effect => api_call_shape cfg x.2 = true)
    (trace (run cfg rt (boot existing) evs)).
Proof. apply run_everywhere. apply server_api_shape. Qed.

(** X3. The only processes a run ever spawns are [git fetch origin <sha>],
    [git checkout FETCH_HEAD] and [just github-deploy <sha>], each in a
    directory under [repos/]. *)
Theorem only_git_and_just_are_spawned existing evs :
  Forall (fun x : nat * Effect => spawn_shape x.2 = true)
    (trace (run cfg rt (boot existing) evs)).
Proof. apply run_everywhere. apply server_spawn_shape. Qed.
End Never.

(** ** Deploys that stop half-way *)

Lemma rejections_app a b : rejections (a ++ b) = rejections a ++ rejections b.
Proof. apply omap_app. Qed.

Lemma rejections_api_error_log r : rejections (api_error_log r) = [].
Proof. by destruct r. Qed.

Ltac projections_all :=
  rewrite ?statuses_app, ?comments_app, ?spawns_app, ?locks_app, ?rejections_app,
    ?statuses_api_error_log, ?comments_api_error_log, ?spawns_api_error_log,
    ?locks_api_error_log, ?rejections_api_error_log.

Section HalfWay.
Context (cfg : Config) (rt : Runtime).

(** X10. With LOG_DIR set, when creating the log directory fails after both
    git commands succeeded, the deploy is abandoned: [just] is never
    spawned, the status stays at pending (if it was reported), no comment is
    written, the lock is given back and the failure surfaces as an unhandled
    rejection. *)
Theorem log_directory_failure_abandons_deploy existing evs1 req event n r0 out1 out2 err :
  let s0 := run cfg rt (boot existing) evs1 in
  let rid := length (procs s0) in
  let key := deployKey_of event in
  let t0 := length (tasks s0) in
  let t1 := if reporting cfg event then S t0 else t0 in
  let s := run cfg rt s0
             (Incoming req
              :: (if reporting cfg event then [Complete t0 (AnsApi r0)] else [])
              ++ [Complete t1 (AnsGit (GitClose (Some 0%Z) out1));
                  Complete (S t1) (AnsGit (GitClose (Some 0%Z) out2));
                  Complete (S (S t1)) (AnsMkdir (Some err))]) in
  delivers cfg rt req event -> deployable event = true ->
  key ∉ runningDeploys s0 -> cwd_of event ∈ dirs s0 ->
  truthy (LOG_DIR cfg) = true -> repoName_of event = Val (Str n) ->
  statuses (effects_of rid (trace s))
  = (if reporting cfg event
     then [(status_path event, u "pending", u "Deploy started")] else [])
  /\ comments (effects_of rid (trace s)) = []
  /\ spawns (effects_of rid (trace s)) = [git_fetch event; git_checkout event]
  /\ locks (effects_of rid (trace s)) = [(true, key); (false, key)]
  /\ rejections (effects_of rid (trace s)) = [err]
  /\ runningDeploys s = runningDeploys s0
  /\ procs s !! rid = Some None.
Proof.
  intros s0 rid key t0 t1 s Hd Hdep Hkey Hcwd Hlog Hn. subst rid t0 t1.
  pose proof (run_boot_wf cfg rt existing evs1) as Hwf. fold s0 in Hwf.
  pose proof (deployable_sha event Hdep) as Hsha.
  pose proof (effects_of_fresh s0 Hwf) as Hfresh.
  assert (Hset : ({[key]} ∪ runningDeploys s0) ∖ {[key]} = runningDeploys s0)
    by (by apply lock_given_back).
  unfold status_path, git_fetch, git_checkout.
  remember s as fin eqn:E. unfold s in *. clear s. clearbody s0.
  unfold reporting in *.
  destruct (truthy (TOKEN cfg)) eqn:Htok, (truthy (repo_of event)) eqn:Hrepo;
    cbn [andb app run foldl] in E;
    rewrite (step_delivers cfg rt s0 req event Hd (deployable_handled event Hdep)) in E;
    rewrite exec_deployable in E by done; rewrite exec_lock_free in E by done;
    unfold deployFn in E; run_in E; rewrite bool_decide_eq_true_2 in E by done;
    unfold setStatus at 1, callGitHub at 1 in E; values_in E;
    rewrite ?Hsha, ?Htok, ?Hrepo, ?Hlog in E; run_in E.
  all: try (complete_in E; api_run_in E).
  all: unfold runGit at 1 in E; run_in E; complete_in E; cbn [git_settled] in E; run_in E.
  all: unfold runGit at 1 in E; run_in E; complete_in E; cbn [git_settled] in E; run_in E.
  all: rewrite Hn in E; run_in E; complete_in E; run_in E.
  all: rewrite E; clear E.
  all: split; [trace_of; effects; rewrite Hfresh; projections_all; reflexivity|].
  all: split; [trace_of; effects; rewrite Hfresh; projections_all; reflexivity|].
  all: split; [trace_of; effects; rewrite Hfresh; projections_all; reflexivity|].
  all: split; [trace_of; effects; rewrite Hfresh; projections_all; reflexivity|].
  all: split; [trace_of; effects; rewrite Hfresh; projections_all; reflexivity|].
  all: split; [running; exact Hset|].
  all: fields_of; apply lookup_snoc.
Qed.
End HalfWay.

Section StatusCall.
Context (cfg : Config) (rt : Runtime).

(** X11. A failing GitHub API call does not stop a deploy: when the pending
    status cannot be sent, the error is logged (nothing is logged when the
    call goes through) and the deploy goes on to [git fetch]. *)
Theorem failed_status_call_is_only_logged existing evs1 req event r0 :
  let s0 := run cfg rt (boot existing) evs1 in
  let rid := length (procs s0) in
  let key := deployKey_of event in
  let t0 := length (tasks s0) in
  delivers cfg rt req event -> deployable event = true ->
  key ∉ runningDeploys s0 -> cwd_of event ∈ dirs s0 ->
  reporting cfg event = true ->
  effects_of rid (trace (run cfg rt s0 [Incoming req; Complete t0 (AnsApi r0)]))
  = [Respond 200 (u "ok"); ConsoleLog [LStr (push_message event)]; SetAdd key;
     status_call cfg event (u "pending") (u "Deploy started")]
    ++ match r0 with
       | Some err => [ConsoleError [LStr (u "GitHub API error:"); LStr (message err)]]
       | None => []
       end
    ++ [ConsoleLog [LStr (arrows_sign ++ u " git fetch origin " ++ sha_of event)];
        Spawn (u "git") [u "fetch"; u "origin"; sha_of event] (cwd_of event)].
Proof.
  intros s0 rid key t0 Hd Hdep Hkey Hcwd Hrep. subst rid t0.
  apply andb_true_iff in Hrep as [Htok Hrepo].
  pose proof (run_boot_wf cfg rt existing evs1) as Hwf. fold s0 in Hwf.
  pose proof (deployable_sha event Hdep) as Hsha.
  pose proof (effects_of_fresh s0 Hwf) as Hfresh.
  unfold status_call, status_path. fold (api_error_log r0).
  remember (run cfg rt s0 [Incoming req; Complete (length (tasks s0)) (AnsApi r0)])
    as fin eqn:E.
  clearbody s0. cbn [run foldl] in E.
  rewrite (step_delivers cfg rt s0 req event Hd (deployable_handled event Hdep)) in E.
  rewrite exec_deployable in E by done. rewrite exec_lock_free in E by done.
  unfold deployFn in E. run_in E. rewrite bool_decide_eq_true_2 in E by done.
  unfold setStatus at 1, callGitHub at 1 in E. values_in E.
  rewrite Hsha, Htok, Hrepo in E. run_in E.
  complete_in E. api_run_in E.
  unfold runGit at 1 in E. run_in E.
  rewrite E. clear E. trace_of. effects. rewrite Hfresh. reflexivity.
Qed.
End StatusCall.

(** ** The branch of a ref *)

Lemma split_nonempty sep s : split sep s <> [].
Proof.
  destruct s as [|c s]; [done|]. cbn [split].
  destruct (c =? sep); [done|]. by destruct (split sep s).
Qed.

Lemma split_app sep a b : split sep (a ++ sep :: b) = split sep a ++ split sep b.
Proof.
  induction a as [|c a IH].
  - cbn [app split]. by rewrite N.eqb_refl.
  - cbn [app split]. rewrite IH. destruct (c =? sep); [done|].
    pose proof (split_nonempty sep a) as Hne. by destruct (split sep a).
Qed.

Lemma split_without sep s : sep ∉ s -> split sep s = [s].
Proof.
  induction s as [|c s IH]; [done|]. intros H. apply not_elem_of_cons in H as [Hc Hs].
  cbn [split]. rewrite IH by done. destruct (N.eqb_spec c sep); [by subst|done].
Qed.

Lemma pop_split_last prefix b : slash ∉ b -> pop (split slash (prefix ++ slash :: b)) = b.
Proof.
  intros H. rewrite split_app, (split_without slash b H). unfold pop. by rewrite last_snoc.
Qed.

Section Branch.
Context (cfg : Config) (rt : Runtime).

(** X12.  The branch the handler deploys is what follows the last slash of
    the ref, whatever precedes it.  For a delivered push that passes the
    filter, with ref [<prefix>/<b>] where [b] holds no slash: when [b] is
    neither [main] nor [master] the request is answered 200, logged as a
    push to [<repo>:<b>] and as an ignored branch, and does nothing else
    ever; when [b] is [main] or [master] the handler goes to the lock with
    the key [<repo>:<b>], which it takes if it is free and otherwise logs
    as held. *)
Theorem branch_is_last_segment existing evs1 req event prefix b sha evs2 :
  let s0 := run cfg rt (boot existing) evs1 in
  let rid := length (procs s0) in
  let s1 := step cfg rt s0 (Incoming req) in
  let all := effects_of rid (trace (run cfg rt s0 (Incoming req :: evs2))) in
  let key := tmpl (repo_of event) ++ u ":" ++ b in
  let pushed := ConsoleLog [LStr (package_sign ++ u " Push to " ++ tmpl (repo_of event)
                                  ++ u ":" ++ b ++ u " (" ++ slice_to 7 sha ++ u ")")] in
  delivers cfg rt req event -> rejected event = false ->
  ref event = Val (Str (prefix ++ slash :: b)) -> slash ∉ b -> after event = Val (Str sha) ->
  (b <> u "main" -> b <> u "master" ->
   all = [Respond 200 (u "ok"); pushed; ConsoleLog [LStr (u "Ignoring branch: " ++ b)]])
  /\ (b = u "main" \/ b = u "master" -> key ∈ runningDeploys s0 ->
      all = [Respond 200 (u "ok"); pushed;
             ConsoleLog [LStr (u "Deploy already running for " ++ key ++ u ", skipping")]])
  /\ (b = u "main" \/ b = u "master" -> key ∉ runningDeploys s0 ->
      exists rest, effects_of rid (trace s1) = [Respond 200 (u "ok"); pushed; SetAdd key] ++ rest).
Proof.
  intros s0 rid s1 all key pushed Hd Hrej Href Hb Hafter.
  pose proof (run_boot_wf cfg rt existing evs1) as Hwf. fold s0 in Hwf.
  pose proof (effects_of_fresh s0 Hwf) as Hfresh. fold rid in Hfresh.
  assert (Hty : typed event = true) by (unfold typed; by rewrite Href, Hafter).
  assert (Hbr : branch_of event = b).
  { unfold branch_of. rewrite Href. cbn [tmpl to_string js_value]. by apply pop_split_last. }
  assert (Hmsg : ConsoleLog [LStr (push_message event)] = pushed).
  { unfold pushed, push_message, sha_of. by rewrite Hbr, Hafter. }
  assert (Hkey : deployKey_of event = key) by (unfold deployKey_of; by rewrite Hbr).
  pose proof (step_delivers cfg rt s0 req event Hd (or_intror Hty)) as Hs1.
  fold rid s1 in Hs1.
  assert (Hdep : b = u "main" \/ b = u "master" -> deployable event = true).
  { intros H. unfold deployable. rewrite Hrej, Hty, Hbr. cbn [negb andb].
    destruct H as [->| ->]; [done|by rewrite orb_true_r]. }
  split; [|split].
  - intros Hm Hms. apply request_returns; [done|]. fold rid s1. rewrite Hs1.
    rewrite exec_other_branch; [by rewrite Hmsg, Hbr|done|done|].
    unfold deployable. rewrite Hrej, Hty, Hbr. cbn [negb andb].
    by rewrite !bool_decide_eq_false_2.
  - intros Hmain Hheld. apply request_returns; [done|]. fold rid s1. rewrite Hs1.
    rewrite exec_deployable by auto. rewrite Hkey, Hmsg.
    by rewrite exec_lock_held by done.
  - intros Hmain Hfree. rewrite Hs1. rewrite exec_deployable by auto. rewrite Hkey, Hmsg.
    rewrite exec_lock_free by done.
    match goal with |- context [exec rid ?p ?s] =>
      destruct (exec_trace p rid s) as [rest ->]
    end.
    exists rest. cbn [trace record set_running open_request].
    rewrite !effects_of_app, Hfresh, !effects_of_single, effects_of_same. reflexivity.
Qed.
End Branch.

(** ** One answer per request *)

(** A program adds tasks of its own request only, and touches the
    handlers of no other. *)
Lemma exec_frame p : forall rid s,
  exists l, tasks (exec rid p s) = tasks s ++ l
            /\ Forall (fun t : nat * option Pending => t.1 = rid) l
            /\ (forall r, r <> rid -> procs (exec rid p s) !! r = procs s !! r).
Proof.
  assert (Hsus : forall rid (w : Pending) s,
            exists l, tasks (suspend rid w s) = tasks s ++ l
                      /\ Forall (fun t : nat * option Pending => t.1 = rid) l
                      /\ (forall r, r <> rid -> procs (suspend rid w s) !! r = procs s !! r)).
  { intros rid w s. exists [(rid, Some w)]. split; [done|]. split; [|done].
    by repeat constructor. }
  induction p; intros rid s; cbn [exec];
    try (by exists []; rewrite app_nil_r);
    try (by eauto).
  - apply (IHp rid (record rid e s)).
  - apply (IHp rid (record rid (SetAdd key) (set_running ({[key]} ∪ runningDeploys s) s))).
  - apply (IHp rid (record rid (SetDelete key) (set_running (runningDeploys s ∖ {[key]}) s))).
  - destruct (IHp1 rid s) as (l1 & E1 & F1 & P1).
    destruct (IHp2 rid (exec rid p1 s)) as (l2 & E2 & F2 & P2).
    exists (l1 ++ l2). rewrite E2, E1, app_assoc. split; [done|].
    split; [by apply Forall_app|]. intros r Hr. by rewrite P2, P1.
  - match goal with |- context [exec rid p ?s'] => destruct (IHp rid s') as (l & E & F & P) end.
    exists l. split; [done|]. split; [done|]. intros r Hr. rewrite P by done.
    cbn [set_handlers record procs]. by rewrite list_lookup_insert_ne.
  - apply (IHp rid (set_lines rid (fun ls => ls ++ [line]) s)).
  - apply (IHp rid (set_lines rid (drop 1) s)).
Qed.

Section Once.
Context (cfg : Config) (rt : Runtime).
Context (rid t : nat) (k : bool -> Prog).

Lemma exec_waiting p rid' s :
  rid <> rid' -> (rid' < length (procs s))%nat -> waiting_for_stat rid t k s -> waiting_for_stat rid t k (exec rid' p s).
Proof.
  intros Hne Hlt (Hwf & Ht & Hu & Hp & He). unfold waiting_for_stat.
  destruct (exec_frame p rid' s) as (l & El & Fl & Pl).
  destruct (exec_trace p rid' s) as (tr & Etr).
  split; [by apply exec_wf|]. split; [|split; [|split]].
  - rewrite El. rewrite lookup_app_l; [done|]. by eapply lookup_lt_Some.
  - intros tid w. rewrite El. intros Hl.
    apply lookup_app_Some in Hl as [Hl|[_ Hl]]; [by eapply Hu|].
    rewrite Forall_forall in Fl. apply list_elem_of_lookup_2 in Hl.
    specialize (Fl _ Hl). cbn in Fl. congruence.
  - by rewrite Pl.
  - rewrite Etr, effects_of_app, He. by rewrite effects_of_other.
Qed.

Lemma step_waiting s ev :
  waiting_for_stat rid t k s -> (forall b, ev <> Complete t (AnsStat b)) -> waiting_for_stat rid t k (step cfg rt s ev).
Proof.
  intros Hw Hev. pose proof Hw as (Hwf & Ht & Hu & Hp & He).
  assert (Hrid : (rid < length (procs s))%nat) by (by eapply lookup_lt_Some).
  destruct ev as [req|tid a|rid' data|rid' code|rid' err]; cbn [step].
  - apply exec_waiting; [lia|cbn [open_request procs]; rewrite length_app; cbn; lia|].
    split; [by apply wf_open_request|]. split; [done|]. split; [done|]. split; [|done].
    cbn [open_request procs]. by rewrite lookup_app_l.
  - destruct (tasks s !! tid) as [[rid' [w|]]|] eqn:Hl; [|done|done].
    destruct (resume w a) as [p|] eqn:Hr; [|done].
    destruct (decide (rid = rid')) as [<-|Hne].
    { pose proof (Hu _ _ Hl) as ->. rewrite Ht in Hl. injection Hl as <-.
      destruct a; try discriminate Hr. by destruct (Hev is_file). }
    assert (Htid : tid <> t) by (intros ->; rewrite Ht in Hl; congruence).
    assert (Hlt : (rid' < length (procs s))%nat) by (destruct Hwf as [Hb _]; eauto).
    apply exec_waiting; [done|done|].
    split; [by apply wf_finish|]. split; [|split; [|done]].
    + cbn [finish tasks]. by rewrite list_lookup_insert_ne.
    + intros tid' w'. cbn [finish tasks]. intros Hl'.
      apply list_lookup_insert_Some in Hl' as [(_ & E & _)|[_ Hl']]; [congruence|].
      by eapply Hu.
  - destruct (procs s !! rid') as [[h|]|] eqn:Hl; [|done|done].
    apply exec_waiting; [congruence|by eapply lookup_lt_Some|done].
  - destruct (procs s !! rid') as [[h|]|] eqn:Hl; [|done|done].
    apply exec_waiting; [congruence|by eapply lookup_lt_Some|done].
  - destruct (procs s !! rid') as [[h|]|] eqn:Hl; [|done|done].
    apply exec_waiting; [congruence|by eapply lookup_lt_Some|done].
Qed.

Lemma run_waiting (answer : bool -> Effect) evs :
  (forall b, k b = emit (answer b)) ->
  forall s, waiting_for_stat rid t k s ->
  effects_of rid (trace (run cfg rt s evs)) = []
  \/ exists b, effects_of rid (trace (run cfg rt s evs)) = [answer b].
Proof.
  intros Hk. induction evs as [|ev evs IH]; intros s Hw; [left; apply Hw|].
  cbn [run foldl]. fold (run cfg rt (step cfg rt s ev) evs).
  assert (Hcase : (exists b, ev = Complete t (AnsStat b))
                  \/ forall b, ev <> Complete t (AnsStat b)).
  { destruct ev as [|tid a| | |]; try (right; discriminate).
    destruct (decide (tid = t)) as [->|]; [|right; congruence].
    destruct a; try (right; discriminate). left. by eexists. }
  destruct Hcase as [[b ->]|Hev]; [|by apply IH, step_waiting].
  right. exists b. destruct Hw as (Hwf & Ht & Hu & Hp & He).
  assert (Hrid : (rid < length (procs s))%nat) by (by eapply lookup_lt_Some).
  assert (E : step cfg rt s (Complete t (AnsStat b)) = record rid (answer b) (finish t rid s)).
  { cbn [step]. rewrite Ht. cbn [resume]. by rewrite Hk. }
  rewrite E.
  destruct (run_after cfg rt nothing rid evs (record rid (answer b) (finish t rid s)))
    as (rest & Hall & Hrest).
  - rewrite <- E. by apply step_wf.
  - done.
  - apply stored_record. split.
    + intros tid w. cbn [finish tasks]. intros Hl.
      apply list_lookup_insert_Some in Hl as [(_ & Ex & _)|[Hne Hl]]; [discriminate Ex|].
      by specialize (Hu _ _ Hl).
    + intros h. cbn [finish procs]. rewrite Hp. discriminate.
  - apply nothing_nil in Hrest. subst rest. rewrite Hall, app_nil_r.
    cbn [record finish trace]. by rewrite effects_of_app, He, effects_of_single.
Qed.
End Once.

(** ** Log files *)

Section Logs.
Context (cfg : Config) (rt : Runtime).

Lemma server_log_request req pathname repoName gitHash :
  method req = u "GET" -> truthy (LOG_DIR cfg) = true ->
  url_pathname req = Some pathname ->
  filter (fun part => nonempty part = true) (split slash pathname) = [repoName; gitHash] ->
  server cfg rt req
  = let logPath := path_join rt [tmpl (LOG_DIR cfg); repoName; gitHash ++ u ".txt"] in
    Stat logPath (fun is_file =>
      if is_file then emit (ServeLog logPath)
      else emit (Respond 404 (u "Log file not found"))).
Proof.
  intros Hm Hl Hu Hp. unfold server. rewrite Hm, Hl, Hu, Hp.
  by rewrite bool_decide_eq_true_2.
Qed.

Lemma log_file_answers existing evs1 req pathname repoName gitHash evs2 :
  let s0 := run cfg rt (boot existing) evs1 in
  let rid := length (procs s0) in
  let logPath := path_join rt [tmpl (LOG_DIR cfg); repoName; gitHash ++ u ".txt"] in
  method req = u "GET" -> truthy (LOG_DIR cfg) = true ->
  url_pathname req = Some pathname ->
  filter (fun part => nonempty part = true) (split slash pathname) = [repoName; gitHash] ->
  let all := effects_of rid (trace (run cfg rt s0 (Incoming req :: evs2))) in
  all = [] \/ all = [ServeLog logPath] \/ all = [Respond 404 (u "Log file not found")].
Proof.
  intros s0 rid logPath Hm Hl Hu Hp. set (t0 := length (tasks s0)).
  pose proof (run_boot_wf cfg rt existing evs1) as Hwf. fold s0 in Hwf.
  pose proof (effects_of_fresh s0 Hwf) as Hfresh. fold rid in Hfresh.
  pose proof (server_log_request req pathname repoName gitHash Hm Hl Hu Hp) as Hsrv.
  cbv zeta in Hsrv. fold logPath in Hsrv.
  assert (E : step cfg rt s0 (Incoming req)
              = suspend rid (PStat (fun is_file : bool =>
                    if is_file then emit (ServeLog logPath)
                    else emit (Respond 404 (u "Log file not found"))))
                  (open_request s0)).
  { cbn [step]. rewrite Hsrv. reflexivity. }
  cbv zeta. cbn [run foldl]. fold (run cfg rt (step cfg rt s0 (Incoming req)) evs2).
  rewrite E.
  set (k := fun is_file : bool =>
              if is_file then emit (ServeLog logPath)
              else emit (Respond 404 (u "Log file not found"))) in *.
  set (answer := fun b : bool =>
                   if b then ServeLog logPath else Respond 404 (u "Log file not found")).
  assert (Hk : forall b, k b = emit (answer b)) by (by intros [|]).
  destruct (run_waiting cfg rt rid t0 k answer evs2 Hk (suspend rid (PStat k) (open_request s0)))
    as [H|[[|] H]]; auto.
  split; [rewrite <- E; by apply step_wf|]. split; [apply lookup_snoc|].
  split; [|split; [apply lookup_snoc|done]].
  intros tid w. cbn [suspend open_request tasks]. intros Hlk.
  apply lookup_app_Some in Hlk as [Hlk|[Hge Hlk]].
  - destruct Hwf as [Hb _]. specialize (Hb _ _ _ Hlk). unfold rid in Hb. lia.
  - apply list_lookup_singleton_Some in Hlk as [Hz _]. unfold t0. lia.
Qed.

Lemma log_file_stat existing evs1 req pathname repoName gitHash :
  let s0 := run cfg rt (boot existing) evs1 in
  let rid := length (procs s0) in
  let t0 := length (tasks s0) in
  let logPath := path_join rt [tmpl (LOG_DIR cfg); repoName; gitHash ++ u ".txt"] in
  method req = u "GET" -> truthy (LOG_DIR cfg) = true ->
  url_pathname req = Some pathname ->
  filter (fun part => nonempty part = true) (split slash pathname) = [repoName; gitHash] ->
  effects_of rid (trace (step cfg rt s0 (Incoming req))) = []
  /\ effects_of rid (trace (run cfg rt s0 [Incoming req; Complete t0 (AnsStat true)]))
     = [ServeLog logPath]
  /\ effects_of rid (trace (run cfg rt s0 [Incoming req; Complete t0 (AnsStat false)]))
     = [Respond 404 (u "Log file not found")].
Proof.
  intros s0 rid t0 logPath Hm Hl Hu Hp.
  pose proof (run_boot_wf cfg rt existing evs1) as Hwf. fold s0 in Hwf.
  pose proof (effects_of_fresh s0 Hwf) as Hfresh. fold rid in Hfresh.
  pose proof (server_log_request req pathname repoName gitHash Hm Hl Hu Hp) as Hsrv.
  cbv zeta in Hsrv. fold logPath in Hsrv.
  assert (E : step cfg rt s0 (Incoming req)
              = suspend rid (PStat (fun is_file : bool =>
                    if is_file then emit (ServeLog logPath)
                    else emit (Respond 404 (u "Log file not found"))))
                  (open_request s0)).
  { cbn [step]. rewrite Hsrv. reflexivity. }
  split; [by rewrite E|].
  assert (Hdone : forall b,
            run cfg rt s0 [Incoming req; Complete t0 (AnsStat b)]
            = exec rid (if b then emit (ServeLog logPath)
                        else emit (Respond 404 (u "Log file not found")))
                (retire rid (open_request s0))).
  { intros b. cbn [run foldl]. rewrite E.
    by erewrite step_complete_last; [|reflexivity|reflexivity]. }
  split; rewrite Hdone; cbn [exec emit record trace retire open_request];
    by rewrite effects_of_app, Hfresh, effects_of_single.
Qed.

(** X6. A GET for [/<repo>/<hash>] with LOG_DIR set writes nothing until
    [stat] of [LOG_DIR/<repo>/<hash>.txt] settles; then the file is streamed
    if it is a regular file, and [404 Log file not found] is sent otherwise.
    Under any later events the request produces nothing but that. *)
Theorem log_file_is_served_or_404 existing evs1 req pathname repoName gitHash evs2 :
  let s0 := run cfg rt (boot existing) evs1 in
  let rid := length (procs s0) in
  let t0 := length (tasks s0) in
  let logPath := path_join rt [tmpl (LOG_DIR cfg); repoName; gitHash ++ u ".txt"] in
  method req = u "GET" -> truthy (LOG_DIR cfg) = true ->
  url_pathname req = Some pathname ->
  filter (fun part => nonempty part = true) (split slash pathname) = [repoName; gitHash] ->
  effects_of rid (trace (step cfg rt s0 (Incoming req))) = []
  /\ effects_of rid (trace (run cfg rt s0 [Incoming req; Complete t0 (AnsStat true)]))
     = [ServeLog logPath]
  /\ effects_of rid (trace (run cfg rt s0 [Incoming req; Complete t0 (AnsStat false)]))
     = [Respond 404 (u "Log file not found")]
  /\ (let all := effects_of rid (trace (run cfg rt s0 (Incoming req :: evs2))) in
      all = [] \/ all = [ServeLog logPath]
      \/ all = [Respond 404 (u "Log file not found")]).
Proof.
  intros s0 rid t0 logPath Hm Hl Hu Hp.
  destruct (log_file_stat existing evs1 req pathname repoName gitHash Hm Hl Hu Hp)
    as (H1 & H2 & H3).
  split; [exact H1|]. split; [exact H2|]. split; [exact H3|].
  by apply (log_file_answers existing evs1 req pathname repoName gitHash evs2).
Qed.

Lemma filter_log_path (n h : jsstring) :
  nonempty n = true -> slash ∉ n -> nonempty h = true -> slash ∉ h ->
  filter (fun part => nonempty part = true) (split slash (slash :: n ++ slash :: h)) = [n; h].
Proof.
  intros Hn Hsn Hh Hsh. cbn [split]. rewrite N.eqb_refl, split_app.
  rewrite (split_without slash n Hsn), (split_without slash h Hsh). cbn [app].
  rewrite filter_cons, decide_False by done.
  rewrite filter_cons, decide_True by done.
  rewrite filter_cons, decide_True by done. done.
Qed.

(** X7. A GET with LOG_DIR set whose URL cannot be parsed is never answered:
    the handler's promise rejects with the URL error and nothing is written
    to the response, whatever happens afterwards. *)
Theorem malformed_url_gets_no_response existing evs1 req evs2 :
  let s0 := run cfg rt (boot existing) evs1 in
  let rid := length (procs s0) in
  method req = u "GET" -> truthy (LOG_DIR cfg) = true -> url_pathname req = None ->
  effects_of rid (trace (run cfg rt s0 (Incoming req :: evs2)))
  = [UnhandledRejection (url_error req)].
Proof.
  intros s0 rid Hm Hl Hu.
  pose proof (run_boot_wf cfg rt existing evs1) as Hwf. fold s0 in Hwf.
  apply request_returns; [done|].
  cbn [step]. unfold server. rewrite Hm, Hl, Hu. by rewrite bool_decide_eq_true_2.
Qed.
End Logs.

Section Answers.
Context (cfg : Config) (rt : Runtime).

(** X8. No request is answered more than once: under any events, the effects
    of one request hold at most one response. *)
Theorem no_request_is_answered_twice existing evs1 req evs2 :
  let s0 := run cfg rt (boot existing) evs1 in
  let rid := length (procs s0) in
  (length (responses (effects_of rid (trace (run cfg rt s0 (Incoming req :: evs2))))) <= 1)%nat.
Proof.
  intros s0 rid.
  pose proof (run_boot_wf cfg rt existing evs1) as Hwf. fold s0 in Hwf.
  destruct (is_log_request cfg req) eqn:Hlog.
  - unfold is_log_request in Hlog.
    apply andb_true_iff in Hlog as [Hlog Hparts].
    apply andb_true_iff in Hlog as [Hm Hl]. apply bool_decide_eq_true_1 in Hm.
    destruct (url_pathname req) as [pathname|] eqn:Hu; [|discriminate Hparts].
    apply bool_decide_eq_true_1 in Hparts.
    destruct (filter _ _) as [|repoName [|gitHash [|x l]]] eqn:Hf; try discriminate Hparts.
    destruct (log_file_answers cfg rt existing evs1 req pathname repoName gitHash evs2
                Hm Hl Hu Hf) as [E|[E|E]]; fold s0 rid in E; rewrite E; cbn; lia.
  - destruct (url_throws cfg req) eqn:Hurl.
    + pose proof (request_returns cfg rt s0 req [UnhandledRejection (url_error req)] evs2 Hwf)
        as E.
      fold rid in E. rewrite E; [cbn; lia|].
      cbn [step]. by rewrite server_url_throws.
    + destruct (webhook_answers_once cfg rt req rid (open_request s0))
        as (pre & text & post & E & Hpre & Hpost & Hst); [by apply stored_fresh|].
      assert (step cfg rt s0 (Incoming req) = exec rid (webhook cfg rt req) (open_request s0))
        as Hstep by (cbn [step]; by rewrite server_is_webhook).
      destruct (request_lifetime_from cfg rt no_response s0 req evs2
                  (pre ++ [Respond (webhook_status cfg rt req) text] ++ post) Hwf)
        as (rest & Eall & Hrest); [by rewrite Hstep|by rewrite Hstep|].
      fold rid in Eall. rewrite Eall, !responses_app, Hpre, Hpost.
      rewrite (no_response_responses _ Hrest). cbn. lia.
Qed.
End Answers.

(** ** The rolling buffer in every run *)

Lemma state_ext (s1 s2 : State) :
  runningDeploys s1 = runningDeploys s2 -> dirs s1 = dirs s2 -> trace s1 = trace s2 ->
  tasks s1 = tasks s2 -> lines s1 = lines s2 -> procs s1 = procs s2 -> s1 = s2.
Proof. destruct s1, s2. cbn. by intros -> -> -> -> -> ->. Qed.

Lemma roll_bound buf line : (length buf <= 50)%nat -> (length (roll buf line) <= 50)%nat.
Proof.
  intros H. unfold roll. cbv zeta.
  destruct (50 <? length (buf ++ [line]))%nat eqn:Hc;
    rewrite ?length_drop, length_app; cbn [length]; [lia|].
  apply Nat.ltb_ge in Hc. rewrite length_app in Hc. cbn [length] in Hc. lia.
Qed.

Lemma foldl_roll_bound kept : forall buf,
  (length buf <= 50)%nat -> (length (foldl roll buf kept) <= 50)%nat.
Proof.
  induction kept as [|x kept IH]; intros buf H; [done|]. cbn [foldl]. by apply IH, roll_bound.
Qed.

Lemma foldl_roll_from buf kept :
  (length buf <= 50)%nat -> foldl roll buf kept = slice_last 50 (buf ++ kept).
Proof.
  intros H. induction kept as [|x kept IH] using rev_ind.
  - rewrite app_nil_r. cbn [foldl]. unfold slice_last.
    replace (length buf - 50)%nat with 0%nat by lia. done.
  - rewrite foldl_app, IH. cbn [foldl]. by rewrite roll_slice_last, app_assoc.
Qed.

Lemma records_app rid l1 l2 s : records rid (l1 ++ l2) s = records rid l2 (records rid l1 s).
Proof. apply foldl_app. Qed.

(** One line, then a chunk: the state [saveLines] leaves. *)
Lemma exec_save_line_state rid ls x s :
  exec rid (save_line ls x) s
  = if nonempty (trim x)
    then records rid (line_effects ls (trim x))
           (set_lines rid (fun buf => roll buf (trim x)) s)
    else s.
Proof.
  unfold save_line. destruct (nonempty (trim x)); [|done].
  cbn [exec then_ seq log emit].
  assert (Hl : lines (record rid (ConsoleLog [LStr (u "[deploy] " ++ trim x)])
                        (set_lines rid (fun ls0 => ls0 ++ [trim x]) s))
               = alter (fun ls0 => ls0 ++ [trim x]) rid (lines s)) by done.
  unfold get_lines. rewrite Hl, list_lookup_alter.
  destruct (lines s !! rid) as [buf|] eqn:Hb; cbn [fmap option_fmap option_map default].
  - rewrite decide_True by done. cbn [fmap option_fmap option_map default]. unfold id.
    assert (Hroll : alter (fun b => roll b (trim x)) rid (lines s)
                    = if (50 <? length (buf ++ [trim x]))%nat
                      then alter (drop 1) rid (alter (fun b => b ++ [trim x]) rid (lines s))
                      else alter (fun b => b ++ [trim x]) rid (lines s)).
    { destruct (50 <? length (buf ++ [trim x]))%nat eqn:Hc.
      - rewrite list_alter_alter_eq. apply list_alter_ext; [|done].
        intros b Hb'. rewrite Hb in Hb'. injection Hb' as <-. unfold roll. cbv zeta.
        by rewrite Hc.
      - apply list_alter_ext; [|done].
        intros b Hb'. rewrite Hb in Hb'. injection Hb' as <-. unfold roll. cbv zeta.
        by rewrite Hc. }
    destruct (50 <? length (buf ++ [trim x]))%nat; destruct ls as [path|];
      cbn [exec then_ line_effects records foldl];
      apply state_ext; cbn [record set_lines runningDeploys dirs trace tasks lines procs];
      try reflexivity; by rewrite Hroll.
  - rewrite decide_True by done. cbn [fmap option_fmap option_map default length].
    assert (Hroll : alter (fun b => roll b (trim x)) rid (lines s)
                    = alter (fun b => b ++ [trim x]) rid (lines s)).
    { apply list_alter_ext; [|done]. intros b Hb'. by rewrite Hb in Hb'. }
    destruct ls as [path|];
      cbn [exec then_ line_effects records foldl Nat.ltb Nat.leb];
      apply state_ext; cbn [record set_lines runningDeploys dirs trace tasks lines procs];
      try reflexivity; by rewrite Hroll.
Qed.

Lemma set_lines_records rid rid' f l s :
  set_lines rid f (records rid' l s) = records rid' l (set_lines rid f s).
Proof.
  revert s. induction l as [|e l IH]; intros s; [done|].
  cbn [records foldl]. fold (records rid' l (record rid' e s)).
  fold (records rid' l (record rid' e (set_lines rid f s))). by rewrite IH.
Qed.

Lemma set_lines_twice rid f g s :
  set_lines rid f (set_lines rid g s) = set_lines rid (f ∘ g) s.
Proof.
  apply state_ext; cbn [set_lines runningDeploys dirs trace tasks lines procs]; try done.
  apply list_alter_alter_eq.
Qed.

Lemma set_lines_id rid s : set_lines rid (fun buf => buf) s = s.
Proof.
  apply state_ext; cbn [set_lines runningDeploys dirs trace tasks lines procs]; try done.
  by apply list_alter_id.
Qed.

Lemma kept_lines_cons x raws :
  kept_lines (x :: raws)
  = (if nonempty (trim x) then [trim x] else []) ++ kept_lines raws.
Proof.
  unfold kept_lines. rewrite fmap_cons, filter_cons.
  destruct (nonempty (trim x)); [by rewrite decide_True|by rewrite decide_False].
Qed.

Lemma exec_save_lines_state rid ls raws : forall s,
  exec rid (forEach raws (save_line ls)) s
  = records rid (flat_map (line_effects ls) (kept_lines raws))
      (set_lines rid (fun buf => foldl roll buf (kept_lines raws)) s).
Proof.
  induction raws as [|x raws IH]; intros s.
  - cbn [forEach foldr exec kept_lines]. by rewrite set_lines_id.
  - change (forEach (x :: raws) (save_line ls))
      with (then_ (save_line ls x) (forEach raws (save_line ls)) Throw).
    rewrite exec_then_sync by apply sync_save_line.
    rewrite IH, exec_save_line_state, kept_lines_cons.
    destruct (nonempty (trim x)); [|done].
    cbn [app flat_map foldl]. rewrite records_app, set_lines_records, set_lines_twice.
    reflexivity.
Qed.

Lemma tidy_then p kr kt :
  tidy p -> tidy kr -> (forall e, tidy (kt e)) -> tidy (then_ p kr kt).
Proof. induction 1; intros; cbn [then_]; try constructor; auto. Qed.

Lemma tidy_seq p q : tidy p -> tidy q -> tidy (seq p q).
Proof. intros. apply tidy_then; [done|done|]. intros e. constructor. Qed.

Lemma tidy_try_catch p h : tidy p -> (forall e, tidy (h e)) -> tidy (try_catch p h).
Proof. intros. apply tidy_then; [done|constructor|done]. Qed.

Lemma tidy_finally p q : tidy p -> tidy q -> tidy (finally p q).
Proof.
  intros. apply tidy_then; [done|done|]. intros e. apply tidy_seq; [done|constructor].
Qed.

Ltac tidy_tac :=
  repeat match goal with
  | |- forall _, _ => intro
  | |- tidy (if ?b then _ else _) => destruct b
  | |- tidy (match ?x with _ => _ end) => destruct x
  | |- tidy (let _ := _ in _) => cbv zeta
  | |- tidy (then_ _ _ _) => apply tidy_then
  | |- tidy (seq _ _) => apply tidy_seq
  | |- tidy (try_catch _ _) => apply tidy_try_catch
  | |- tidy (finally _ _) => apply tidy_finally
  | |- tidy (emit _) => unfold emit
  | |- tidy (log _) => unfold log, emit
  | |- tidy _ => constructor
  end.

Lemma server_tidy cfg rt req : tidy (server cfg rt req).
Proof.
  unfold server, webhook, on_end, on_error, on_catch, handle_event, withDeployLock,
    deployFn, onError, onClose, runGit, git_settled,
    reportErrorAndCleanup, addComment, setStatus, callGitHub, api_settled.
  tidy_tac.
Qed.

Lemma tidy_state_record rid e s : tidy_state s -> tidy_state (record rid e s).
Proof. done. Qed.

Lemma tidy_state_set_running X s : tidy_state s -> tidy_state (set_running X s).
Proof. done. Qed.

Lemma tidy_state_suspend rid w s :
  tidy_pending w -> tidy_state s -> tidy_state (suspend rid w s).
Proof.
  intros Hw [Ht Hp]. split; [|exact Hp].
  intros tid rid' w'. cbn [suspend tasks]. intros Hl.
  apply lookup_app_Some in Hl as [Hl|[_ Hl]]; [by eapply Ht|].
  apply list_lookup_singleton_Some in Hl as [_ Hl]. by injection Hl as _ <-.
Qed.

Lemma tidy_state_set_handlers rid h s :
  tidy_handlers h -> tidy_state s -> tidy_state (set_handlers rid h s).
Proof.
  intros Hh [Ht Hp]. split; [exact Ht|].
  intros rid' h'. cbn [set_handlers procs]. intros Hl.
  apply list_lookup_insert_Some in Hl as [(_ & E & _)|[_ Hl]]; [|by eapply Hp].
  by injection E as <-.
Qed.

(** A tidy program leaves every buffer as it is. *)
Lemma exec_tidy p :
  tidy p -> forall rid s,
  tidy_state s -> lines (exec rid p s) = lines s /\ tidy_state (exec rid p s).
Proof.
  induction 1; intros rid s Hs; cbn [exec]; auto.
  - destruct (IHtidy rid (record rid e s)) as [E Hst]; [done|]. by rewrite E.
  - match goal with |- context [exec rid k ?s'] => destruct (IHtidy rid s') as [E Hst] end;
      [done|]. by rewrite E.
  - match goal with |- context [exec rid k ?s'] => destruct (IHtidy rid s') as [E Hst] end;
      [done|]. by rewrite E.
  - destruct (IHtidy1 rid s Hs) as [E1 H1]. destruct (IHtidy2 rid (exec rid p s) H1) as [E2 H2].
    by rewrite E2, E1.
  - split; [done|]. by apply tidy_state_suspend.
  - split; [done|]. by apply tidy_state_suspend.
  - split; [done|]. by apply tidy_state_suspend.
  - split; [done|]. by apply tidy_state_suspend.
  - match goal with |- context [exec rid k ?s'] => destruct (IHtidy rid s') as [E Hst] end.
    + apply tidy_state_set_handlers; [|done]. split; [by eexists|]. by split.
    + by rewrite E.
Qed.

Lemma lines_save_lines rid ls raws s :
  lines (exec rid (forEach raws (save_line ls)) s)
  = alter (fun buf => foldl roll buf (kept_lines raws)) rid (lines s).
Proof. rewrite exec_save_lines_state, lines_records. reflexivity. Qed.

Lemma tidy_state_save_lines rid ls raws s :
  tidy_state s -> tidy_state (exec rid (forEach raws (save_line ls)) s).
Proof.
  rewrite exec_save_lines_state. intros [Ht Hp]. split.
  - intros tid r w. rewrite tasks_records. apply Ht.
  - intros r h. rewrite procs_records. apply Hp.
Qed.

Section Buffers.
Context (cfg : Config) (rt : Runtime).

Lemma step_buffers s ev :
  buffers_bounded s -> tidy_state s ->
  buffers_bounded (step cfg rt s ev) /\ tidy_state (step cfg rt s ev).
Proof.
  unfold buffers_bounded. intros Hb Hs.
  destruct ev as [req|tid a|rid data|rid code|rid err]; cbn [step].
  - destruct (exec_tidy _ (server_tidy cfg rt req) (length (procs s)) (open_request s))
      as [E Hst].
    + destruct Hs as [Ht Hp]. split; [exact Ht|].
      intros rid h. cbn [open_request procs]. intros Hl.
      apply lookup_app_Some in Hl as [Hl|[_ Hl]]; [by eapply Hp|].
      apply list_lookup_singleton_Some in Hl as [_ Hl]. discriminate Hl.
    + split; [|done]. rewrite E. cbn [open_request lines].
      apply Forall_app. split; [done|]. constructor; [cbn; lia|constructor].
  - destruct (tasks s !! tid) as [[rid [w|]]|] eqn:Hl; [|done|done].
    destruct (resume w a) as [p|] eqn:Hr; [|done].
    assert (Hp : tidy p).
    { destruct Hs as [Ht _]. specialize (Ht _ _ _ Hl).
      destruct w, a; cbn in Hr; try discriminate; injection Hr as <-; apply Ht. }
    destruct (exec_tidy p Hp rid (finish tid rid s)) as [E Hst]; [|split; [by rewrite E|done]].
    destruct Hs as [Ht Hh]. split; [|exact Hh].
    intros tid' rid' w'. cbn [finish tasks]. intros Hl'.
    apply list_lookup_insert_Some in Hl' as [(_ & E & _)|[_ Hl']]; [discriminate E|].
    by eapply Ht.
  - destruct (procs s !! rid) as [[h|]|] eqn:Hl; [|done|done].
    destruct Hs as [Ht Hh]. destruct (Hh _ _ Hl) as ([ls Hd] & _ & _).
    rewrite Hd. unfold saveLines. split.
    + rewrite lines_save_lines. apply Forall_alter; [done|].
      intros buf _ Hlen. by apply foldl_roll_bound.
    + by apply tidy_state_save_lines.
  - destruct (procs s !! rid) as [[h|]|] eqn:Hl; [|done|done].
    destruct (exec_tidy (on_close h code)) with (rid := rid) (s := s) as [E Hst];
      [apply (proj2 Hs _ _ Hl)|done|]. split; [by rewrite E|done].
  - destruct (procs s !! rid) as [[h|]|] eqn:Hl; [|done|done].
    destruct (exec_tidy (on_proc_error h err)) with (rid := rid) (s := s) as [E Hst];
      [apply (proj2 Hs _ _ Hl)|done|]. split; [by rewrite E|done].
Qed.

Lemma run_buffers existing evs :
  buffers_bounded (run cfg rt (boot existing) evs)
  /\ tidy_state (run cfg rt (boot existing) evs).
Proof.
  assert (H : forall s, buffers_bounded s -> tidy_state s ->
            buffers_bounded (run cfg rt s evs) /\ tidy_state (run cfg rt s evs)).
  { induction evs as [|ev evs IH]; intros s Hb Hs; [done|].
    cbn [run foldl]. destruct (step_buffers s ev Hb Hs). by apply IH. }
  apply H; [constructor|]. split.
  - intros tid rid w. cbn [boot tasks]. by rewrite lookup_nil.
  - intros rid h. cbn [boot procs]. by rewrite lookup_nil.
Qed.

(** X13. In every run, the output buffer of every deploy holds at most 50
    lines. *)
Theorem buffers_never_exceed_50_lines existing evs rid :
  (length (get_lines rid (run cfg rt (boot existing) evs)) <= 50)%nat.
Proof.
  destruct (run_buffers existing evs) as [Hb _]. unfold get_lines.
  destruct (lines _ !! rid) as [buf|] eqn:Hl; cbn [default length]; [|lia].
  unfold buffers_bounded in Hb. rewrite Forall_lookup in Hb. by eapply Hb.
Qed.

(** X14. A chunk of output of a launched deploy is split at newlines; every
    line that is not blank is trimmed, appended to the buffer (of which the
    last 50 lines are kept), logged with the [[deploy]] prefix and, when
    there is a log file, written to it, in order; nothing else changes. *)
Theorem output_is_buffered_and_logged existing evs event logStream rid data :
  let s := run cfg rt (boot existing) evs in
  let s' := step cfg rt s (ProcData rid data) in
  let kept := kept_lines (split nl data) in
  launched cfg event logStream rid s ->
  get_lines rid s' = slice_last 50 (get_lines rid s ++ kept)
  /\ trace s' = trace s ++ (pair rid <$> flat_map (line_effects logStream) kept)
  /\ tasks s' = tasks s /\ procs s' = procs s
  /\ runningDeploys s' = runningDeploys s.
Proof.
  intros s s' kept Hl.
  destruct (run_buffers existing evs) as [Hb _]. fold s in Hb.
  unfold buffers_bounded in Hb. rewrite Forall_lookup in Hb.
  pose proof (run_boot_wf cfg rt existing evs) as Hwf. fold s in Hwf.
  assert (Hrid : (rid < length (lines s))%nat).
  { destruct Hwf as (_ & _ & ->). by eapply lookup_lt_Some. }
  assert (E : s' = records rid (flat_map (line_effects logStream) kept)
                     (set_lines rid (fun buf => foldl roll buf kept) s)).
  { unfold s'. cbn [step]. rewrite Hl. cbn [deploy_handlers on_data]. unfold saveLines.
    apply exec_save_lines_state. }
  rewrite E. split.
  - unfold get_lines at 1. rewrite lines_records. cbn [set_lines lines].
    rewrite list_lookup_alter. unfold get_lines.
    destruct (lookup_lt_is_Some_2 _ _ Hrid) as [buf Hbuf]. rewrite Hbuf.
    rewrite decide_True by done. cbn [fmap option_fmap option_map default].
    apply foldl_roll_from. by eapply Hb.
  - rewrite trace_records, tasks_records, procs_records, runningDeploys_records.
    by repeat split.
Qed.
End Buffers.

(** ** The log file of a deploy *)

Section DeployLog.
Context (cfg : Config) (rt : Runtime).

(** A deploy that reaches the spawn of [just] with LOG_DIR set has
    opened its log file. *)
Lemma deploy_opens_log existing evs1 req event n r0 out1 out2 :
  let s0 := run cfg rt (boot existing) evs1 in
  let rid := length (procs s0) in
  let s := run cfg rt s0
             (Incoming req :: launch_events cfg event (length (tasks s0)) r0 out1 out2) in
  delivers cfg rt req event -> deployable event = true ->
  deployKey_of event ∉ runningDeploys s0 -> cwd_of event ∈ dirs s0 ->
  truthy (LOG_DIR cfg) = true -> repoName_of event = Val (Str n) ->
  CreateWriteStream
    (path_join rt [path_join rt [tmpl (LOG_DIR cfg); n]; sha_of event ++ u ".txt"])
  ∈ effects_of rid (trace s).
Proof.
  intros s0 rid s Hd Hdep Hkey Hcwd Hlog Hn. subst rid.
  pose proof (run_boot_wf cfg rt existing evs1) as Hwf. fold s0 in Hwf.
  pose proof (deployable_sha event Hdep) as Hsha.
  pose proof (effects_of_fresh s0 Hwf) as Hfresh.
  remember s as fin eqn:E. unfold s, launch_events in *. clear s. clearbody s0.
  unfold reporting in *. rewrite Hlog in E.
  destruct (truthy (TOKEN cfg)) eqn:Htok, (truthy (repo_of event)) eqn:Hrepo;
    cbn [andb app run foldl] in E;
    rewrite (step_delivers cfg rt s0 req event Hd (deployable_handled event Hdep)) in E;
    rewrite exec_deployable in E by done; rewrite exec_lock_free in E by done;
    unfold deployFn in E; run_in E; rewrite bool_decide_eq_true_2 in E by done;
    unfold setStatus at 1, callGitHub at 1 in E;
    values_in E;
    rewrite ?Hsha, ?Htok, ?Hrepo, ?Hlog in E; run_in E.
  all: try (complete_in E; api_run_in E).
  all: unfold runGit at 1 in E; run_in E; complete_in E; cbn [git_settled] in E; run_in E.
  all: unfold runGit at 1 in E; run_in E; complete_in E; cbn [git_settled] in E; run_in E.
  all: rewrite Hn in E; run_in E; complete_in E; run_in E.
  all: rewrite E; clear E.
  all: trace_of; effects; rewrite Hfresh.
  all: rewrite ?elem_of_app, ?elem_of_cons; tauto.
Qed.

(** X9. The file a deploy writes its output to is the file the log request
    for [/<repository name>/<sha>] streams.  Take a deploy that reaches the
    spawn of [just] with LOG_DIR set, for a repository name and a commit
    that hold no slash, and let [path.join] nest.  The deploy has opened
    [LOG_DIR/<name>/<sha>.txt]; every line of output it keeps is written to
    that file; and a GET for [/<name>/<sha>], once [stat] finds the file,
    streams that file. *)
Theorem deploy_log_is_the_log_served existing evs1 req event n r0 out1 out2 data greq :
  let s0 := run cfg rt (boot existing) evs1 in
  let rid := length (procs s0) in
  let s := run cfg rt s0
             (Incoming req :: launch_events cfg event (length (tasks s0)) r0 out1 out2) in
  let logPath := path_join rt [tmpl (LOG_DIR cfg); n; sha_of event ++ u ".txt"] in
  (forall a b c, path_join rt [path_join rt [a; b]; c] = path_join rt [a; b; c]) ->
  truthy (LOG_DIR cfg) = true -> repoName_of event = Val (Str n) ->
  nonempty n = true -> slash ∉ n -> slash ∉ sha_of event ->
  delivers cfg rt req event -> deployable event = true ->
  deployKey_of event ∉ runningDeploys s0 -> cwd_of event ∈ dirs s0 ->
  method greq = u "GET" ->
  url_pathname greq = Some (slash :: n ++ slash :: sha_of event) ->
  CreateWriteStream logPath ∈ effects_of rid (trace s)
  /\ trace (step cfg rt s (ProcData rid data))
     = trace s ++ (pair rid <$> flat_map (fun line =>
                     [ConsoleLog [LStr (u "[deploy] " ++ line)];
                      StreamWrite logPath (line ++ [nl])])
                     (kept_lines (split nl data)))
  /\ effects_of (length (procs s))
       (trace (run cfg rt s [Incoming greq; Complete (length (tasks s)) (AnsStat true)]))
     = [ServeLog logPath].
Proof.
  intros s0 rid s logPath Hjoin Hlog Hn Hne Hsn Hssha Hd Hdep Hkey Hcwd Hm Hu.
  pose proof (deployable_sha event Hdep) as Hsha.
  split; [|split].
  - unfold logPath. rewrite <- Hjoin.
    by apply (deploy_opens_log existing evs1 req event n r0 out1 out2).
  - destruct (deploy_launches cfg rt existing evs1 req event r0 out1 out2 Hd Hdep Hkey Hcwd)
      as (Hl & _); [by eauto|].
    fold s0 rid s in Hl. unfold launched in Hl.
    cbn [step]. rewrite Hl. cbn [deploy_handlers on_data]. unfold saveLines.
    rewrite exec_save_lines_state, trace_records. cbn [set_lines trace].
    unfold log_stream. rewrite Hlog, Hn. cbn [tmpl to_string js_value]. rewrite Hjoin.
    reflexivity.
  - pose proof (log_file_stat cfg rt existing
                  (evs1 ++ Incoming req
                        :: launch_events cfg event (length (tasks s0)) r0 out1 out2)
                  greq _ n (sha_of event) Hm Hlog Hu) as H.
    cbv zeta in H. rewrite run_app in H. fold s0 s in H.
    apply H. by apply filter_log_path.
Qed.
End DeployLog.

(** ** The earlier file: the lock is held while the process runs *)

Lemma dirs_record rid e s : dirs (record rid e s) = dirs s.
Proof. reflexivity. Qed.
Lemma dirs_set_running X s : dirs (set_running X s) = dirs s.
Proof. reflexivity. Qed.
Lemma dirs_open_request s : dirs (open_request s) = dirs s.
Proof. reflexivity. Qed.

Ltac dirs_in E :=
  repeat first [ rewrite dirs_records in E | rewrite dirs_record in E
               | rewrite dirs_set_running in E | rewrite dirs_open_request in E ].

Ltac running_in E :=
  repeat first [ rewrite runningDeploys_records in E
               | rewrite runningDeploys_retire in E
               | rewrite runningDeploys_record in E
               | rewrite runningDeploys_set_handlers in E
               | rewrite runningDeploys_set_running in E
               | rewrite runningDeploys_open_request in E ].

Section Earlier.
Context (cfg : Config) (rt : Runtime).

Lemma earlier_step_complete s tid a :
  WebhookJs.step cfg rt s (Complete tid a) = step cfg rt s (Complete tid a).
Proof. reflexivity. Qed.

Lemma earlier_step_wf s ev :
  wf s -> wf (WebhookJs.step cfg rt s ev).
Proof.
  intros Hs. destruct ev as [req|tid a|rid data|rid code|rid err];
    try (by apply (step_wf cfg rt)).
  cbn [WebhookJs.step].
  apply exec_wf; [|by apply wf_open_request].
  cbn [open_request procs]. rewrite length_app. cbn [length]. lia.
Qed.

Lemma earlier_run_wf evs : forall s, wf s -> wf (WebhookJs.run cfg rt s evs).
Proof.
  induction evs as [|ev evs IH]; intros s Hs; [done|].
  cbn [WebhookJs.run foldl]. apply IH. by apply earlier_step_wf.
Qed.

Lemma earlier_run_app s evs evs' :
  WebhookJs.run cfg rt s (evs ++ evs')
  = WebhookJs.run cfg rt (WebhookJs.run cfg rt s evs) evs'.
Proof. apply foldl_app. Qed.

(** The first step of a delivered push to a deployable branch. *)
Lemma earlier_step_deployable s req event :
  delivers cfg rt req event -> deployable event = true ->
  exists raw,
    WebhookJs.step cfg rt s (Incoming req)
    = exec (length (procs s))
        (then_
           (Has (deployKey_of event) (fun held =>
              if held then
                log (u "Deploy already running for " ++ deployKey_of event ++ u ", skipping")
              else
                Add (deployKey_of event)
                  (AccessSync (cwd_of event) (fun exists_ =>
                     if negb exists_ then
                       seq (emit (ConsoleError
                                    [LStr (u "Repository directory not found: "
                                           ++ cwd_of event)]))
                         (seq (Delete (deployKey_of event) Ret)
                            (setStatus cfg (repo_of event) (Val (Str (sha_of event))) (u "error")
                               (u "Repository directory not found")))
                     else
                       seq (setStatus cfg (repo_of event) (Val (Str (sha_of event))) (u "pending")
                              (u "Deploy started"))
                         (seq (log (rocket_sign ++ u " Starting deploy: just github-deploy "
                                    ++ sha_of event ++ u " (in " ++ cwd_of event ++ u ")"))
                            (SpawnProc (u "just") [u "github-deploy"; sha_of event]
                               (cwd_of event)
                               WebhookJs.saveLines
                               (WebhookJs.onClose cfg (repo_of event) (sha_of event)
                                  (deployKey_of event))
                               (WebhookJs.onError cfg (repo_of event) (sha_of event)
                                  (deployKey_of event))
                               Ret))))))
           Ret (WebhookJs.on_catch cfg rt raw))
        (record (length (procs s)) (ConsoleLog [LStr (push_message event)])
           (record (length (procs s)) (Respond 200 (u "ok")) (open_request s))).
Proof.
  intros (Hm & chunks & Hb & Hv & Hp) Hdep. exists (concat chunks).
  cbn [WebhookJs.step]. unfold WebhookJs.server. rewrite Hm, Hb.
  rewrite (bool_decide_eq_true_2 (u "POST" = u "POST")) by done.
  cbn [negb]. unfold WebhookJs.on_end. cbv zeta. rewrite Hv, Hp. cbn [negb].
  unfold try_catch, seq at 1, emit at 1. cbn [then_ exec].
  pose proof (deployable_typed event Hdep) as Hty.
  unfold deployable in Hdep. apply andb_true_iff in Hdep as [H1 H2].
  apply andb_true_iff in H1 as [H1 _].
  apply negb_true_iff in H1. unfold WebhookJs.handle_event. unfold rejected in H1.
  rewrite H1. cbv zeta.
  unfold push_message, deployKey_of, cwd_of, branch_of, sha_of, repo_of, repoName_of in *.
  apply typed_strings in Hty as (r & sha & Hr & Ha). rewrite Hr, Ha in *.
  cbn [tmpl to_string js_value] in *.
  unfold seq at 1, log at 1, emit at 1. cbn [then_ exec].
  destruct (bool_decide (pop (split slash r) = u "main")),
    (bool_decide (pop (split slash r) = u "master")); try discriminate H2; reflexivity.
Qed.

(** X15. In the earlier file the lock is held while the deploy process runs:
    once [just] is spawned the key is in the set, a second push for the same
    key is skipped, and the key is taken out when the process closes or
    fails to start. *)
Theorem earlier_lock_is_held_until_close
    existing evs1 req req2 event event2 r0 code err :
  let s0 := WebhookJs.run cfg rt (boot existing) evs1 in
  let rid := length (procs s0) in
  let key := deployKey_of event in
  let t0 := length (tasks s0) in
  let s1 := WebhookJs.run cfg rt s0
              (Incoming req :: if reporting cfg event then [Complete t0 (AnsApi r0)] else []) in
  delivers cfg rt req event -> deployable event = true ->
  key ∉ runningDeploys s0 -> cwd_of event ∈ dirs s0 ->
  delivers cfg rt req2 event2 -> deployable event2 = true -> deployKey_of event2 = key ->
  procs s1 !! rid
  = Some (Some {| on_data := WebhookJs.saveLines;
                  on_close := WebhookJs.onClose cfg (repo_of event) (sha_of event) key;
                  on_proc_error := WebhookJs.onError cfg (repo_of event) (sha_of event) key |})
  /\ runningDeploys s1 = {[key]} ∪ runningDeploys s0
  /\ spawns (effects_of rid (trace s1)) = [just_deploy event]
  /\ locks (effects_of rid (trace s1)) = [(true, key)]
  /\ effects_of (length (procs s1)) (trace (WebhookJs.step cfg rt s1 (Incoming req2)))
     = [Respond 200 (u "ok"); ConsoleLog [LStr (push_message event2)];
        ConsoleLog [LStr (u "Deploy already running for " ++ key ++ u ", skipping")]]
  /\ runningDeploys (WebhookJs.step cfg rt s1 (Incoming req2)) = runningDeploys s1
  /\ runningDeploys (WebhookJs.step cfg rt s1 (ProcClose rid code)) = runningDeploys s0
  /\ runningDeploys (WebhookJs.step cfg rt s1 (ProcError rid err)) = runningDeploys s0.
Proof.
  intros s0 rid key t0 s1 Hd Hdep Hkey Hcwd Hd2 Hdep2 Hk2. subst rid t0.
  assert (Hwf : wf s0) by apply earlier_run_wf, wf_boot.
  assert (Hwf1 : wf s1) by apply earlier_run_wf, Hwf.
  pose proof (deployable_sha event Hdep) as Hsha.
  pose proof (effects_of_fresh s0 Hwf) as Hfresh.
  pose proof (effects_of_fresh s1 Hwf1) as Hfresh1.
  assert (Hset : ({[key]} ∪ runningDeploys s0) ∖ {[key]} = runningDeploys s0)
    by (by apply lock_given_back).
  destruct (earlier_step_deployable s0 req event Hd Hdep) as [raw Hstep].
  destruct (earlier_step_deployable s1 req2 event2 Hd2 Hdep2) as [raw2 Hstep2].
  rewrite Hk2 in Hstep2. fold key in Hstep, Hstep2 |- *.
  set (h := {| on_data := WebhookJs.saveLines;
               on_close := WebhookJs.onClose cfg (repo_of event) (sha_of event) key;
               on_proc_error := WebhookJs.onError cfg (repo_of event) (sha_of event) key |}).
  (* the state once [just] is spawned *)
  assert (Hs1 : procs s1 !! length (procs s0) = Some (Some h)
                /\ runningDeploys s1 = {[key]} ∪ runningDeploys s0
                /\ spawns (effects_of (length (procs s0)) (trace s1)) = [just_deploy event]
                /\ locks (effects_of (length (procs s0)) (trace s1)) = [(true, key)]).
  { clear Hstep2 Hfresh1 Hwf1. remember s1 as fin eqn:E. unfold s1, reporting in E.
    clear s1. clearbody s0. unfold just_deploy.
    destruct (truthy (TOKEN cfg)) eqn:Htok, (truthy (repo_of event)) eqn:Hrepo;
      cbn [andb WebhookJs.run foldl] in E; rewrite ?earlier_step_complete in E;
      rewrite Hstep in E; run_in E; running_in E;
      rewrite bool_decide_eq_false_2 in E by done; run_in E; dirs_in E;
      rewrite bool_decide_eq_true_2 in E by done; cbn [negb] in E;
      unfold setStatus at 1, callGitHub at 1 in E; values_in E;
      rewrite ?Hsha, ?Htok, ?Hrepo in E; run_in E.
    1: complete_in E; api_run_in E.
    all: rewrite E; clear E.
    all: split; [fields_of; by rewrite lookup_fresh_handlers|].
    all: split; [running; reflexivity|].
    all: split; [trace_of; effects; rewrite Hfresh; projections; reflexivity|].
    all: trace_of; effects; rewrite Hfresh; projections; reflexivity. }
  destruct Hs1 as (Hlook & Hrun1 & Hsp & Hlk).
  split; [exact Hlook|]. split; [exact Hrun1|]. split; [exact Hsp|]. split; [exact Hlk|].
  assert (Hheld : key ∈ runningDeploys s1).
  { rewrite Hrun1. apply elem_of_union. left. by apply elem_of_singleton. }
  assert (E2 : WebhookJs.step cfg rt s1 (Incoming req2)
               = records (length (procs s1))
                   [Respond 200 (u "ok"); ConsoleLog [LStr (push_message event2)];
                    ConsoleLog [LStr (u "Deploy already running for " ++ key
                                       ++ u ", skipping")]]
                   (open_request s1)).
  { rewrite Hstep2. cbn [then_ exec]. rewrite !runningDeploys_record.
    rewrite runningDeploys_open_request. rewrite bool_decide_eq_true_2 by done. reflexivity. }
  split; [rewrite E2, trace_records; cbn [open_request trace];
          by rewrite effects_of_app, Hfresh1, effects_of_same|].
  split; [by rewrite E2, runningDeploys_records|].
  clear Hstep Hstep2 E2 Hfresh Hfresh1 Hsp Hlk. clearbody s1 s0. split.
  - remember (WebhookJs.step cfg rt s1 (ProcClose (length (procs s0)) code)) as fin eqn:E.
    cbn [WebhookJs.step step] in E. rewrite Hlook in E. unfold h in E. cbn [on_close] in E.
    unfold WebhookJs.onClose in E. run_in E.
    unfold setStatus at 1, callGitHub at 1 in E. values_in E.
    rewrite Hsha in E.
    destruct (is_zero code), (truthy (TOKEN cfg)) eqn:Htok, (truthy (repo_of event)) eqn:Hrepo;
      run_in E;
      try (unfold addComment at 1, callGitHub at 1 in E; values_in E;
           rewrite ?Hsha, ?Htok, ?Hrepo in E; run_in E).
    all: rewrite E; running; rewrite ?runningDeploys_suspend; running;
         rewrite Hrun1; exact Hset.
  - remember (WebhookJs.step cfg rt s1 (ProcError (length (procs s0)) err)) as fin eqn:E.
    cbn [WebhookJs.step step] in E. rewrite Hlook in E. unfold h in E.
    cbn [on_proc_error] in E. unfold WebhookJs.onError in E. run_in E.
    unfold setStatus at 1, callGitHub at 1 in E. values_in E.
    rewrite Hsha in E.
    destruct (truthy (TOKEN cfg)) eqn:Htok, (truthy (repo_of event)) eqn:Hrepo;
      run_in E;
      try (unfold addComment at 1, callGitHub at 1 in E; values_in E;
           rewrite ?Hsha, ?Htok, ?Hrepo in E; run_in E).
    all: rewrite E; running; rewrite ?runningDeploys_suspend; running;
         rewrite Hrun1; exact Hset.
Qed.

(** X16. In the earlier file, a push whose repository directory is missing
    takes the lock, logs [Repository directory not found: <cwd>], gives the
    lock back and reports the error status; no process is spawned and, once
    the status call settles, nothing is left in flight. *)
Theorem earlier_missing_directory existing evs1 req event r0 :
  let s0 := WebhookJs.run cfg rt (boot existing) evs1 in
  let rid := length (procs s0) in
  let key := deployKey_of event in
  let t0 := length (tasks s0) in
  let s1 := WebhookJs.step cfg rt s0 (Incoming req) in
  let s2 := WebhookJs.step cfg rt s1 (Complete t0 (AnsApi r0)) in
  delivers cfg rt req event -> deployable event = true ->
  key ∉ runningDeploys s0 -> cwd_of event ∉ dirs s0 ->
  effects_of rid (trace s1)
  = [Respond 200 (u "ok"); ConsoleLog [LStr (push_message event)]; SetAdd key;
     ConsoleError [LStr (u "Repository directory not found: " ++ cwd_of event)];
     SetDelete key]
    ++ (if reporting cfg event
        then [status_call cfg event (u "error") (u "Repository directory not found")]
        else [])
  /\ runningDeploys s1 = runningDeploys s0
  /\ (reporting cfg event = true ->
      effects_of rid (trace s2) = effects_of rid (trace s1) ++ api_error_log r0
      /\ forall tid w, tasks s2 !! tid = Some (rid, Some w) -> False).
Proof.
  intros s0 rid key t0 s1 s2 Hd Hdep Hkey Hcwd. subst rid t0.
  assert (Hwf : wf s0) by apply earlier_run_wf, wf_boot.
  pose proof (deployable_sha event Hdep) as Hsha.
  pose proof (effects_of_fresh s0 Hwf) as Hfresh.
  assert (Hset : ({[key]} ∪ runningDeploys s0) ∖ {[key]} = runningDeploys s0)
    by (by apply lock_given_back).
  destruct (earlier_step_deployable s0 req event Hd Hdep) as [raw Hstep].
  fold key in Hstep. unfold status_call, status_path, reporting.
  unfold s2. remember s1 as fin eqn:E. unfold s1 in E. clear s1 s2. clearbody s0.
  rewrite Hstep in E. run_in E. running_in E.
  rewrite bool_decide_eq_false_2 in E by done. run_in E. dirs_in E.
  rewrite bool_decide_eq_false_2 in E by done. cbn [negb] in E. run_in E.
  unfold setStatus at 1, callGitHub at 1 in E. values_in E.
  rewrite Hsha in E.
  destruct (truthy (TOKEN cfg)) eqn:Htok, (truthy (repo_of event)) eqn:Hrepo;
    cbn [andb]; run_in E.
  all: split; [rewrite E; trace_of; effects; rewrite Hfresh; reflexivity|].
  all: split; [rewrite E; running; rewrite ?runningDeploys_suspend; running; exact Hset|].
  all: intros Hrep; try discriminate Hrep.
  remember (WebhookJs.step cfg rt fin (Complete (length (tasks s0)) (AnsApi r0))) as fin2 eqn:E2.
  rewrite earlier_step_complete in E2. rewrite E in E2. complete_in E2.
  rewrite exec_then_sync in E2 by apply sync_api_settled.
  rewrite exec_api_settled in E2. run_in E2.
  split.
  - rewrite E2, E. trace_of. effects. by rewrite Hfresh.
  - rewrite E2. intros tid w Hl. rewrite tasks_records in Hl.
    cbn [tasks retire record set_running open_request] in Hl.
    eapply no_pending_suffix; [exact Hwf| |exact Hl].
    apply Forall_cons_2; [reflexivity|]. apply Forall_nil_2.
Qed.
End Earlier.

(** ** A payload without the full name of the repository *)

Section Unnamed.
Context (cfg : Config) (rt : Runtime).

Lemma setStatus_no_repo repo sha state desc :
  truthy repo = false -> setStatus cfg repo sha state desc = Ret.
Proof. intros H. unfold setStatus. by rewrite H. Qed.

Lemma addComment_no_repo repo sha text :
  truthy repo = false -> addComment cfg repo sha text = Ret.
Proof. intros H. unfold addComment. by rewrite H. Qed.

Lemma handle_event_no_repo event :
  truthy (repo_of event) = false -> always no_api (handle_event cfg rt event).
Proof.
  intros H. unfold repo_of in H.
  unfold handle_event, withDeployLock, deployFn, onError, onClose, saveLines, save_line,
    reportErrorAndCleanup, runGit, git_settled.
  always_using ltac:(first [ rewrite setStatus_no_repo by exact H
                           | rewrite addComment_no_repo by exact H ]).
Qed.

(** X17. A push whose payload lacks the full name of the repository, and
    which the filter rejects or whose ref and commit are strings, is never
    reported to GitHub: whatever happens afterwards, none of the effects of
    its request is an API call.  It is deployed all the same: on a
    deployable branch, with the key free and the directory present, the
    lock is taken and [git fetch] is spawned. *)
Theorem unnamed_repository_is_never_reported existing evs1 req event evs2 :
  let s0 := run cfg rt (boot existing) evs1 in
  let rid := length (procs s0) in
  let key := deployKey_of event in
  delivers cfg rt req event -> rejected event = true \/ typed event = true ->
  truthy (repo_of event) = false ->
  Forall (fun e => is_api e = false)
    (effects_of rid (trace (run cfg rt s0 (Incoming req :: evs2))))
  /\ (deployable event = true -> key ∉ runningDeploys s0 -> cwd_of event ∈ dirs s0 ->
      effects_of rid (trace (step cfg rt s0 (Incoming req)))
      = [Respond 200 (u "ok"); ConsoleLog [LStr (push_message event)]; SetAdd key;
         ConsoleLog [LStr (arrows_sign ++ u " git fetch origin " ++ sha_of event)];
         Spawn (u "git") [u "fetch"; u "origin"; sha_of event] (cwd_of event)]).
Proof.
  intros s0 rid key Hd Hty Hrepo.
  pose proof (run_boot_wf cfg rt existing evs1) as Hwf. fold s0 in Hwf.
  pose proof (effects_of_fresh s0 Hwf) as Hfresh. fold rid in Hfresh.
  pose proof (handle_event_no_repo event Hrepo) as Hal.
  split.
  - destruct (exec_always no_api _ Hal rid
                (record rid (Respond 200 (u "ok")) (open_request s0))) as (tr & Etr & Htr).
    destruct (request_lifetime_from cfg rt no_api s0 req evs2
                (Respond 200 (u "ok") :: tr) Hwf) as (rest & E & Hrest).
    + rewrite (step_delivers cfg rt s0 req event Hd Hty). fold rid. rewrite Etr.
      cbn [record trace open_request]. by rewrite <- app_assoc.
    + rewrite (step_delivers cfg rt s0 req event Hd Hty). fold rid.
      apply exec_later; [by apply always_later|].
      apply stored_record. by apply stored_fresh.
    + fold rid in E. rewrite E. apply Forall_app. split.
      * apply Forall_cons_2; [reflexivity|].
        eapply Forall_impl; [exact Htr|]. intros e. unfold no_api. by destruct (is_api e).
      * eapply Forall_impl; [exact Hrest|]. intros e. unfold no_api. by destruct (is_api e).
  - intros Hdep Hkey Hcwd. subst rid.
    remember (step cfg rt s0 (Incoming req)) as fin eqn:E. clearbody s0.
    rewrite (step_delivers cfg rt s0 req event Hd Hty) in E.
    rewrite exec_deployable in E by done. rewrite exec_lock_free in E by done.
    unfold deployFn in E. run_in E. rewrite bool_decide_eq_true_2 in E by done.
    rewrite setStatus_no_repo in E by exact Hrepo. run_in E.
    unfold runGit at 1 in E. run_in E.
    rewrite E. clear E. trace_of. effects. rewrite Hfresh. reflexivity.
Qed.
End Unnamed.

(** ** The further theorems on the sample data *)

Lemma no_key_at_start cfg existing (key : jsstring) :
  key ∉ runningDeploys (run cfg sample_runtime (boot existing) []).
Proof. apply not_elem_of_empty. Qed.

Lemma main_request_delivers_signed :
  delivers logging_config sample_runtime main_request push_main.
Proof. split; [reflexivity|]. exists [u "push acme/site main"]. repeat split; reflexivity. Qed.

Lemma sample_join_assoc (a b c : jsstring) :
  path_join sample_runtime [path_join sample_runtime [a; b]; c]
  = path_join sample_runtime [a; b; c].
Proof. cbn [path_join sample_runtime join]. by rewrite <- !app_assoc. Qed.

Lemma without_token_witness :
  truthy (TOKEN signed_config) = false
  /\ Forall (fun x : nat * Effect => is_api x.2 = false)
       (trace (run signed_config sample_runtime (boot site_checkout)
                 [Incoming (post (Val (u "sha256=06137b")) (u "push acme/site main"))])).
Proof.
  split; [reflexivity|].
  apply (without_token_no_api_call signed_config sample_runtime). reflexivity.
Defined.

Lemma refused_requests_witness :
  effects_of 0 (trace (run signed_config sample_runtime (boot site_checkout)
                  [Incoming (post (Val (u "sha256=000000")) (u "push acme/site main"))]))
  = [ConsoleError [LStr (warning_sign ++ u "  signature mismatch")];
     Respond 401 (u "Unauthorized")].
Proof.
  apply (refused_requests_do_nothing_else signed_config sample_runtime site_checkout []
           (post (Val (u "sha256=000000")) (u "push acme/site main")) []
        ) with (chunks := [u "push acme/site main"]); reflexivity.
Defined.

Lemma held_lock_witness :
  deployKey_of push_main
  ∈ runningDeploys (run sample_config sample_runtime (boot site_checkout)
                      [Incoming main_request])
  /\ effects_of 1 (trace (run sample_config sample_runtime (boot site_checkout)
                     [Incoming main_request; Incoming main_request]))
     = [Respond 200 (u "ok"); ConsoleLog [LStr (push_message push_main)];
        ConsoleLog [LStr (u "Deploy already running for acme/site:main, skipping")]].
Proof.
  assert (Hk : deployKey_of push_main
               ∈ runningDeploys (run sample_config sample_runtime (boot site_checkout)
                                   [Incoming main_request])) by (vm_compute; reflexivity).
  split; [exact Hk|].
  apply (held_lock_skips_deploy sample_config sample_runtime site_checkout
           [Incoming main_request] main_request push_main []
           main_request_delivers eq_refl Hk).
Defined.

Lemma log_file_witness :
  effects_of 0 (trace (run logging_config sample_runtime (boot site_checkout)
                  [Incoming log_request; Complete 0 (AnsStat true)]))
  = [ServeLog (u "logs/site/0a1b2c3d4e5f60718293.txt")]
  /\ effects_of 0 (trace (run logging_config sample_runtime (boot site_checkout)
                     [Incoming log_request; Complete 0 (AnsStat false)]))
     = [Respond 404 (u "Log file not found")].
Proof.
  destruct (log_file_is_served_or_404 logging_config sample_runtime site_checkout []
              log_request (u "/site/0a1b2c3d4e5f60718293") (u "site")
              (u "0a1b2c3d4e5f60718293") [] eq_refl eq_refl eq_refl eq_refl)
    as (_ & H1 & H2 & _).
  split; [exact H1|exact H2].
Defined.

Lemma malformed_url_witness :
  responses (effects_of 0 (trace (run logging_config sample_runtime (boot site_checkout)
               [Incoming (get None)])))
  = [].
Proof.
  exact (f_equal responses
           (malformed_url_gets_no_response logging_config sample_runtime site_checkout []
              (get None) [] eq_refl eq_refl eq_refl)).
Defined.

Lemma deploy_log_witness :
  trace (step logging_config sample_runtime logged_deploy (ProcData 0 build_output))
  = trace logged_deploy
    ++ [(0%nat, ConsoleLog [LStr (u "[deploy] building")]);
        (0%nat, StreamWrite (u "logs/site/0a1b2c3d4e5f60718293.txt") (u "building" ++ [nl]));
        (0%nat, ConsoleLog [LStr (u "[deploy] done")]);
        (0%nat, StreamWrite (u "logs/site/0a1b2c3d4e5f60718293.txt") (u "done" ++ [nl]))]
  /\ effects_of 1 (trace (run logging_config sample_runtime logged_deploy
                     [Incoming log_request; Complete 4 (AnsStat true)]))
     = [ServeLog (u "logs/site/0a1b2c3d4e5f60718293.txt")].
Proof.
  destruct (deploy_log_is_the_log_served logging_config sample_runtime site_checkout []
              main_request push_main (u "site") None [] [] build_output log_request
              sample_join_assoc eq_refl eq_refl eq_refl) as (_ & H1 & H2).
  - apply (bool_decide_eq_false_1 (slash ∈ u "site")). vm_compute. reflexivity.
  - apply (bool_decide_eq_false_1 (slash ∈ sha_of push_main)). vm_compute. reflexivity.
  - exact main_request_delivers_signed.
  - reflexivity.
  - apply not_elem_of_empty.
  - vm_compute. reflexivity.
  - reflexivity.
  - reflexivity.
  - split; [exact H1|exact H2].
Defined.

Lemma log_directory_failure_witness :
  rejections (effects_of 0 (trace (run logging_config sample_runtime (boot site_checkout)
                [Incoming main_request; Complete 0 (AnsApi None);
                 Complete 1 (AnsGit (GitClose (Some 0%Z) []));
                 Complete 2 (AnsGit (GitClose (Some 0%Z) []));
                 Complete 3 (AnsMkdir (Some disk_full))])))
  = [disk_full].
Proof.
  apply (log_directory_failure_abandons_deploy logging_config sample_runtime site_checkout []
           main_request push_main (u "site") None [] [] disk_full
           main_request_delivers_signed eq_refl (no_key_at_start _ _ _)).
  - vm_compute. reflexivity.
  - reflexivity.
  - reflexivity.
Defined.

Lemma failed_status_call_witness :
  effects_of 0 (trace (run sample_config sample_runtime (boot site_checkout)
                  [Incoming main_request; Complete 0 (AnsApi (Some connection_reset))]))
  = [Respond 200 (u "ok"); ConsoleLog [LStr (push_message push_main)];
     SetAdd (u "acme/site:main");
     status_call sample_config push_main (u "pending") (u "Deploy started");
     ConsoleError [LStr (u "GitHub API error:"); LStr (u "read ECONNRESET")];
     ConsoleLog [LStr (arrows_sign ++ u " git fetch origin 0a1b2c3d4e5f60718293")];
     Spawn (u "git") [u "fetch"; u "origin"; u "0a1b2c3d4e5f60718293"] (u "repos/site")].
Proof.
  apply (failed_status_call_is_only_logged sample_config sample_runtime site_checkout []
           main_request push_main (Some connection_reset)
           main_request_delivers eq_refl (no_key_at_start _ _ _)).
  - vm_compute. reflexivity.
  - reflexivity.
Defined.

Lemma branch_witness :
  delivers sample_config tag_runtime (post Undefined (u "push acme/site tag main")) push_tag
  /\ exists rest,
       effects_of 0 (trace (step sample_config tag_runtime (boot site_checkout)
                       (Incoming (post Undefined (u "push acme/site tag main")))))
       = [Respond 200 (u "ok");
          ConsoleLog [LStr (package_sign ++ u " Push to acme/site:main (0a1b2c3)")];
          SetAdd (u "acme/site:main")] ++ rest.
Proof.
  assert (Hd : delivers sample_config tag_runtime
                 (post Undefined (u "push acme/site tag main")) push_tag).
  { split; [reflexivity|]. exists [u "push acme/site tag main"]. repeat split; reflexivity. }
  split; [exact Hd|].
  destruct (branch_is_last_segment sample_config tag_runtime site_checkout []
              (post Undefined (u "push acme/site tag main")) push_tag
              (u "refs/tags") (u "main") (u "0a1b2c3d4e5f60718293") [] Hd eq_refl eq_refl)
    as (_ & _ & H).
  - apply (bool_decide_eq_false_1 (slash ∈ u "main")). vm_compute. reflexivity.
  - reflexivity.
  - apply H; [by left|apply not_elem_of_empty].
Defined.

Lemma output_witness :
  launched sample_config push_main None 0 launched_state
  /\ get_lines 0 (step sample_config sample_runtime launched_state (ProcData 0 build_output))
     = [u "building"; u "done"].
Proof.
  assert (Hl : launched sample_config push_main None 0 launched_state) by reflexivity.
  split; [exact Hl|].
  destruct (output_is_buffered_and_logged sample_config sample_runtime site_checkout
              (Incoming main_request :: launch_events sample_config push_main 0 None [] [])
              push_main None 0 build_output Hl) as [H _].
  exact H.
Defined.

Lemma earlier_lock_witness :
  deployKey_of push_main
  ∈ runningDeploys (WebhookJs.run sample_config sample_runtime (boot site_checkout)
                      [Incoming main_request; Complete 0 (AnsApi None)])
  /\ runningDeploys
       (WebhookJs.run sample_config sample_runtime (boot site_checkout)
          [Incoming main_request; Complete 0 (AnsApi None); ProcClose 0 (Some 0%Z)])
     = ∅.
Proof.
  destruct (earlier_lock_is_held_until_close sample_config sample_runtime site_checkout []
              main_request main_request push_main push_main None (Some 0%Z) syntax_error
              main_request_delivers eq_refl)
    as (_ & H1 & _ & _ & _ & _ & H2 & _).
  - apply not_elem_of_empty.
  - vm_compute. reflexivity.
  - exact main_request_delivers.
  - reflexivity.
  - reflexivity.
  - split; [|exact H2].
    refine (eq_ind_r (fun X : gset jsstring => deployKey_of push_main ∈ X) _ H1).
    apply elem_of_union. left. by apply elem_of_singleton.
Defined.

Lemma earlier_missing_directory_witness :
  runningDeploys (WebhookJs.step sample_config sample_runtime (boot ∅) (Incoming main_request))
  = ∅
  /\ statuses (effects_of 0 (trace (WebhookJs.step sample_config sample_runtime (boot ∅)
                 (Incoming main_request))))
     = [(status_path push_main, u "error", u "Repository directory not found")].
Proof.
  destruct (earlier_missing_directory sample_config sample_runtime ∅ []
              main_request push_main None
              main_request_delivers eq_refl)
    as (H1 & H2 & _).
  - apply not_elem_of_empty.
  - apply not_elem_of_empty.
  - split; [exact H2|]. exact (f_equal statuses H1).
Defined.

Lemma unnamed_request_delivers :
  delivers sample_config unnamed_runtime (post Undefined (u "push site main")) push_unnamed.
Proof. split; [reflexivity|]. exists [u "push site main"]. repeat split; reflexivity. Qed.

Lemma unnamed_repository_witness :
  truthy (repo_of push_unnamed) = false
  /\ Forall (fun e => is_api e = false)
       (effects_of 0 (trace (run sample_config unnamed_runtime (boot site_checkout)
          [Incoming (post Undefined (u "push site main"));
           Complete 0 (AnsGit (GitClose (Some 0%Z) []));
           Complete 1 (AnsGit (GitClose (Some 0%Z) []));
           ProcClose 0 (Some 1%Z)])))
  /\ spawns (effects_of 0 (trace (step sample_config unnamed_runtime (boot site_checkout)
               (Incoming (post Undefined (u "push site main"))))))
     = [(u "git", [u "fetch"; u "origin"; u "0a1b2c3d4e5f60718293"], u "repos/site")].
Proof.
  split; [reflexivity|].
  destruct (unnamed_repository_is_never_reported sample_config unnamed_runtime site_checkout []
              (post Undefined (u "push site main")) push_unnamed
              [Complete 0 (AnsGit (GitClose (Some 0%Z) []));
               Complete 1 (AnsGit (GitClose (Some 0%Z) []));
               ProcClose 0 (Some 1%Z)]
              unnamed_request_delivers (or_intror eq_refl) eq_refl) as [H1 H2].
  split; [exact H1|].
  exact (f_equal spawns (H2 eq_refl (not_elem_of_empty _) ltac:(vm_compute; reflexivity))).
Defined.
